(** * Digit recogniser front end: normaliser, summariser, layout and scheduler

    A shallow embedding of the JavaScript modules [Preprocessor]
    (js/core/preprocessor.js), [MnistModel] (js/core/model.js),
    [NetworkRenderer] (js/visual/networkRenderer.js), of [showResults] of
    [ResultsUI] (js/ui/resultsUI.js), of [ThemeManager] (js/ui/theme.js) and
    of [_buildRenderData] with its helper [pad16] of js/app.js, followed by
    the properties of the design document that are settled on them and by
    further properties of the code.

    Numbers.  JavaScript numbers are modelled by exact rationals extended with
    the three non-finite values of IEEE arithmetic ([JsNum.num]); rounding is
    not modelled.  Where every operand is finite and no division by zero can
    occur the code is written directly over [Q].  The one property that
    rounding decides, the size of the scaled drawing, is settled on
    [Preprocessor.geometry64], the same code over binary64 numbers.

    Browser.  The event loop is modelled by explicit queues of pending
    animation-frame callbacks and timers, and the callback of the
    [ResizeObserver] is an event of its own; [drawImage] follows the HTML
    canvas standard (nothing is painted for a non-finite argument or an empty
    source rectangle; otherwise only the destination rectangle is painted).

    Arrays.  [_layout] replaces the node arrays, and a closure of [animate]
    keeps the arrays it was created with: the state holds the arrays in use
    and those of the earlier layouts, and a run refers to its arrays by the
    number of their layout. *)

From Stdlib Require Import QArith Qminmax Qround Lqa Lia List ZArith Bool Arith.
From Stdlib Require Import Sorted Permutation String Floats.
From stdpp Require Import base list.
Import ListNotations.

(** Natural numbers read as JavaScript numbers. *)
Definition qn (n : nat) : Q := inject_Z (Z.of_nat n).

(* ================================================================== *)
(** ** JavaScript numbers *)
(* ================================================================== *)

Module JsNum.

Inductive num : Type :=
| Fin (q : Q)
| PInf
| NInf
| NaN.

Definition qpos (q : Q) : bool := negb (Qle_bool q 0).
Definition qzero (q : Q) : bool := Qeq_bool q 0.

Definition nneg (a : num) : num :=
  match a with
  | Fin q => Fin (- q)%Q
  | PInf => NInf
  | NInf => PInf
  | NaN => NaN
  end.

(** [a + b] *)
Definition nadd (a b : num) : num :=
  match a, b with
  | NaN, _ | _, NaN => NaN
  | Fin p, Fin q => Fin (p + q)%Q
  | PInf, NInf | NInf, PInf => NaN
  | PInf, _ | _, PInf => PInf
  | NInf, _ | _, NInf => NInf
  end.

(** [a - b] *)
Definition nsub (a b : num) : num := nadd a (nneg b).

(** An infinity of the sign of [q], or [NaN] when [q] is zero. *)
Definition signed_inf (q : Q) (positive : bool) : num :=
  if qzero q then NaN
  else if Bool.eqb (qpos q) positive then PInf else NInf.

(** [a * b] *)
Definition nmul (a b : num) : num :=
  match a, b with
  | NaN, _ | _, NaN => NaN
  | Fin p, Fin q => Fin (p * q)%Q
  | Fin p, PInf | PInf, Fin p => signed_inf p true
  | Fin p, NInf | NInf, Fin p => signed_inf p false
  | PInf, PInf | NInf, NInf => PInf
  | PInf, NInf | NInf, PInf => NInf
  end.

(** [a / b]; a finite non-zero number over zero is an infinity, [0 / 0] is
    [NaN] (zero is taken as positive zero). *)
Definition ndiv (a b : num) : num :=
  match a, b with
  | NaN, _ | _, NaN => NaN
  | Fin p, Fin q => if qzero q then signed_inf p true else Fin (p / q)%Q
  | Fin _, PInf | Fin _, NInf => Fin 0
  | PInf, Fin q => if qpos q || qzero q then PInf else NInf
  | NInf, Fin q => if qpos q || qzero q then NInf else PInf
  | _, _ => NaN
  end.

(** [Math.min(a, b)] *)
Definition nmin (a b : num) : num :=
  match a, b with
  | NaN, _ | _, NaN => NaN
  | NInf, _ | _, NInf => NInf
  | PInf, c | c, PInf => c
  | Fin p, Fin q => Fin (Qmin p q)
  end.

(** [Math.max(a, b)] *)
Definition nmax (a b : num) : num :=
  match a, b with
  | NaN, _ | _, NaN => NaN
  | PInf, _ | _, PInf => PInf
  | NInf, c | c, NInf => c
  | Fin p, Fin q => Fin (Qmax p q)
  end.

(** Equality of values (rationals up to [Qeq]). *)
Definition num_eq (a b : num) : Prop :=
  match a, b with
  | Fin p, Fin q => (p == q)%Q
  | PInf, PInf | NInf, NInf | NaN, NaN => True
  | _, _ => False
  end.

End JsNum.
Import JsNum.

(* ================================================================== *)
(** ** js/core/preprocessor.js *)
(* ================================================================== *)

Module Preprocessor.

(** A drawing canvas: its size and the RGBA bytes that
    [getImageData(0, 0, W, H).data] returns.  For a width or a height of 0
    [getImageData] throws: [prepare] and [isEmpty] return for canvases with
    pixels, and what is proved of them is stated for these. *)
Record canvas : Type := Canvas {
  width : nat;
  height : nat;
  data : list Z
}.

(** [getImageData] returns four bytes per pixel. *)
Definition wf_canvas (c : canvas) : Prop :=
  length (data c) = (4 * (width c * height c))%nat.

(** [pix[i] > 20]; an index past the end reads [undefined], and
    [undefined > 20] is false. *)
Definition ink (pix : list Z) (i : nat) : bool :=
  match pix !! i with
  | Some v => (20 <? v)%Z
  | None => false
  end.

Record bbox : Type := BBox {
  x0 : nat; y0 : nat; x1 : nat; y1 : nat; found : bool
}.

(** Body of the inner loop of [prepare]. *)
Definition scan_pixel (pix : list Z) (W y : nat) (b : bbox) (x : nat) : bbox :=
  if ink pix ((y * W + x) * 4) then
    {| x0 := Nat.min (x0 b) x; y0 := Nat.min (y0 b) y;
       x1 := Nat.max (x1 b) x; y1 := Nat.max (y1 b) y;
       found := true |}
  else b.

Definition scan_row (pix : list Z) (W : nat) (b : bbox) (y : nat) : bbox :=
  fold_left (scan_pixel pix W y) (seq 0 W) b.

(** The bounding-box loops of [prepare]. *)
Definition bounding_box (c : canvas) : bbox :=
  fold_left (scan_row (data c) (width c)) (seq 0 (height c))
    {| x0 := width c; y0 := height c; x1 := 0; y1 := 0; found := false |}.

(** The crop and placement computed by [prepare] once ink was found. *)
Record geom : Type := Geom {
  sx : Q; sy : Q; sw : Q; sh : Q;
  sc : num; dw : num; dh : num; dx : num; dy : num
}.

Definition geometry (W H : nat) (b : bbox) : geom :=
  let bw := (qn (x1 b) - qn (x0 b))%Q in
  let bh := (qn (y1 b) - qn (y0 b))%Q in
  let pad := (Qmax bw bh * (22 # 100))%Q in
  let sx := Qmax 0 (qn (x0 b) - pad)%Q in
  let sy := Qmax 0 (qn (y0 b) - pad)%Q in
  let sw := Qmin (qn W - sx)%Q (bw + pad * 2)%Q in
  let sh := Qmin (qn H - sy)%Q (bh + pad * 2)%Q in
  let sc := nmin (ndiv (Fin 20) (Fin sw)) (ndiv (Fin 20) (Fin sh)) in
  let dw := nmul (Fin sw) sc in
  let dh := nmul (Fin sh) sc in
  let dx := ndiv (nsub (Fin 28) dw) (Fin 2) in
  let dy := ndiv (nsub (Fin 28) dh) (Fin 2) in
  {| sx := sx; sy := sy; sw := sw; sh := sh;
     sc := sc; dw := dw; dh := dh; dx := dx; dy := dy |}.

(** *** The placement in double precision

    [geometry] above computes with exact rationals.  [geometry64] is the
    same code over the binary64 numbers JavaScript computes with. *)






(** The 28×28 output: the red channel of the pixel in column [i], row [j]. *)
Definition image28 : Type := nat -> nat -> Z.

(** [_blank28]: a canvas filled with [#000]. *)
Definition _blank28 : image28 := fun _ _ => 0%Z.

(** The unit cell of pixel [(i, j)] meets the open rectangle with corner
    [(dx, dy)] and size [dw × dh]. *)
Definition cell_in_rect (dx dy dw dh : Q) (i j : nat) : bool :=
  let lo_x := Qmin dx (dx + dw)%Q in let hi_x := Qmax dx (dx + dw)%Q in
  let lo_y := Qmin dy (dy + dh)%Q in let hi_y := Qmax dy (dy + dh)%Q in
  negb (Qle_bool (qn i + 1)%Q lo_x) && negb (Qle_bool hi_x (qn i)) &&
  negb (Qle_bool (qn j + 1)%Q lo_y) && negb (Qle_bool hi_y (qn j)).

Section Prepare.

(** The browser's resampling of the source rectangle: the value it
    paints at pixel [(i, j)] of the destination rectangle. *)
Variable resample : canvas -> Q -> Q -> Q -> Q -> Q -> Q -> Q -> Q -> nat -> nat -> Z.

(** [ctx.drawImage(src, sx, sy, sw, sh, dx, dy, dw, dh)] on the output
    canvas: returns without painting when an argument is not finite or
    the source rectangle is empty, and paints inside the destination
    rectangle only. *)
Definition drawImage (out : image28) (src : canvas)
    (sx sy sw sh : Q) (dx dy dw dh : num) : image28 :=
  match dx, dy, dw, dh with
  | Fin dx, Fin dy, Fin dw, Fin dh =>
      if qzero sw || qzero sh then out
      else fun i j =>
        if cell_in_rect dx dy dw dh i j
        then resample src sx sy sw sh dx dy dw dh i j
        else out i j
  | _, _, _, _ => out
  end.

Definition prepare (src : canvas) : image28 :=
  let W := width src in
  let H := height src in
  let b := bounding_box src in
  let out := _blank28 in
  if negb (found b) then out
  else
    let g := geometry W H b in
    drawImage out src (sx g) (sy g) (sw g) (sh g) (dx g) (dy g) (dw g) (dh g).

End Prepare.

(** [isEmpty]: the loop [for (i = 0; i < d.length; i += 4)] leaves with
    [false] at the first ink byte. *)
Definition isEmpty (c : canvas) : bool :=
  let d := data c in
  forallb (fun i => negb (ink d i))
          (map (fun k => k * 4)%nat (seq 0 ((length d + 3) / 4))).

(** The ink test of [prepare] at column [x], row [y]. *)
Definition ink_at (c : canvas) (x y : nat) : bool :=
  ink (data c) ((y * width c + x) * 4).

(** What the scan keeps true: a found box is ordered and inside the
    canvas, and before the first ink pixel [x1] and [y1] are still 0. *)
Definition box_ok (W H : nat) (b : bbox) : Prop :=
  (found b = true ->
   (x0 b <= x1 b)%nat /\ (x1 b < W)%nat /\ (y0 b <= y1 b)%nat /\ (y1 b < H)%nat) /\
  (found b = false -> x1 b = 0%nat /\ y1 b = 0%nat).

(** Sample canvases: background [#020408], white ink. *)
Definition bg : list Z := [2; 4; 8; 255]%Z.
Definition white : list Z := [255; 255; 255; 255]%Z.

(** 3×3, one ink pixel in the middle. *)
Definition dot_canvas : canvas :=
  Canvas 3 3 (bg ++ bg ++ bg ++ bg ++ white ++ bg ++ bg ++ bg ++ bg).

(** 4×3, two ink pixels side by side in the middle row. *)
Definition bar_canvas : canvas :=
  Canvas 4 3 (bg ++ bg ++ bg ++ bg ++
              bg ++ white ++ white ++ bg ++
              bg ++ bg ++ bg ++ bg).



(** 1×1 canvases whose only pixel is grey level 20 and grey level 21. *)
Definition grey20_canvas : canvas := Canvas 1 1 [20; 20; 20; 255]%Z.
Definition grey21_canvas : canvas := Canvas 1 1 [21; 21; 21; 255]%Z.

(** A resampler that paints full intensity everywhere. *)
Definition flood : canvas -> Q -> Q -> Q -> Q -> Q -> Q -> Q -> Q -> nat -> nat -> Z :=
  fun _ _ _ _ _ _ _ _ _ _ _ => 255%Z.

(** The pixels in the order the two loops of [prepare] visit them, as
    (row, column). *)
Definition scan_order (W H : nat) : list (nat * nat) :=
  flat_map (fun y => map (pair y) (seq 0 W)) (seq 0 H).

(** The box of [prepare] before the first pixel is scanned. *)
Definition empty_box (c : canvas) : bbox :=
  {| x0 := width c; y0 := height c; x1 := 0; y1 := 0; found := false |}.

(** [b] is the extent of the ink among the pixels [seen]: nothing found and
    no ink seen, or every ink pixel seen lies in the box and each side of
    the box is touched by one. *)
Definition hull (c : canvas) (seen : list (nat * nat)) (b : bbox) : Prop :=
  (found b = false ->
   b = empty_box c /\
   forall p, In p seen -> ink_at c (snd p) (fst p) = false) /\
  (found b = true ->
   (forall p, In p seen -> ink_at c (snd p) (fst p) = true ->
      (x0 b <= snd p <= x1 b)%nat /\ (y0 b <= fst p <= y1 b)%nat) /\
   (exists p, In p seen /\ ink_at c (snd p) (fst p) = true /\ snd p = x0 b) /\
   (exists p, In p seen /\ ink_at c (snd p) (fst p) = true /\ snd p = x1 b) /\
   (exists p, In p seen /\ ink_at c (snd p) (fst p) = true /\ fst p = y0 b) /\
   (exists p, In p seen /\ ink_at c (snd p) (fst p) = true /\ fst p = y1 b)).

End Preprocessor.

(* ================================================================== *)
(** ** js/core/model.js *)
(* ================================================================== *)

Module MnistModel.

(** A layer output: [tensor.shape] and the flat [tensor.dataSync()], a
    [Float32Array], whose entries can be finite numbers, infinities or
    [NaN]. *)
Record tensor : Type := Tensor {
  shape : list nat;
  tdata : list num
}.

(** [data[i]] as an operand of arithmetic: reading past the end gives
    [undefined], which arithmetic turns into [NaN]. *)
Definition read (data : list num) (i : nat) : num :=
  match data !! i with
  | Some v => v
  | None => NaN
  end.

(** The two nested loops of [_compactActivation] for feature [f]. *)
Definition channel_sum (data : list num) (H W F f : nat) : num :=
  fold_left
    (fun sum h =>
       fold_left (fun sum w => nadd sum (read data (h * W * F + w * F + f)))
                 (seq 0 W) sum)
    (seq 0 H) (Fin 0).

Definition channel_mean (data : list num) (H W F f : nat) : num :=
  ndiv (channel_sum data H W F f) (Fin (qn H * qn W)).

(** The vector [summary] before it is rescaled. *)
Definition summary (t : tensor) : list num :=
  match shape t with
  | [_; H; W; F] =>
      let n := Nat.min F 16 in
      map (channel_mean (tdata t) H W F) (seq 0 n)
  | _ => take 16 (tdata t)
  end.

(** [Math.max(...summary, 0.0001)] *)
Definition summary_max (s : list num) : num :=
  fold_right nmax (Fin (1 # 10000)) s.

Definition _compactActivation (t : tensor) : list num :=
  let s := summary t in
  let max := summary_max s in
  map (fun v => ndiv v max) s.

(** [Math.max(...qs, 0.0001)] on rationals. *)
Definition qfloor_max (qs : list Q) : Q := fold_right Qmax (1 # 10000) qs.

(** The number of entries a shape announces. *)
Definition size (sh : list nat) : nat := fold_right Nat.mul 1%nat sh.

(** A tensor holds as many values as its shape announces, and a
    feature-map tensor is not empty. *)
Definition wf_tensor (t : tensor) : Prop :=
  length (tdata t) = size (shape t) /\
  (length (shape t) = 4%nat -> (0 < size (shape t))%nat).



(** A finite number, and a finite number that is not negative. *)
Definition finite (v : num) : Prop := exists q, v = Fin q.
Definition nonneg (v : num) : Prop := exists q, v = Fin q /\ (0 <= q)%Q.

(** The spatial mean of a feature channel, as the spec words it.  A
    feature map of [H] rows, [W] columns and [F] channels is stored row by
    row, the [F] channel values of a pixel side by side: the value of
    channel [f] at row [h], column [w] is entry [(h * W + w) * F + f]. *)
Definition channel_values (data : list num) (H W F f : nat) : list num :=
  flat_map (fun h => map (fun w => read data ((h * W + w) * F + f)%nat)
                         (seq 0 W))
           (seq 0 H).

(** The sum of a list of numbers, from 0 and from the left. *)
Definition total (vs : list num) : num := fold_left nadd vs (Fin 0).

Definition spatial_mean (data : list num) (H W F f : nat) : num :=
  ndiv (total (channel_values data H W F f)) (Fin (qn H * qn W)).

(** Sample tensors: a dense output with a weak dominant unit, a 1×2×2×3
    feature map dominated by channel 1, and a 1×2×2×3 map of zeros. *)
Definition faint_tensor : tensor :=
  Tensor [1; 2]%nat (map Fin [1 # 20000; 0]%Q).
Definition peak_tensor : tensor :=
  Tensor [1; 2; 2; 3]%nat
         (map Fin [1; 4; 0;  1; 2; 0;  0; 4; 1;  2; 6; 1]%Q).

(** *** [train]

    [train] is an async function: an invocation runs until its next
    [await] and is resumed when the awaited promise settles.  A suspended
    invocation is recorded with the [await] it is parked on. *)

Inductive phase : Type :=
| AwaitData   (* await _loadData(...) *)
| AwaitFit.   (* await _model.fit(...) *)

Inductive effect : Type :=
| LoadData (r : nat)
| BuildModel (r : nat)
| OnDone (r : nat)
| OnError (r : nat).

Record mstate : Type := MState {
  _model : option nat;          (* the model, tagged by the run that built it *)
  _trained : bool;
  _training : bool;
  suspended : list (nat * phase);
  next_run : nat;
  effects : list effect         (* latest first *)
}.

Definition initial : mstate :=
  {| _model := None; _trained := false; _training := false;
     suspended := []; next_run := 0; effects := [] |}.

Inductive mevent : Type :=
| CallTrain
| Settle (r : nat) (ok : bool).
  (* the promise run [r] awaits settles; [ok = false] stands for a
     rejection or for an exception raised before the next [await] *)

(** [train(cbs)] up to its first [await]. *)
Definition train (s : mstate) : mstate :=
  if _training s then s
  else
    let r := next_run s in
    {| _model := _model s; _trained := _trained s; _training := true;
       suspended := suspended s ++ [(r, AwaitData)];
       next_run := S r;
       effects := LoadData r :: effects s |}.

Definition drop_run (r : nat) (l : list (nat * phase)) : list (nat * phase) :=
  List.filter (fun p => negb (fst p =? r)) l.

(** The [catch] block. *)
Definition on_catch (r : nat) (s : mstate) : mstate :=
  {| _model := _model s; _trained := _trained s; _training := false;
     suspended := drop_run r (suspended s);
     next_run := next_run s;
     effects := OnError r :: effects s |}.

(** Run [r] resumes after its [await]. *)
Definition resume (r : nat) (ok : bool) (s : mstate) : mstate :=
  match List.find (fun p => fst p =? r) (suspended s) with
  | None => s
  | Some (_, ph) =>
      if negb ok then on_catch r s
      else
        match ph with
        | AwaitData =>
            {| _model := Some r; _trained := _trained s;
               _training := _training s;
               suspended := drop_run r (suspended s) ++ [(r, AwaitFit)];
               next_run := next_run s;
               effects := BuildModel r :: effects s |}
        | AwaitFit =>
            {| _model := _model s; _trained := true; _training := false;
               suspended := drop_run r (suspended s);
               next_run := next_run s;
               effects := OnDone r :: effects s |}
        end
  end.

Definition mstep (s : mstate) (e : mevent) : mstate :=
  match e with
  | CallTrain => train s
  | Settle r ok => resume r ok s
  end.

Definition mexec (s : mstate) (es : list mevent) : mstate :=
  fold_left mstep es s.

(** Either no run is in flight and the flag is down, or exactly one run is
    suspended and the flag is up. *)
Inductive single_flight (s : mstate) : Prop :=
| sf_idle : suspended s = [] -> _training s = false -> single_flight s
| sf_busy (r : nat) (ph : phase) :
    suspended s = [(r, ph)] -> _training s = true -> single_flight s.

(** *** [isReady], [predict] and [getActivations] *)

Definition isReady (s : mstate) : bool := _trained s.

(** An entry of [top5]. *)
Record guess : Type := Guess {
  digit : nat;
  prob : Q;
  pct : Z
}.

(** What [predict] returns. *)
Record prediction : Type := Prediction {
  res_digit : nat;
  res_probs : list Q;
  res_top5 : list guess
}.

(** The ways [predict] can fail. *)
Inductive failure : Type :=
| NotTrained         (* throw new Error('Model not trained.') *)
| NoModel            (* TypeError: [_model] is null *)
| NoProbabilities.   (* TypeError: [top5[0]] is undefined *)

(** [Math.round]: the nearest integer, a half going up. *)
Definition round (x : Q) : Z := Qfloor (x + (1 # 2)).

(** [arr.map((p, i) => ({ digit: i, prob: p, pct: Math.round(p * 100) }))] *)
Definition ranked (arr : list Q) : list guess :=
  imap (fun i p => {| digit := i; prob := p; pct := round (p * 100) |}) arr.

(** [.sort((a, b) => b.prob - a.prob)].  The sort of arrays is stable, so
    for this comparator its result is the one ordering by decreasing
    probability that keeps equal entries in their order; insertion from the
    right computes it. *)
Fixpoint insert_guess (x : guess) (l : list guess) : list guess :=
  match l with
  | [] => [x]
  | y :: l' =>
      if Qle_bool (prob y) (prob x) then x :: y :: l'
      else y :: insert_guess x l'
  end.

Definition sort_by_prob (l : list guess) : list guess :=
  fold_right insert_guess [] l.

(** [predict(canvas28)]; [output m] stands for
    [_model.predict(t).dataSync()] of the model built by run [m], taken to
    hold finite numbers. *)
Definition predict (s : mstate) (output : nat -> list Q) : failure + prediction :=
  if negb (_trained s) then inl NotTrained
  else
    match _model s with
    | None => inl NoModel
    | Some m =>
        let arr := output m in
        let top5 := take 5 (sort_by_prob (ranked arr)) in
        match top5 with
        | [] => inl NoProbabilities
        | first :: _ =>
            inr {| res_digit := digit first; res_probs := arr; res_top5 := top5 |}
        end
    end.

(** [getActivations(canvas28)]; [outputs m] stands for the outputs of the
    convolution and dense layers of the model built by run [m]. *)
Definition getActivations (s : mstate) (outputs : nat -> list tensor) : list (list num) :=
  match _model s with
  | None => []
  | Some m => map _compactActivation (outputs m)
  end.

(** The order of [top5]: [a] comes before [b] when it is more probable, or
    as probable and the smaller digit. *)
Definition before (a b : guess) : Prop :=
  (prob b < prob a)%Q \/ ((prob b == prob a)%Q /\ (digit a < digit b)%nat).

(** What holds of the flags in every state [train] can reach: [_trained]
    is up exactly when a run has completed, a run parked on [fit] has built
    its model, and a trained module has a model. *)
Definition ready_inv (s : mstate) : Prop :=
  (_trained s = true <-> exists r, In (OnDone r) (effects s)) /\
  (forall r, In (r, AwaitFit) (suspended s) -> exists m, _model s = Some m) /\
  (_trained s = true -> exists m, _model s = Some m).

(** Run ids are handed out in increasing order. *)
Definition fresh_ids (s : mstate) : Prop :=
  (forall r ph, In (r, ph) (suspended s) -> (r < next_run s)%nat) /\
  (forall r, In (OnDone r) (effects s) -> (r < next_run s)%nat).

(** *** [_loadData] *)

Definition IMG_SIZE : nat := 784.
Definition NUM_CLASSES : nat := 10.
#[warnings="-abstract-large-number"]
Definition NUM_TRAIN : nat := 55000.
Definition NUM_TEST : nat := 5000.

(** [arr.slice(a, b)] of a typed array, for indices that are not
    negative. *)
Definition slice {A : Type} (a b : nat) (arr : list A) : list A :=
  take (b - a) (drop a arr).

Record dataset : Type := Dataset {
  trainX : list num;
  trainY : list Z;
  testX : list num;
  testY : list Z
}.

(** The object [_loadData] returns, from the decoded images and the label
    bytes. *)
Definition split_data (imgData : list num) (labels : list Z) : dataset :=
  {| trainX := slice 0 (NUM_TRAIN * IMG_SIZE) imgData;
     trainY := slice 0 (NUM_TRAIN * NUM_CLASSES) labels;
     testX := slice (NUM_TRAIN * IMG_SIZE)
                    ((NUM_TRAIN + NUM_TEST) * IMG_SIZE) imgData;
     testY := slice (NUM_TRAIN * NUM_CLASSES)
                    ((NUM_TRAIN + NUM_TEST) * NUM_CLASSES) labels |}.

End MnistModel.

(* ================================================================== *)
(** ** js/app.js *)
(* ================================================================== *)

Module App.

(** [pad16 = arr => Array.from({ length: 16 }, (_, i) => arr[i] ?? 0)] *)
Definition pad16 (arr : list num) : list num :=
  map (fun i => match arr !! i with Some v => v | None => Fin 0 end)
      (seq 0 16).

(** The summary the visualisation receives for a hidden layer:
    [pad16(activations[k])] with [activations[k] = _compactActivation(tensor)]. *)
Definition summarize (t : MnistModel.tensor) : list num :=
  pad16 (MnistModel._compactActivation t).


(** *** [_buildRenderData] *)

Record render_data : Type := RenderData {
  inputPixels : list num;
  h1Acts : list num;
  h2Acts : list num;
  outActs : list Q
}.

(** [imgD[i]] as an operand of [+]: a byte of the image data, or, past the
    end, [undefined], which arithmetic turns into [NaN]. *)
Definition byte (imgD : list Z) (i : nat) : num :=
  match imgD !! i with
  | Some v => Fin (inject_Z v)
  | None => NaN
  end.

(** The body of the two loops: [avg] for row [r] and column [c]. *)
Definition block_mean (imgD : list Z) (r c : nat) : num :=
  let sr := (r * 2)%nat in
  let sc := (c * 2)%nat in
  ndiv (nadd (nadd (nadd (byte imgD ((sr * 28 + sc) * 4))
                         (byte imgD ((sr * 28 + sc + 1) * 4)))
                   (byte imgD (((sr + 1) * 28 + sc) * 4)))
             (byte imgD (((sr + 1) * 28 + sc + 1) * 4)))
       (Fin (4 * 255)).

Definition px14 (imgD : list Z) : list num :=
  flat_map (fun r => map (fun c => block_mean imgD r c) (seq 0 14))
           (seq 0 14).

(** [activations[k] || []] *)
Definition layer_or_empty (activations : list (list num)) (k : nat) : list num :=
  match activations !! k with
  | Some arr => arr
  | None => []
  end.

(** [_buildRenderData(canvas28, activations, probs)]; [imgD] is
    [canvas28.getContext('2d').getImageData(0, 0, 28, 28).data], the RGBA
    bytes of the 28×28 canvas row by row. *)
Definition _buildRenderData (imgD : list Z)
    (activations : list (list num)) (probs : list Q) : render_data :=
  {| inputPixels := px14 imgD;
     h1Acts := pad16 (layer_or_empty activations 0);
     h2Acts := pad16 (layer_or_empty activations 1);
     outActs := take 10 probs |}.

(** What [getImageData(0, 0, 28, 28).data] is: four bytes for each of the
    28 × 28 pixels. *)
Definition image_data (imgD : list Z) : Prop :=
  length imgD = (28 * 28 * 4)%nat /\
  List.Forall (fun v => (0 <= v <= 255)%Z) imgD.

(** A sample image: black, but for the pixel in row 0 and column 2, whose
    red byte is 255. *)
Definition spot_image : list Z :=
  flat_map (fun k => [if (k =? 2)%nat then 255%Z else 0%Z; 0%Z; 0%Z; 255%Z])
           (seq 0 784).

End App.

(* ================================================================== *)
(** ** js/ui/resultsUI.js *)
(* ================================================================== *)

Module ResultsUI.

(** The colours of the confidence line: [var(--col-green)],
    [var(--accent)] and [var(--col-amber)]. *)
Inductive colour : Type := Green | Accent | Amber.

(** What [showResults] writes for the row of digit [d]: its classes at
    once, its width and text [pct + '%'] from a timer after [bar_delay]
    milliseconds. *)
Record bar : Type := Bar {
  bar_delay : nat;
  bar_pct : Z;
  is_winner : bool
}.

(** What [showResults] writes: the text of [#resultDigit], the percentage
    and colour of [#resultConf], and the rows. *)
Record display : Type := Display {
  resultDigit : nat;
  resultConf : Z;
  confColour : colour;
  bars : list bar
}.

Definition conf_colour (pct : Z) : colour :=
  if (90 <=? pct)%Z then Green
  else if (60 <=? pct)%Z then Accent
  else Amber.

(** [showResults(result)]; [None] is the [TypeError] of reading
    [winner.digit] when [top5] is empty. *)
Definition showResults (result : MnistModel.prediction) : option display :=
  match MnistModel.res_top5 result with
  | [] => None
  | winner :: _ =>
      Some {| resultDigit := MnistModel.digit winner;
              resultConf := MnistModel.pct winner;
              confColour := conf_colour (MnistModel.pct winner);
              bars :=
                imap (fun d p =>
                        {| bar_delay := 50 + d * 40;
                           bar_pct := MnistModel.round (p * 100);
                           is_winner := (d =? MnistModel.digit winner)%nat |})
                     (MnistModel.res_probs result) |}
  end.

End ResultsUI.

(* ================================================================== *)
(** ** js/ui/theme.js *)
(* ================================================================== *)

Module ThemeManager.

(** What the module reads and writes: the [data-theme] attribute of the
    document element, the item [digit-ai:theme] of [localStorage], and the
    [aria-label] of the toggle button when the page has that button. *)
Record page : Type := Page {
  data_theme : option string;
  stored : option string;
  has_button : bool;
  aria_label : option string
}.

(** [a || b] on a string that may be [null]: [null] and the empty string
    are falsy. *)
Definition or_else (a : option string) (b : string) : string :=
  match a with
  | Some EmptyString | None => b
  | Some v => v
  end.

(** [theme === 'dark' ? 'light' : 'dark'] *)
Definition other (theme : string) : string :=
  if String.eqb theme "dark" then "light"%string else "dark"%string.

Definition _apply (theme : string) (p : page) : page :=
  {| data_theme := Some theme;
     stored := stored p;
     has_button := has_button p;
     aria_label :=
       if has_button p
       then Some (String.append "Switch to "
                    (String.append (other theme) " mode"))
       else aria_label p |}.

(** [matches ? 'light' : 'dark'] *)
Definition pref (os_light : bool) : string :=
  if os_light then "light"%string else "dark"%string.

(** [init], with the answer of the media query. *)
Definition init (os_light : bool) (p : page) : page :=
  _apply (or_else (stored p) (pref os_light)) p.

Definition toggle (p : page) : page :=
  let current := or_else (data_theme p) "dark" in
  let next := other current in
  let p := _apply next p in
  {| data_theme := data_theme p; stored := Some next;
     has_button := has_button p; aria_label := aria_label p |}.

(** The listener of the media query. *)
Definition os_change (matches : bool) (p : page) : page :=
  match stored p with
  | Some (String _ _) => p
  | _ => _apply (pref matches) p
  end.

Inductive action : Type :=
| Toggle
| OsChange (matches : bool).

Definition act_on (p : page) (a : action) : page :=
  match a with
  | Toggle => toggle p
  | OsChange m => os_change m p
  end.

Definition run (p : page) (acts : list action) : page :=
  fold_left act_on acts p.

(** The user has chosen: the attribute is the stored theme, one of the
    two, and the label names the other. *)
Definition chosen (p : page) : Prop :=
  exists t, (t = "dark"%string \/ t = "light"%string) /\
    data_theme p = Some t /\ stored p = Some t /\
    (has_button p = true ->
     aria_label p =
     Some (String.append "Switch to " (String.append (other t) " mode"))).

End ThemeManager.

(* ================================================================== *)
(** ** js/visual/networkRenderer.js *)
(* ================================================================== *)

Module NetworkRenderer.

Definition H1 : nat := 16.
Definition H2 : nat := 16.
Definition OUT : nat := 10.
Definition PIX_COLS : nat := 14.
Definition PIX_ROWS : nat := 14.
Definition ANIM_DUR : Q := 280.
Definition LAYER_GAP : Q := 70.

Record node : Type := Node {
  x : Q; y : Q; act : Q; target : Q; idx : nat
}.

(** A cell of the input preview ([x], [y], [w], [h], [val] in the source). *)
Record pixel : Type := Pixel {
  px : Q; py : Q; pw : Q; ph : Q; val : Q
}.

(** The three node arrays a layer entry of [animate] can refer to. *)
Inductive layer_ref : Type := LH1 | LH2 | LOut.

#[global] Instance layer_ref_eq_dec : EqDecision layer_ref.
Proof. solve_decision. Defined.

(** A callback handed to the browser.  [Step r l start] is the closure
    [step] created by [nextLayer] of run [r] for the nodes of [l];
    [NextLayer r] is the closure [nextLayer] of run [r]. *)
Inductive callback : Type :=
| Step (r : nat) (l : layer_ref) (start : Q)
| NextLayer (r : nat).

Definition owner (c : callback) : nat :=
  match c with
  | Step r _ _ => r
  | NextLayer r => r
  end.

(** The variables one call of [animate] closes over: [layers], the
    counter [li] and whether [onDone] was given.  An entry of [layers]
    holds the node array itself, not the variable [_h1Nodes], [_h2Nodes]
    or [_outNodes] it was read from: [arrays] is the number of the layout
    that made the three arrays. *)
Record run_env : Type := RunEnv {
  layers : list (layer_ref * list (option Q));
  li : nat;
  onDone : bool;
  arrays : nat
}.

(** The argument of [animate]; [None] is an absent (undefined or null)
    array, and an element [None] is an undefined or null entry. *)
Record anim_data : Type := AnimData {
  inputPixels : option (list (option Q));
  h1Acts : option (list (option Q));
  h2Acts : option (list (option Q));
  outActs : option (list (option Q))
}.

Record state : Type := State {
  canvas_width : Q;
  canvas_height : Q;
  _raf : option nat;
  _h1Nodes : list node;
  _h2Nodes : list node;
  _outNodes : list node;
  _pixels : list pixel;
  (* the node arrays of the earlier layouts, oldest first: [_layout] makes
     new arrays, and the old ones live on in the closures that hold them *)
  retired : list (list node * list node * list node);
  (* the browser *)
  frames : list (nat * callback);   (* requested animation frames, oldest first *)
  timers : list (nat * callback);   (* pending timeouts *)
  next_handle : nat;
  (* the closures' environments, by run *)
  runs : list run_env;
  (* observations *)
  draws : nat;                      (* calls of [_draw] *)
  completed : list nat              (* runs whose [onDone] was called, latest first *)
}.

(** *** [_layout] and [_makeNodes] *)

Definition cx (W : Q) (i : nat) : Q := (W * (qn i + 1) / 5)%Q.

Definition _makeNodes (count : nat) (lx H : Q) : list node :=
  let gap := (H / (qn count + 1))%Q in
  map (fun i => {| x := lx; y := (gap * (qn i + 1))%Q;
                   act := 0; target := 0; idx := i |})
      (seq 0 count).

(** [P.clientWidth || 260]: a zero size falls back to the default. *)
Definition or_default (client fallback : nat) : Q :=
  if (client =? 0)%nat then qn fallback else qn client.

Definition cell_size (W H : Q) : Q :=
  Qmin (Qmin ((W / 5) * (85 # 100) / qn PIX_COLS)%Q
             (H * (75 # 100) / qn PIX_ROWS)%Q) 9.

Definition make_pixels (W H : Q) : list pixel :=
  let cellW := cell_size W H in
  let cellH := cellW in
  let gridW := (cellW * qn PIX_COLS)%Q in
  let gridH := (cellH * qn PIX_ROWS)%Q in
  let gx0 := (cx W 0 - gridW / 2)%Q in
  let gy0 := (H / 2 - gridH / 2)%Q in
  flat_map
    (fun r =>
       map (fun c => {| px := (gx0 + qn c * cellW + cellW / 2)%Q;
                        py := (gy0 + qn r * cellH + cellH / 2)%Q;
                        pw := (cellW - 1)%Q; ph := (cellH - 1)%Q;
                        val := 0 |})
           (seq 0 PIX_COLS))
    (seq 0 PIX_ROWS).

(** [_drawInputGrid]: the rectangle [fillRect(p.x - p.w / 2, p.y - p.h / 2,
    p.w, p.h)] painted for a cell, as left, top, width and height. *)
Definition cell_rect (p : pixel) : Q * Q * Q * Q :=
  ((px p - pw p / 2)%Q, (py p - ph p / 2)%Q, pw p, ph p).

Definition _layout (clientWidth clientHeight : nat) (s : state) : state :=
  let W := or_default clientWidth 260 in
  let H := or_default clientHeight 500 in
  {| canvas_width := W; canvas_height := H;
     _raf := _raf s;
     _h1Nodes := _makeNodes H1 (cx W 1) H;
     _h2Nodes := _makeNodes H2 (cx W 2) H;
     _outNodes := _makeNodes OUT (cx W 3) H;
     _pixels := make_pixels W H;
     retired := retired s ++ [(_h1Nodes s, _h2Nodes s, _outNodes s)];
     frames := frames s; timers := timers s; next_handle := next_handle s;
     runs := runs s; draws := draws s; completed := completed s |}.

(** [_drawLabels]: the horizontal positions of the four column labels. *)
Definition label_columns (W : Q) : list Q :=
  [(W / 5 * 1)%Q; (W / 5 * 2)%Q; (W / 5 * 3)%Q; (W / 5 * 4)%Q].

(** The fifth of the width at which the nodes of a layer are drawn, and the
    number of nodes of the layer. *)
Definition column (l : layer_ref) : Q :=
  match l with LH1 => 2 | LH2 => 3 | LOut => 4 end.

Definition node_count (l : layer_ref) : nat :=
  match l with LH1 => H1 | LH2 => H2 | LOut => OUT end.

(** *** State updates *)

Definition get_nodes (l : layer_ref) (s : state) : list node :=
  match l with
  | LH1 => _h1Nodes s
  | LH2 => _h2Nodes s
  | LOut => _outNodes s
  end.

Definition set_nodes (l : layer_ref) (ns : list node) (s : state) : state :=
  {| canvas_width := canvas_width s; canvas_height := canvas_height s;
     _raf := _raf s;
     _h1Nodes := match l with LH1 => ns | _ => _h1Nodes s end;
     _h2Nodes := match l with LH2 => ns | _ => _h2Nodes s end;
     _outNodes := match l with LOut => ns | _ => _outNodes s end;
     _pixels := _pixels s;
     retired := retired s;
     frames := frames s; timers := timers s; next_handle := next_handle s;
     runs := runs s; draws := draws s; completed := completed s |}.

Definition set_pixels (ps : list pixel) (s : state) : state :=
  {| canvas_width := canvas_width s; canvas_height := canvas_height s;
     _raf := _raf s;
     _h1Nodes := _h1Nodes s; _h2Nodes := _h2Nodes s; _outNodes := _outNodes s;
     _pixels := ps;
     retired := retired s;
     frames := frames s; timers := timers s; next_handle := next_handle s;
     runs := runs s; draws := draws s; completed := completed s |}.

Definition set_runs (rs : list run_env) (s : state) : state :=
  {| canvas_width := canvas_width s; canvas_height := canvas_height s;
     _raf := _raf s;
     _h1Nodes := _h1Nodes s; _h2Nodes := _h2Nodes s; _outNodes := _outNodes s;
     _pixels := _pixels s;
     retired := retired s;
     frames := frames s; timers := timers s; next_handle := next_handle s;
     runs := rs; draws := draws s; completed := completed s |}.

Definition set_retired (old : list (list node * list node * list node))
    (s : state) : state :=
  {| canvas_width := canvas_width s; canvas_height := canvas_height s;
     _raf := _raf s;
     _h1Nodes := _h1Nodes s; _h2Nodes := _h2Nodes s; _outNodes := _outNodes s;
     _pixels := _pixels s;
     retired := old;
     frames := frames s; timers := timers s; next_handle := next_handle s;
     runs := runs s; draws := draws s; completed := completed s |}.

(** The number of the current layout: the arrays of the layouts before it
    are retired. *)
Definition layout_no (s : state) : nat := length (retired s).

Definition pick (l : layer_ref) (a : list node * list node * list node) :
    list node :=
  match l, a with
  | LH1, (h1, _, _) => h1
  | LH2, (_, h2, _) => h2
  | LOut, (_, _, out) => out
  end.

Definition put (l : layer_ref) (ns : list node)
    (a : list node * list node * list node) :
    list node * list node * list node :=
  match l, a with
  | LH1, (_, h2, out) => (ns, h2, out)
  | LH2, (h1, _, out) => (h1, ns, out)
  | LOut, (h1, h2, _) => (h1, h2, ns)
  end.

(** The array of layer [l] that layout [g] made: the one in use, or one
    that only closures still hold. *)
Definition nodes_of (g : nat) (l : layer_ref) (s : state) : list node :=
  if (g =? layout_no s)%nat then get_nodes l s
  else match retired s !! g with
       | Some a => pick l a
       | None => []
       end.

(** The nodes of that array are updated in place. *)
Definition put_nodes (g : nat) (l : layer_ref) (ns : list node) (s : state) :
    state :=
  if (g =? layout_no s)%nat then set_nodes l ns s
  else set_retired (alter (put l ns) g (retired s)) s.

(** [_draw()]: one repaint from the current state. *)
Definition _draw (s : state) : state :=
  {| canvas_width := canvas_width s; canvas_height := canvas_height s;
     _raf := _raf s;
     _h1Nodes := _h1Nodes s; _h2Nodes := _h2Nodes s; _outNodes := _outNodes s;
     _pixels := _pixels s;
     retired := retired s;
     frames := frames s; timers := timers s; next_handle := next_handle s;
     runs := runs s; draws := S (draws s); completed := completed s |}.

(** [onDone()] of run [r]. *)
Definition call_onDone (r : nat) (s : state) : state :=
  {| canvas_width := canvas_width s; canvas_height := canvas_height s;
     _raf := _raf s;
     _h1Nodes := _h1Nodes s; _h2Nodes := _h2Nodes s; _outNodes := _outNodes s;
     _pixels := _pixels s;
     retired := retired s;
     frames := frames s; timers := timers s; next_handle := next_handle s;
     runs := runs s; draws := draws s; completed := r :: completed s |}.

(** *** The browser's scheduling primitives *)

(** [_raf = requestAnimationFrame(cb)] *)
Definition requestAnimationFrame (cb : callback) (s : state) : state :=
  let h := next_handle s in
  {| canvas_width := canvas_width s; canvas_height := canvas_height s;
     _raf := Some h;
     _h1Nodes := _h1Nodes s; _h2Nodes := _h2Nodes s; _outNodes := _outNodes s;
     _pixels := _pixels s;
     retired := retired s;
     frames := frames s ++ [(h, cb)]; timers := timers s;
     next_handle := S h;
     runs := runs s; draws := draws s; completed := completed s |}.

Definition remove_handle (h : nat) (q : list (nat * callback)) : list (nat * callback) :=
  List.filter (fun p => negb (fst p =? h)) q.

(** [cancelAnimationFrame(h)]: removes the request [h] if it is still
    pending, and does nothing otherwise. *)
Definition cancelAnimationFrame (h : nat) (s : state) : state :=
  {| canvas_width := canvas_width s; canvas_height := canvas_height s;
     _raf := _raf s;
     _h1Nodes := _h1Nodes s; _h2Nodes := _h2Nodes s; _outNodes := _outNodes s;
     _pixels := _pixels s;
     retired := retired s;
     frames := remove_handle h (frames s); timers := timers s;
     next_handle := next_handle s;
     runs := runs s; draws := draws s; completed := completed s |}.

(** [setTimeout(cb, LAYER_GAP)] *)
Definition setTimeout (cb : callback) (s : state) : state :=
  let h := next_handle s in
  {| canvas_width := canvas_width s; canvas_height := canvas_height s;
     _raf := _raf s;
     _h1Nodes := _h1Nodes s; _h2Nodes := _h2Nodes s; _outNodes := _outNodes s;
     _pixels := _pixels s;
     retired := retired s;
     frames := frames s; timers := timers s ++ [(h, cb)];
     next_handle := S h;
     runs := runs s; draws := draws s; completed := completed s |}.

(** [if (_raf) cancelAnimationFrame(_raf)] *)
Definition cancel_pending (s : state) : state :=
  match _raf s with
  | Some h => cancelAnimationFrame h s
  | None => s
  end.

(** *** [animate], [nextLayer], [step] and [reset] *)

(** [arr[i] ?? 0] *)
Definition entry (arr : list (option Q)) (i : nat) : Q :=
  match arr !! i with
  | Some (Some v) => v
  | _ => 0
  end.

(** [acts || []] *)
Definition or_empty (acts : option (list (option Q))) : list (option Q) :=
  match acts with
  | Some arr => arr
  | None => []
  end.

Definition set_target (t : Q) (n : node) : node :=
  {| x := x n; y := y n; act := act n; target := t; idx := idx n |}.

Definition set_act (a : Q) (n : node) : node :=
  {| x := x n; y := y n; act := a; target := target n; idx := idx n |}.

Definition set_val (v : Q) (p : pixel) : pixel :=
  {| px := px p; py := py p; pw := pw p; ph := ph p; val := v |}.

(** [nodes.forEach((n, i) => { n.target = Math.min(targets[i] ?? 0, 1); })] *)
Definition assign_targets (targets : list (option Q)) (nodes : list node) : list node :=
  imap (fun i n => set_target (Qmin (entry targets i) 1) n) nodes.

(** [nodes.forEach(n => { n.act += (n.target - n.act) * ease; })] *)
Definition ease_nodes (ease : Q) (nodes : list node) : list node :=
  map (fun n => set_act (act n + (target n - act n) * ease)%Q n) nodes.

(** [_pixels.forEach((p, i) => { p.val = inputPixels[i] ?? 0; })] *)
Definition assign_pixels (arr : list (option Q)) (ps : list pixel) : list pixel :=
  imap (fun i p => set_val (entry arr i) p) ps.

Definition ease_of (now start : Q) : Q * Q :=
  let t := Qmin ((now - start) / ANIM_DUR)%Q 1 in
  (t, (1 - (1 - t) ^ 3)%Q).

(** [li++] in the environment of run [r]. *)
Definition incr_li (r : nat) (s : state) : state :=
  match runs s !! r with
  | Some env =>
      set_runs (<[r := {| layers := layers env; li := S (li env);
                          onDone := onDone env;
                          arrays := arrays env |}]> (runs s)) s
  | None => s
  end.

(** The closure [nextLayer] of run [r], called at time [now]. *)
Definition nextLayer (r : nat) (now : Q) (s : state) : state :=
  match runs s !! r with
  | None => s
  | Some env =>
      match layers env !! li env with
      | None =>                       (* li >= layers.length *)
          if onDone env then call_onDone r s else s
      | Some (l, targets) =>
          let nodes := nodes_of (arrays env) l s in
          let s := put_nodes (arrays env) l (assign_targets targets nodes) s in
          let start := now in
          requestAnimationFrame (Step r l start) s
      end
  end.

(** The layout whose arrays the closures of run [r] hold. *)
Definition captured (r : nat) (s : state) : nat :=
  match runs s !! r with
  | Some env => arrays env
  | None => layout_no s
  end.

(** The closure [step] of run [r] on the nodes of [l], called by the
    browser with the frame time [now].  Its [nodes] is the array
    [nextLayer] took from [layers]. *)
Definition step (r : nat) (l : layer_ref) (start now : Q) (s : state) : state :=
  let '(t, ease) := ease_of now start in
  let nodes := nodes_of (captured r s) l s in
  let s := put_nodes (captured r s) l (ease_nodes ease nodes) s in
  let s := _draw s in
  if negb (Qle_bool 1 t)             (* t < 1 *)
  then requestAnimationFrame (Step r l start) s
  else setTimeout (NextLayer r) (incr_li r s).

Definition animate (now : Q) (d : anim_data) (cb : bool) (s : state) : state :=
  let s := cancel_pending s in
  let s := match inputPixels d with
           | Some arr => set_pixels (assign_pixels arr (_pixels s)) s
           | None => s
           end in
  let env := {| layers := [(LH1, or_empty (h1Acts d));
                           (LH2, or_empty (h2Acts d));
                           (LOut, or_empty (outActs d))];
                li := 0; onDone := cb; arrays := layout_no s |} in
  let r := length (runs s) in
  let s := set_runs (runs s ++ [env]) s in
  nextLayer r now s.

Definition zero_node (n : node) : node :=
  {| x := x n; y := y n; act := 0; target := 0; idx := idx n |}.

Definition reset (s : state) : state :=
  let s := cancel_pending s in
  let s := set_nodes LH1 (map zero_node (_h1Nodes s)) s in
  let s := set_nodes LH2 (map zero_node (_h2Nodes s)) s in
  let s := set_nodes LOut (map zero_node (_outNodes s)) s in
  let s := set_pixels (map (set_val 0) (_pixels s)) s in
  _draw s.

(** *** Exceptions

    On missing or short arrays the one operation of [animate] and of its
    closure [nextLayer] that can throw is the read of a property of
    [undefined] or [null].  [animate_checked] and [nextLayer_checked] are
    [animate] and [nextLayer] with the reads of array entries and the
    destructuring of [layers[li]] written as operations that can throw. *)

Inductive outcome (A : Type) : Type :=
| Returns (a : A)
| Throws.                         (* a TypeError *)
Arguments Returns {A} a.
Arguments Throws {A}.

(** [arr[i]] where [arr] may be absent: the entry, [undefined] past the
    end, and a [TypeError] when [arr] is [undefined] or [null]. *)
Definition read_entry (arr : option (list (option Q))) (i : nat) : outcome (option Q) :=
  match arr with
  | None => Throws
  | Some a => Returns (match a !! i with Some v => v | None => None end)
  end.

(** [v ?? 0] *)
Definition or_zero (v : option Q) : Q :=
  match v with
  | Some q => q
  | None => 0
  end.

(** [xs.forEach((x, i) => ...)] from index [i] on, with a body that can
    throw. *)
Fixpoint for_each {A : Type} (body : nat -> A -> outcome A) (i : nat)
    (xs : list A) : outcome (list A) :=
  match xs with
  | [] => Returns []
  | x :: rest =>
      match body i x with
      | Throws => Throws
      | Returns x' =>
          match for_each body (S i) rest with
          | Throws => Throws
          | Returns rest' => Returns (x' :: rest')
          end
      end
  end.

Definition nextLayer_checked (r : nat) (now : Q) (s : state) : outcome state :=
  match runs s !! r with
  | None => Returns s
  | Some env =>
      if (length (layers env) <=? li env)%nat      (* li >= layers.length *)
      then Returns (if onDone env then call_onDone r s else s)
      else
        match layers env !! li env with
        | None => Throws                           (* destructuring undefined *)
        | Some (l, targets) =>
            match for_each
                    (fun i n =>
                       match read_entry (Some targets) i with
                       | Throws => Throws
                       | Returns v => Returns (set_target (Qmin (or_zero v) 1) n)
                       end)
                    0 (nodes_of (arrays env) l s) with
            | Throws => Throws
            | Returns ns =>
                Returns (requestAnimationFrame (Step r l now)
                           (put_nodes (arrays env) l ns s))
            end
        end
  end.

Definition animate_checked (now : Q) (d : anim_data) (cb : bool) (s : state) :
    outcome state :=
  let s := cancel_pending s in
  let painted :=
    match inputPixels d with                       (* if (inputPixels) *)
    | Some _ =>
        match for_each
                (fun i p =>
                   match read_entry (inputPixels d) i with
                   | Throws => Throws
                   | Returns v => Returns (set_val (or_zero v) p)
                   end)
                0 (_pixels s) with
        | Throws => Throws
        | Returns ps => Returns (set_pixels ps s)
        end
    | None => Returns s
    end in
  match painted with
  | Throws => Throws
  | Returns s =>
      let env := {| layers := [(LH1, or_empty (h1Acts d));
                               (LH2, or_empty (h2Acts d));
                               (LOut, or_empty (outActs d))];
                    li := 0; onDone := cb; arrays := layout_no s |} in
      let r := length (runs s) in
      nextLayer_checked r now (set_runs (runs s ++ [env]) s)
  end.

(** *** The event loop *)

Definition run_callback (now : Q) (c : callback) (s : state) : state :=
  match c with
  | Step r l start => step r l start now s
  | NextLayer r => nextLayer r now s
  end.

(** The browser runs the animation-frame callbacks: the requests pending
    at the start of the frame are taken in order; one that was cancelled
    meanwhile is skipped, and a request made during the frame waits for the
    next one. *)
Fixpoint run_frame (now : Q) (batch : list (nat * callback)) (s : state) : state :=
  match batch with
  | [] => s
  | (h, c) :: rest =>
      if existsb (fun p => fst p =? h) (frames s)
      then run_frame now rest (run_callback now c (cancelAnimationFrame h s))
      else run_frame now rest s
  end.

Definition clear_timer (h : nat) (s : state) : state :=
  {| canvas_width := canvas_width s; canvas_height := canvas_height s;
     _raf := _raf s;
     _h1Nodes := _h1Nodes s; _h2Nodes := _h2Nodes s; _outNodes := _outNodes s;
     _pixels := _pixels s;
     retired := retired s;
     frames := frames s; timers := remove_handle h (timers s);
     next_handle := next_handle s;
     runs := runs s; draws := draws s; completed := completed s |}.

Inductive event : Type :=
| Animate (now : Q) (d : anim_data) (cb : bool)   (* animate(d, onDone) *)
| Reset                                           (* reset() *)
| Frame (now : Q)                                 (* an animation frame *)
| Timeout (h : nat) (now : Q)                     (* the timer [h] expires *)
| Layout (clientWidth clientHeight : nat).
  (* the parent element changes its size: the callback of the
     [ResizeObserver], [_layout(); _draw();] *)

Definition handle (s : state) (e : event) : state :=
  match e with
  | Animate now d cb => animate now d cb s
  | Reset => reset s
  | Frame now => run_frame now (frames s) s
  | Timeout h now =>
      match List.find (fun p => fst p =? h) (timers s) with
      | Some (_, c) => run_callback now c (clear_timer h s)
      | None => s
      end
  | Layout clientWidth clientHeight =>
      _draw (_layout clientWidth clientHeight s)
  end.

Definition exec (s : state) (es : list event) : state :=
  fold_left handle es s.

(** [init]: the state once the canvas is laid out, before any animation.
    Handles given out by the browser are positive. *)
Definition init (clientWidth clientHeight : nat) : state :=
  _draw (_layout clientWidth clientHeight
    {| canvas_width := 0; canvas_height := 0; _raf := None;
       _h1Nodes := []; _h2Nodes := []; _outNodes := []; _pixels := [];
       retired := [];
       frames := []; timers := []; next_handle := 1;
       runs := []; draws := 0; completed := [] |}).

(** Run [r] has a callback pending with the browser. *)
Definition in_flight (r : nat) (s : state) : bool :=
  existsb (fun p => owner (snd p) =? r) (frames s ++ timers s).

(** Run [r] has a layer animation in progress: a [step] closure of [r]
    waits for the next frame. *)
Definition animating (r : nat) (s : state) : bool :=
  existsb (fun p => match snd p with
                    | Step r' _ _ => r' =? r
                    | NextLayer _ => false
                    end) (frames s).

(** *** Notions used to state the scheduler's properties *)

(** The scheduler is quiet enough for [animate] and [reset] to stop it: no
    timer is pending and every requested frame is the one in [_raf]. *)
Definition stoppable (s : state) : Prop :=
  timers s = [] /\ forall p, In p (frames s) -> _raf s = Some (fst p).

(** The browser's own events: frames and timers, no call from the page
    and no change of its size. *)
Definition browser_event (e : event) : Prop :=
  match e with
  | Frame _ | Timeout _ _ => True
  | Animate _ _ _ | Reset | Layout _ _ => False
  end.

(** The layers of a run, as [animate] builds them from its argument. *)
Definition plan (d : anim_data) : list (layer_ref * list (option Q)) :=
  [(LH1, or_empty (h1Acts d)); (LH2, or_empty (h2Acts d));
   (LOut, or_empty (outActs d))].

(** Every node has the target [Math.min(targets[i] ?? 0, 1)]. *)
Definition clamped (tg : list (option Q)) (ns : list node) : Prop :=
  forall i n, ns !! i = Some n -> target n = Qmin (entry tg i) 1.

(** The first [k] layers of the plan have their targets assigned. *)
Definition assigned (d : anim_data) (k : nat) (s : state) : Prop :=
  forall j l tg, (j < k)%nat -> plan d !! j = Some (l, tg) ->
                 clamped tg (get_nodes l s).

(** Where run [r], alone with the browser, stands.  The arrays it holds
    are the ones in use. *)
Inductive progress (r : nat) (d : anim_data) (s : state) : Prop :=
| pr_animating (l : layer_ref) (tg : list (option Q)) (h : nat) (start : Q)
    (env : run_env) :
    runs s !! r = Some env -> layers env = plan d ->
    arrays env = layout_no s ->
    plan d !! li env = Some (l, tg) ->
    frames s = [(h, Step r l start)] -> _raf s = Some h -> timers s = [] ->
    assigned d (S (li env)) s -> progress r d s
| pr_pause (h : nat) (env : run_env) :
    runs s !! r = Some env -> layers env = plan d ->
    arrays env = layout_no s ->
    frames s = [] -> timers s = [(h, NextLayer r)] ->
    assigned d (li env) s -> progress r d s
| pr_complete (env : run_env) :
    runs s !! r = Some env -> layers env = plan d ->
    arrays env = layout_no s -> (3 <= li env)%nat ->
    frames s = [] -> timers s = [] ->
    assigned d (li env) s -> progress r d s.

(** *** Sample runs *)

(** Two calls of [animate]: the first lights the first node of every layer
    and the first preview cell, the second gives one hidden vector only. *)
Definition wave_one : anim_data :=
  {| inputPixels := Some [Some 1%Q]; h1Acts := Some [Some 1%Q];
     h2Acts := Some [Some 1%Q]; outActs := Some [Some 1%Q] |}.

Definition wave_two : anim_data :=
  {| inputPixels := None; h1Acts := Some [None; Some (1 # 2)%Q];
     h2Acts := None; outActs := None |}.

(** [wave_two] with an explicit, empty preview array. *)
Definition wave_two_cleared : anim_data :=
  {| inputPixels := Some []; h1Acts := Some [None; Some (1 # 2)%Q];
     h2Acts := None; outActs := None |}.

(** The first wave plays its first layer to the end (the frame at 280 ms
    has [t = 1]) and enters the 70 ms pause; its timer has handle 2. *)
Definition first_layer_done : list event :=
  [Animate 0 wave_one true; Frame 280].

(** A second [animate] 20 ms into that pause, one frame of it, and then the
    timer of the first run. *)
Definition second_call_in_pause : list event :=
  first_layer_done ++ [Animate 300 wave_two true; Frame 316; Timeout 2 350].

(** Both runs played on to the end of the first one. *)
Definition play_on : list event :=
  [Frame 630; Timeout 6 700; Timeout 7 700; Frame 980;
   Timeout 10 1050; Timeout 11 1050].

(** [reset] 20 ms into the pause of the first wave, then the timer of the
    wave and one frame. *)
Definition reset_in_pause : list event := first_layer_done ++ [Reset].
Definition after_reset : list event := [Timeout 2 350; Frame 400].

(** One frame per layer at the end of its 280 ms, and the 70 ms timers. *)
Definition full_schedule : list event :=
  [Frame 280; Timeout 2 350; Frame 630; Timeout 4 700; Frame 980;
   Timeout 6 1050].

(** *** Bounds *)

(** No target is above 1, in the arrays in use and in those that closures
    hold. *)
Definition nodes_capped (ns : list node) : Prop :=
  forall i n, ns !! i = Some n -> (target n <= 1)%Q.

Definition capped (s : state) : Prop :=
  forall g l, nodes_capped (nodes_of g l s).

(** *** The course of one run *)

(** Every node of the first [k] layers of the plan sits on its target. *)
Definition landed (d : anim_data) (k : nat) (s : state) : Prop :=
  forall j l tg, (j < k)%nat -> plan d !! j = Some (l, tg) ->
  forall i n, get_nodes l s !! i = Some n -> (act n == target n)%Q.

(** Where run [r] stands, alone with the browser, after [animate(d, cb)]
    was called when [onDone] had been called for the runs [reported]: what
    it has assigned, which layers it has finished and what it has
    reported. *)
Inductive course (r : nat) (d : anim_data) (cb : bool) (reported : list nat)
    (s : state) : Prop :=
| co_animating (l : layer_ref) (tg : list (option Q)) (h : nat) (start : Q)
    (env : run_env) :
    runs s !! r = Some env -> layers env = plan d ->
    arrays env = layout_no s -> onDone env = cb ->
    plan d !! li env = Some (l, tg) ->
    frames s = [(h, Step r l start)] -> timers s = [] ->
    assigned d (S (li env)) s -> landed d (li env) s ->
    completed s = reported -> course r d cb reported s
| co_pause (h : nat) (env : run_env) :
    runs s !! r = Some env -> layers env = plan d ->
    arrays env = layout_no s -> onDone env = cb ->
    frames s = [] -> timers s = [(h, NextLayer r)] ->
    assigned d (li env) s -> landed d (li env) s ->
    completed s = reported -> course r d cb reported s
| co_over (env : run_env) :
    runs s !! r = Some env -> layers env = plan d ->
    arrays env = layout_no s -> onDone env = cb ->
    (3 <= li env)%nat -> frames s = [] -> timers s = [] ->
    assigned d (li env) s -> landed d (li env) s ->
    completed s = (if cb then r :: reported else reported) ->
    course r d cb reported s.

(** The first wave half way through its first layer. *)
Definition first_layer_running : list event :=
  [Animate 0 wave_one true; Frame 140].

(** [stoppable], decided. *)
Definition stoppableb (s : state) : bool :=
  match timers s with
  | [] => forallb (fun p => match _raf s with
                            | Some h => fst p =? h
                            | None => false
                            end) (frames s)
  | _ :: _ => false
  end.

End NetworkRenderer.

(* ================================================================== *)
(** * Properties *)
(* ================================================================== *)

(** ** Auxiliary facts on numbers and loops *)

Lemma qn_le (a b : nat) : (a <= b)%nat -> (qn a <= qn b)%Q.
Proof. intros H. unfold qn, Qle; simpl. lia. Qed.

Lemma qn_lt (a b : nat) : (a < b)%nat -> (qn a < qn b)%Q.
Proof. intros H. unfold qn, Qlt; simpl. lia. Qed.

Lemma qn_S (a : nat) : (qn (S a) == qn a + 1)%Q.
Proof. unfold qn. rewrite Nat2Z.inj_succ, <- Z.add_1_r, inject_Z_plus. reflexivity. Qed.

Lemma qzero_true (q : Q) : qzero q = true <-> (q == 0)%Q.
Proof. unfold qzero. apply Qeq_bool_iff. Qed.

Lemma qzero_false (q : Q) : qzero q = false <-> ~ (q == 0)%Q.
Proof.
  rewrite <- qzero_true. destruct (qzero q); split; intros; congruence.
Qed.

(** A loop written as [fold_left] keeps every invariant its body keeps. *)
Lemma fold_left_invariant {A B : Type} (f : A -> B -> A) (P : A -> Prop)
    (l : list B) (a : A) :
  P a -> (forall a' b, In b l -> P a' -> P (f a' b)) -> P (fold_left f l a).
Proof.
  revert a. induction l as [|b l IH]; intros a Ha Hstep; simpl; [exact Ha|].
  apply IH.
  - apply Hstep; [left; reflexivity | exact Ha].
  - intros a' b' Hin. apply Hstep. right; exact Hin.
Qed.

Lemma fold_left_pointwise {A B : Type} (f g : A -> B -> A) (l : list B) (a : A) :
  (forall a' b, f a' b = g a' b) -> fold_left f l a = fold_left g l a.
Proof.
  intros E. revert a. induction l as [|b l IH]; intros a; simpl; [reflexivity|].
  now rewrite E, IH.
Qed.

Lemma fold_left_flat_map {A B C : Type} (f : A -> C -> A) (g : B -> list C)
    (l : list B) (a : A) :
  fold_left f (flat_map g l) a = fold_left (fun a y => fold_left f (g y) a) l a.
Proof.
  revert a. induction l as [|y l IH]; intros a; simpl; [reflexivity|].
  now rewrite fold_left_app, IH.
Qed.

Lemma fold_left_through_map {A B C : Type} (f : A -> C -> A) (h : B -> C)
    (l : list B) (a : A) :
  fold_left f (map h l) a = fold_left (fun a x => f a (h x)) l a.
Proof. revert a. induction l as [|x l IH]; intros a; simpl; auto. Qed.


Lemma existsb_pointwise {A : Type} (f g : A -> bool) (l : list A) :
  (forall a, f a = g a) -> existsb f l = existsb g l.
Proof.
  intros Hfg. induction l as [|a l IH]; simpl; [reflexivity|].
  now rewrite Hfg, IH.
Qed.

Lemma existsb_seq_shift (P : nat -> bool) (a n : nat) :
  existsb P (seq a n) = existsb (fun k => P (a + k)%nat) (seq 0 n).
Proof.
  revert P a. induction n as [|n IH]; intros P a; [reflexivity|].
  simpl. rewrite Nat.add_0_r. f_equal.
  rewrite (IH P (S a)), (IH (fun k => P (a + k)%nat) 1%nat).
  apply existsb_pointwise. intros k. f_equal. lia.
Qed.

(** A row-major double loop visits the indices below [H * W]. *)
Lemma existsb_grid (P : nat -> bool) (W H : nat) :
  existsb P (seq 0 (H * W)) =
  existsb (fun y => existsb (fun x => P (y * W + x)%nat) (seq 0 W)) (seq 0 H).
Proof.
  induction H as [|H IH]; [reflexivity|].
  replace (S H * W)%nat with (H * W + W)%nat by lia.
  rewrite List.seq_app, existsb_app, IH, List.seq_S, existsb_app. simpl.
  rewrite orb_false_r. f_equal. apply existsb_seq_shift.
Qed.

(* ------------------------------------------------------------------ *)
(** ** The image normaliser *)
(* ------------------------------------------------------------------ *)

Section PreprocessorFacts.
Import Preprocessor.

Lemma scan_pixels_found pix W y l b :
  found (fold_left (scan_pixel pix W y) l b) =
  found b || existsb (fun x => ink pix ((y * W + x) * 4)) l.
Proof.
  revert b. induction l as [|x l IH]; intros b; simpl.
  - now rewrite orb_false_r.
  - rewrite IH. unfold scan_pixel.
    destruct (ink pix ((y * W + x) * 4)); simpl.
    + now rewrite orb_true_r.
    + reflexivity.
Qed.

Lemma scan_rows_found pix W l b :
  found (fold_left (scan_row pix W) l b) =
  found b ||
  existsb (fun y => existsb (fun x => ink pix ((y * W + x) * 4)) (seq 0 W)) l.
Proof.
  revert b. induction l as [|y l IH]; intros b; simpl.
  - now rewrite orb_false_r.
  - rewrite IH. unfold scan_row. rewrite scan_pixels_found.
    now rewrite orb_assoc.
Qed.

(** [found] is set exactly when some scanned pixel is ink. *)
Lemma found_spec (c : canvas) :
  found (bounding_box c) =
  existsb (fun y => existsb (fun x => ink_at c x y) (seq 0 (width c)))
          (seq 0 (height c)).
Proof. unfold bounding_box. rewrite scan_rows_found. reflexivity. Qed.

Lemma isEmpty_spec (c : canvas) :
  wf_canvas c ->
  isEmpty c = negb (existsb (fun k => ink (data c) (k * 4))
                            (seq 0 (height c * width c))).
Proof.
  intros Hwf. unfold isEmpty. rewrite Hwf.
  replace ((4 * (width c * height c) + 3) / 4)%nat with (height c * width c)%nat.
  2:{ apply Nat.div_unique with (r := 3%nat); lia. }
  generalize (seq 0 (height c * width c)). intros l.
  induction l as [|k l IH]; [reflexivity|].
  simpl. rewrite IH. now rewrite negb_orb.
Qed.

Lemma scan_pixel_ok pix W H x y b :
  (x < W)%nat -> (y < H)%nat -> box_ok W H b -> box_ok W H (scan_pixel pix W y b x).
Proof.
  intros Hx Hy [Hb1 Hb0]. unfold scan_pixel.
  destruct (ink pix ((y * W + x) * 4)); [|split; assumption].
  split; simpl; [intros _|discriminate].
  destruct (found b) eqn:Hf.
  - destruct (Hb1 eq_refl) as (? & ? & ? & ?). lia.
  - destruct (Hb0 eq_refl) as (? & ?). lia.
Qed.

Lemma bounding_box_ok (c : canvas) :
  box_ok (width c) (height c) (bounding_box c).
Proof.
  unfold bounding_box. apply fold_left_invariant.
  - split; simpl; [discriminate|auto].
  - intros b y Hy Hb. unfold scan_row. apply fold_left_invariant; [exact Hb|].
    intros b' x Hx Hb'. apply in_seq in Hy, Hx.
    apply scan_pixel_ok; [lia|lia|exact Hb'].
Qed.

Lemma found_false_iff (c : canvas) :
  found (bounding_box c) = false <->
  (forall x y, (x < width c)%nat -> (y < height c)%nat -> ink_at c x y = false).
Proof.
  rewrite found_spec. split.
  - intros Hex x y Hx Hy.
    destruct (ink_at c x y) eqn:E; [|reflexivity].
    assert (Ht : existsb
              (fun y => existsb (fun x => ink_at c x y) (seq 0 (width c)))
              (seq 0 (height c)) = true).
    { apply existsb_exists. exists y. split; [apply in_seq; lia|].
      apply existsb_exists. exists x. split; [apply in_seq; lia|exact E]. }
    congruence.
  - intros Hall.
    destruct (existsb _ (seq 0 (height c))) eqn:E; [|reflexivity].
    apply existsb_exists in E. destruct E as (y & Hy & E).
    apply existsb_exists in E. destruct E as (x & Hx & E).
    apply in_seq in Hy, Hx. rewrite Hall in E by lia. discriminate.
Qed.

Lemma ink_false_of_le (pix : list Z) (i : nat) :
  (forall v, pix !! i = Some v -> (v <= 20)%Z) -> ink pix i = false.
Proof.
  intros Hle. unfold ink. destruct (pix !! i) as [v|]; [|reflexivity].
  apply Z.ltb_ge. now apply Hle.
Qed.

(** The crop of [geometry], with its intermediate values named. *)
Lemma geometry_crop (W H : nat) (b : bbox) :
  let bw := (qn (x1 b) - qn (x0 b))%Q in
  let bh := (qn (y1 b) - qn (y0 b))%Q in
  let pad := (Qmax bw bh * (22 # 100))%Q in
  sx (geometry W H b) = Qmax 0 (qn (x0 b) - pad)%Q /\
  sy (geometry W H b) = Qmax 0 (qn (y0 b) - pad)%Q /\
  sw (geometry W H b) = Qmin (qn W - Qmax 0 (qn (x0 b) - pad))%Q (bw + pad * 2)%Q /\
  sh (geometry W H b) = Qmin (qn H - Qmax 0 (qn (y0 b) - pad))%Q (bh + pad * 2)%Q.
Proof. repeat split. Qed.

(** The placement of [geometry] from its crop. *)
Lemma geometry_placement (W H : nat) (b : bbox) :
  let g := geometry W H b in
  sc g = nmin (ndiv (Fin 20) (Fin (sw g))) (ndiv (Fin 20) (Fin (sh g))) /\
  dw g = nmul (Fin (sw g)) (sc g) /\
  dh g = nmul (Fin (sh g)) (sc g) /\
  dx g = ndiv (nsub (Fin 28) (dw g)) (Fin 2) /\
  dy g = ndiv (nsub (Fin 28) (dh g)) (Fin 2).
Proof. repeat split. Qed.

Lemma ndiv_pos (a q : Q) : (0 < q)%Q -> ndiv (Fin a) (Fin q) = Fin (a / q).
Proof.
  intros Hq. unfold ndiv.
  replace (qzero q) with false; [reflexivity|].
  symmetry. apply qzero_false. lra.
Qed.

Section WithResampler.

Variable resample :
  canvas -> Q -> Q -> Q -> Q -> Q -> Q -> Q -> Q -> nat -> nat -> Z.

Lemma prepare_blank (c : canvas) :
  found (bounding_box c) = false -> prepare resample c = _blank28.
Proof. intros Hf. unfold prepare. rewrite Hf. reflexivity. Qed.

(** C5.  A canvas has pixels: [getImageData] throws for a width or a
    height of 0.  On every such canvas [isEmpty] is true exactly when the
    scan of [prepare] finds no ink pixel, and exactly when no pixel has a
    red byte above 20: a red byte of 21 or more anywhere makes [isEmpty]
    false and the scan find ink, a canvas whose red bytes are all 20 or
    less makes [isEmpty] true and [prepare] return the all-black 28×28
    image. *)
Theorem prepare_isEmpty_agree (c : canvas) :
  wf_canvas c -> (0 < width c)%nat -> (0 < height c)%nat ->
  isEmpty c = negb (found (bounding_box c)) /\
  (isEmpty c = true <->
   forall x y v, (x < width c)%nat -> (y < height c)%nat ->
                 data c !! ((y * width c + x) * 4)%nat = Some v ->
                 (v <= 20)%Z) /\
  (isEmpty c = true -> prepare resample c = _blank28) /\
  (forall x y v, (x < width c)%nat -> (y < height c)%nat ->
                 data c !! ((y * width c + x) * 4)%nat = Some v ->
                 (20 < v)%Z ->
                 isEmpty c = false /\ found (bounding_box c) = true).
Proof.
  intros Hwf _ _.
  assert (E : isEmpty c = negb (found (bounding_box c))).
  { rewrite isEmpty_spec by exact Hwf.
    rewrite (existsb_grid (fun k => ink (data c) (k * 4))).
    rewrite found_spec. reflexivity. }
  assert (Hdark : (forall x y v, (x < width c)%nat -> (y < height c)%nat ->
                     data c !! ((y * width c + x) * 4)%nat = Some v ->
                     (v <= 20)%Z) ->
                  found (bounding_box c) = false).
  { intros Hd. apply found_false_iff. intros x y Hx Hy. unfold ink_at.
    apply ink_false_of_le. intros v Hv. exact (Hd x y v Hx Hy Hv). }
  assert (Hink : forall x y v, (x < width c)%nat -> (y < height c)%nat ->
                   data c !! ((y * width c + x) * 4)%nat = Some v ->
                   (20 < v)%Z -> found (bounding_box c) = true).
  { intros x y v Hx Hy Hv H20.
    destruct (found (bounding_box c)) eqn:Hf; [reflexivity|].
    pose proof (proj1 (found_false_iff c) Hf x y Hx Hy) as Hno.
    unfold ink_at, ink in Hno. rewrite Hv in Hno.
    apply Z.ltb_ge in Hno. lia. }
  split; [exact E|]. split; [|split].
  - split.
    + intros He x y v Hx Hy Hv.
      destruct (Z_le_gt_dec v 20) as [Hle|Hgt]; [exact Hle|].
      rewrite E, (Hink x y v Hx Hy Hv) in He by lia. discriminate.
    + intros Hd. rewrite E, (Hdark Hd). reflexivity.
  - intros He. apply prepare_blank. rewrite E in He.
    destruct (found (bounding_box c)); [discriminate|reflexivity].
  - intros x y v Hx Hy Hv H20.
    pose proof (Hink x y v Hx Hy Hv H20) as Hf.
    split; [rewrite E, Hf; reflexivity|exact Hf].
Qed.

(** C2.  The claim asks for a crop of positive area for every drawing,
    a single dot included.  For a box of one pixel it fails: the crop of
    [prepare] has width and height 0 (no minimum is applied), the scale is
    [20 / 0 = Infinity], the scaled sizes and offsets are [NaN], and
    [drawImage] paints nothing, so the result is the blank image. *)
Theorem dot_geometry (c : canvas) :
  let b := bounding_box c in
  let g := geometry (width c) (height c) b in
  found b = true -> x0 b = x1 b -> y0 b = y1 b ->
  (sw g == 0)%Q /\ (sh g == 0)%Q /\
  sc g = PInf /\ dw g = NaN /\ dh g = NaN /\ dx g = NaN /\ dy g = NaN /\
  prepare resample c = _blank28.
Proof.
  intros b g Hf Hx Hy.
  destruct (bounding_box_ok c) as [Hok _]. fold b in Hok.
  destruct (Hok Hf) as (Hx01 & HxW & Hy01 & HyH).
  destruct (geometry_crop (width c) (height c) b) as (_ & _ & Esw & Esh).
  fold g in Esw, Esh.
  assert (Hbw : (qn (x1 b) - qn (x0 b) == 0)%Q) by (rewrite Hx; lra).
  assert (Hbh : (qn (y1 b) - qn (y0 b) == 0)%Q) by (rewrite Hy; lra).
  pose proof (qn_lt _ _ HxW) as HxW'. pose proof (qn_lt _ _ HyH) as HyH'.
  pose proof (qn_le 0 (x0 b) (Nat.le_0_l _)) as Hx0.
  pose proof (qn_le 0 (y0 b) (Nat.le_0_l _)) as Hy0.
  change (qn 0) with 0%Q in Hx0, Hy0.
  rewrite Hx in Hx0. rewrite Hy in Hy0.
  assert (Zw : (sw g == 0)%Q).
  { rewrite Esw.
    set (pad := (Qmax (qn (x1 b) - qn (x0 b)) (qn (y1 b) - qn (y0 b)) * (22 # 100))%Q).
    assert (Hpad : (pad == 0)%Q).
    { unfold pad.
      destruct (Q.max_spec (qn (x1 b) - qn (x0 b)) (qn (y1 b) - qn (y0 b)))
        as [[_ E]|[_ E]]; rewrite E; lra. }
    rewrite Hx in *.
    destruct (Q.max_spec 0 (qn (x1 b) - pad)) as [[_ E]|[_ E]];
    destruct (Q.min_spec (qn (width c) - Qmax 0 (qn (x1 b) - pad))
                         (qn (x1 b) - qn (x1 b) + pad * 2)) as [[L F]|[L F]];
    rewrite F; rewrite ?E in *; lra. }
  assert (Zh : (sh g == 0)%Q).
  { rewrite Esh.
    set (pad := (Qmax (qn (x1 b) - qn (x0 b)) (qn (y1 b) - qn (y0 b)) * (22 # 100))%Q).
    assert (Hpad : (pad == 0)%Q).
    { unfold pad.
      destruct (Q.max_spec (qn (x1 b) - qn (x0 b)) (qn (y1 b) - qn (y0 b)))
        as [[_ E]|[_ E]]; rewrite E; lra. }
    rewrite Hy in *.
    destruct (Q.max_spec 0 (qn (y1 b) - pad)) as [[_ E]|[_ E]];
    destruct (Q.min_spec (qn (height c) - Qmax 0 (qn (y1 b) - pad))
                         (qn (y1 b) - qn (y1 b) + pad * 2)) as [[L F]|[L F]];
    rewrite F; rewrite ?E in *; lra. }
  destruct (geometry_placement (width c) (height c) b)
    as (Hsc & Hdw & Hdh & Hdx & Hdy).
  fold g in Hsc, Hdw, Hdh, Hdx, Hdy.
  apply qzero_true in Zw, Zh.
  assert (Esc : sc g = PInf).
  { rewrite Hsc. unfold ndiv. rewrite Zw, Zh. reflexivity. }
  assert (Edw : dw g = NaN).
  { rewrite Hdw, Esc. unfold nmul, signed_inf. rewrite Zw. reflexivity. }
  assert (Edh : dh g = NaN).
  { rewrite Hdh, Esc. unfold nmul, signed_inf. rewrite Zh. reflexivity. }
  assert (Edx : dx g = NaN) by (rewrite Hdx, Edw; reflexivity).
  assert (Edy : dy g = NaN) by (rewrite Hdy, Edh; reflexivity).
  apply qzero_true in Zw, Zh.
  repeat split; try assumption.
  unfold prepare. fold b. rewrite Hf. cbn [negb]. fold g.
  rewrite Edx. reflexivity.
Qed.

(** A box of more than one pixel, in particular ink along one row or one
    column, is cropped with positive width and height. *)
Lemma crop_positive (c : canvas) :
  let b := bounding_box c in
  let g := geometry (width c) (height c) b in
  found b = true -> ((x0 b < x1 b)%nat \/ (y0 b < y1 b)%nat) ->
  (0 < sw g)%Q /\ (0 < sh g)%Q.
Proof.
  intros b g Hf Hnd.
  destruct (bounding_box_ok c) as [Hok _]. fold b in Hok.
  destruct (Hok Hf) as (Hx01 & HxW & Hy01 & HyH).
  destruct (geometry_crop (width c) (height c) b) as (_ & _ & Esw & Esh).
  fold g in Esw, Esh. rewrite Esw, Esh. clear Esw Esh.
  pose proof (qn_lt _ _ HxW) as HxW'. pose proof (qn_lt _ _ HyH) as HyH'.
  pose proof (qn_le _ _ Hx01) as Hx01'. pose proof (qn_le _ _ Hy01) as Hy01'.
  pose proof (qn_le 0 (x0 b) (Nat.le_0_l _)) as Hx0.
  pose proof (qn_le 0 (y0 b) (Nat.le_0_l _)) as Hy0.
  change (qn 0) with 0%Q in Hx0, Hy0.
  set (bw := (qn (x1 b) - qn (x0 b))%Q).
  set (bh := (qn (y1 b) - qn (y0 b))%Q).
  assert (Hm : (0 < Qmax bw bh)%Q).
  { destruct Hnd as [Hlt|Hlt]; apply qn_lt in Hlt.
    - apply Qlt_le_trans with bw; [unfold bw; lra|apply Q.le_max_l].
    - apply Qlt_le_trans with bh; [unfold bh; lra|apply Q.le_max_r]. }
  set (pad := (Qmax bw bh * (22 # 100))%Q).
  assert (Hpad : (0 < pad)%Q) by (unfold pad; lra).
  assert (Hbw : (0 <= bw)%Q) by (unfold bw; lra).
  assert (Hbh : (0 <= bh)%Q) by (unfold bh; lra).
  split; apply Q.min_glb_lt; try lra.
  - destruct (Q.max_spec 0 (qn (x0 b) - pad)) as [[_ E]|[_ E]]; rewrite E; lra.
  - destruct (Q.max_spec 0 (qn (y0 b) - pad)) as [[_ E]|[_ E]]; rewrite E; lra.
Qed.

End WithResampler.

End PreprocessorFacts.

Lemma prepare_isEmpty_agree_witness :
  Preprocessor.isEmpty Preprocessor.grey21_canvas = false /\
  Preprocessor.found
    (Preprocessor.bounding_box Preprocessor.grey21_canvas) = true /\
  Preprocessor.isEmpty Preprocessor.grey20_canvas = true /\
  Preprocessor.prepare Preprocessor.flood Preprocessor.grey20_canvas
    = Preprocessor._blank28.
Proof.
  destruct (prepare_isEmpty_agree Preprocessor.flood Preprocessor.grey21_canvas)
    as (_ & _ & _ & H21); [reflexivity|simpl; lia|simpl; lia|].
  destruct (prepare_isEmpty_agree Preprocessor.flood Preprocessor.grey20_canvas)
    as (_ & H20 & Hb & _); [reflexivity|simpl; lia|simpl; lia|].
  destruct (H21 0%nat 0%nat 21%Z) as [He Hf];
    [simpl; lia|simpl; lia|reflexivity|lia|].
  assert (E20 : Preprocessor.isEmpty Preprocessor.grey20_canvas = true).
  { apply H20. intros x y v Hx Hy. simpl in Hx, Hy.
    assert (x = 0%nat) as -> by lia. assert (y = 0%nat) as -> by lia.
    simpl. intros Hv. injection Hv as <-. lia. }
  split; [exact He|]. split; [exact Hf|]. split; [exact E20|exact (Hb E20)].
Defined.

Lemma dot_geometry_witness :
  Preprocessor.sc (Preprocessor.geometry 3 3
     (Preprocessor.bounding_box Preprocessor.dot_canvas)) = PInf /\
  Preprocessor.prepare Preprocessor.flood Preprocessor.dot_canvas
    = Preprocessor._blank28 /\
  Preprocessor.isEmpty Preprocessor.dot_canvas = false.
Proof.
  destruct (dot_geometry Preprocessor.flood Preprocessor.dot_canvas)
    as (_ & _ & Hsc & _ & _ & _ & _ & Hp); [reflexivity..|].
  split; [exact Hsc|]. split; [exact Hp|reflexivity].
Defined.

Lemma crop_positive_witness :
  (0 < Preprocessor.sw (Preprocessor.geometry 4 3
         (Preprocessor.bounding_box Preprocessor.bar_canvas)))%Q /\
  (0 < Preprocessor.sh (Preprocessor.geometry 4 3
         (Preprocessor.bounding_box Preprocessor.bar_canvas)))%Q.
Proof.
  apply (crop_positive Preprocessor.bar_canvas); [reflexivity|].
  left. vm_compute. lia.
Defined.


(* ------------------------------------------------------------------ *)
(** ** The activation summariser *)
(* ------------------------------------------------------------------ *)

Section SummarizerFacts.
Import MnistModel App.

Lemma pad16_length (arr : list num) : length (pad16 arr) = 16%nat.
Proof. unfold pad16. now rewrite length_map, length_seq. Qed.

Lemma pad16_lookup (arr : list num) (i : nat) :
  (i < 16)%nat ->
  pad16 arr !! i = Some (match arr !! i with Some v => v | None => Fin 0 end).
Proof.
  intros Hi. unfold pad16.
  change (map ?f ?l) with (f <$> l).
  rewrite list_lookup_fmap, lookup_seq_lt by exact Hi. reflexivity.
Qed.

Lemma compact_lookup (t : tensor) (i : nat) :
  _compactActivation t !! i =
  (fun v => ndiv v (summary_max (summary t))) <$> (summary t !! i).
Proof.
  unfold _compactActivation. change (map ?f ?l) with (f <$> l).
  apply list_lookup_fmap.
Qed.

Lemma summary_4d (t : tensor) (B H W F : nat) :
  shape t = [B; H; W; F] ->
  summary t = map (channel_mean (tdata t) H W F) (seq 0 (Nat.min F 16)).
Proof. intros E. unfold summary. rewrite E. reflexivity. Qed.

Lemma summary_flat (t : tensor) :
  length (shape t) <> 4%nat -> summary t = take 16 (tdata t).
Proof.
  intros E. unfold summary.
  destruct (shape t) as [|B [|H [|W [|F [|? ?]]]]]; try reflexivity.
  now elim E.
Qed.

(** The two loops of [_compactActivation] add up, from 0, the values of
    the channel in the order of the rows. *)
Lemma channel_sum_total (data : list num) (H W F f : nat) :
  channel_sum data H W F f = total (channel_values data H W F f).
Proof.
  unfold channel_sum, total, channel_values.
  rewrite fold_left_flat_map.
  apply fold_left_pointwise. intros acc h.
  rewrite fold_left_through_map.
  apply fold_left_pointwise. intros acc' w.
  do 2 f_equal. lia.
Qed.

Lemma channel_mean_spatial (data : list num) (H W F f : nat) :
  channel_mean data H W F f = spatial_mean data H W F f.
Proof. unfold channel_mean, spatial_mean. now rewrite channel_sum_total. Qed.

(** C3.  [summarize] returns exactly 16 entries.  For a 4-dimensional
    tensor of shape [B, H, W, F] the vector that is rescaled has
    [min(F, 16)] entries, entry [f] being the spatial mean of feature
    channel [f]: the sum of the [H * W] values of the channel divided by
    [H * W]; the entries of [summarize] from [F] on are 0.  For any other
    tensor the vector holds the first 16 values of the data, and the
    entries of [summarize] past the end of the data are 0. *)
Theorem summarize_sixteen (t : tensor) :
  length (summarize t) = 16%nat /\
  (forall B H W F, shape t = [B; H; W; F] ->
     length (summary t) = Nat.min F 16 /\
     (forall f, (f < Nat.min F 16)%nat ->
        summary t !! f = Some (spatial_mean (tdata t) H W F f)) /\
     forall i, (i < 16)%nat ->
       summarize t !! i =
       Some (if (i <? F)%nat
             then ndiv (spatial_mean (tdata t) H W F i)
                       (summary_max (summary t))
             else Fin 0)) /\
  (length (shape t) <> 4%nat ->
     summary t = take 16 (tdata t) /\
     forall i, (i < 16)%nat ->
       summarize t !! i =
       Some (match tdata t !! i with
             | Some v => ndiv v (summary_max (summary t))
             | None => Fin 0
             end)).
Proof.
  split; [apply pad16_length|]. split.
  - intros B H W F E. split; [|split].
    + rewrite (summary_4d t B H W F E), length_map, length_seq. reflexivity.
    + intros f Hf. rewrite (summary_4d t B H W F E).
      change (map ?g ?l) with (g <$> l).
      rewrite list_lookup_fmap, lookup_seq_lt by exact Hf.
      cbn [fmap option_fmap option_map]. rewrite Nat.add_0_l.
      now rewrite channel_mean_spatial.
    + intros i Hi. unfold summarize. rewrite pad16_lookup by exact Hi.
      rewrite compact_lookup, (summary_4d t B H W F E).
      change (map ?g ?l) with (g <$> l). rewrite list_lookup_fmap.
      destruct (Nat.ltb_spec i F) as [Hlt|Hge].
      * rewrite lookup_seq_lt by lia.
        cbn [fmap option_fmap option_map]. rewrite Nat.add_0_l.
        now rewrite channel_mean_spatial.
      * rewrite lookup_seq_ge by lia. reflexivity.
  - intros E. split; [now apply summary_flat|].
    intros i Hi. unfold summarize. rewrite pad16_lookup by exact Hi.
    rewrite compact_lookup, (summary_flat t E).
    rewrite lookup_take_lt by exact Hi.
    destruct (tdata t !! i); reflexivity.
Qed.

(** *** Rescaling *)

Lemma summary_max_fin (qs : list Q) :
  summary_max (map Fin qs) = Fin (qfloor_max qs).
Proof.
  unfold summary_max, qfloor_max.
  induction qs as [|q qs IH]; simpl; [reflexivity|].
  rewrite IH. reflexivity.
Qed.

Lemma qfloor_max_floor (qs : list Q) : (1 # 10000 <= qfloor_max qs)%Q.
Proof.
  unfold qfloor_max. induction qs as [|q qs IH]; simpl; [lra|].
  eapply Qle_trans; [exact IH|apply Q.le_max_r].
Qed.

Lemma qfloor_max_ge (qs : list Q) (i : nat) (q : Q) :
  qs !! i = Some q -> (q <= qfloor_max qs)%Q.
Proof.
  unfold qfloor_max. revert i.
  induction qs as [|a qs IH]; intros i Hq; [discriminate|].
  destruct i as [|i]; simpl in *.
  - injection Hq as ->. apply Q.le_max_l.
  - eapply Qle_trans; [exact (IH i Hq)|apply Q.le_max_r].
Qed.


(** A vector of finite entries is the image of a vector of rationals. *)
Lemma all_finite (s : list num) :
  (forall i v, s !! i = Some v -> exists q, v = Fin q) ->
  exists qs, s = map Fin qs.
Proof.
  induction s as [|v s IH]; intros Hall; [exists []; reflexivity|].
  destruct (Hall 0%nat v eq_refl) as [q ->].
  destruct IH as [qs ->].
  - intros i w Hw. apply (Hall (S i)). exact Hw.
  - exists (q :: qs). reflexivity.
Qed.







(** The indices the loops read lie inside data of [H * W * F] values. *)
Lemma channel_index_inside (H W F f h w : nat) :
  (h < H)%nat -> (w < W)%nat -> (f < F)%nat ->
  (h * W * F + w * F + f < H * W * F)%nat.
Proof.
  intros Hh Hw Hf.
  assert (A : (S h * W <= H * W)%nat) by (apply Nat.mul_le_mono_r; lia).
  assert (B : ((h * W + w + 1) * F <= H * W * F)%nat)
    by (apply Nat.mul_le_mono_r; simpl in A; lia).
  rewrite !Nat.mul_add_distr_r in B. lia.
Qed.


(** A well-formed feature map holds [H * W * F] values or more, and [H]
    and [W] are positive. *)
Lemma wf_feature_map (t : tensor) (B H W F : nat) :
  wf_tensor t -> shape t = [B; H; W; F] ->
  (H * W * F <= length (tdata t))%nat /\ (0 < qn H * qn W)%Q.
Proof.
  intros [Hlen Hpos] E. rewrite E in Hlen, Hpos.
  specialize (Hpos eq_refl). unfold size in Hlen, Hpos. simpl in Hlen, Hpos.
  rewrite !Nat.lt_0_mul' in Hpos. destruct Hpos as (HB & HH & HW & _).
  split.
  - rewrite Hlen, Nat.mul_1_r, <- !Nat.mul_assoc.
    destruct B as [|B]; [lia|]. simpl. lia.
  - apply qn_lt in HH, HW. change (qn 0) with 0%Q in HH, HW. nra.
Qed.







End SummarizerFacts.

Lemma summarize_sixteen_witness :
  length (App.summarize MnistModel.peak_tensor) = 16%nat /\
  (exists v, MnistModel.summary MnistModel.peak_tensor !! 1%nat = Some v /\
             num_eq v (Fin 4)) /\
  (exists v, MnistModel.summary MnistModel.peak_tensor !! 2%nat = Some v /\
             num_eq v (Fin (1 # 2))) /\
  (exists v, App.summarize MnistModel.peak_tensor !! 0%nat = Some v /\
             num_eq v (Fin (1 # 4))) /\
  App.summarize MnistModel.peak_tensor !! 5%nat = Some (Fin 0) /\
  (exists v, App.summarize MnistModel.faint_tensor !! 0%nat = Some v /\
             num_eq v (Fin (1 # 2))) /\
  App.summarize MnistModel.faint_tensor !! 7%nat = Some (Fin 0).
Proof.
  destruct (summarize_sixteen MnistModel.peak_tensor) as (Hlen & H4 & _).
  destruct (summarize_sixteen MnistModel.faint_tensor) as (_ & _ & Hflat).
  destruct (H4 1%nat 2%nat 2%nat 3%nat eq_refl) as (_ & Hmean & Hi).
  destruct Hflat as [_ Hj]; [simpl; lia|].
  split; [exact Hlen|].
  split; [eexists; split;
          [apply (Hmean 1%nat); simpl; lia|vm_compute; reflexivity]|].
  split; [eexists; split;
          [apply (Hmean 2%nat); simpl; lia|vm_compute; reflexivity]|].
  split; [eexists; split;
          [apply (Hi 0%nat); lia|vm_compute; reflexivity]|].
  split; [apply (Hi 5%nat); lia|].
  split; [eexists; split;
          [apply (Hj 0%nat); lia|vm_compute; reflexivity]|].
  apply (Hj 7%nat). lia.
Defined.



(* ------------------------------------------------------------------ *)
(** ** Training runs *)
(* ------------------------------------------------------------------ *)

Section TrainFacts.
Import MnistModel.

Lemma single_flight_initial : single_flight initial.
Proof. now apply sf_idle. Qed.

Lemma drop_run_same (r : nat) (ph : phase) : drop_run r [(r, ph)] = [].
Proof. unfold drop_run. simpl. now rewrite Nat.eqb_refl. Qed.

Lemma train_busy (s : mstate) : _training s = true -> train s = s.
Proof. intros H. unfold train. now rewrite H. Qed.

Lemma resume_other (s : mstate) (r r' : nat) (ph : phase) (ok : bool) :
  suspended s = [(r, ph)] -> r' <> r -> resume r' ok s = s.
Proof.
  intros Hs Hne. unfold resume. rewrite Hs. simpl.
  destruct (Nat.eqb_spec r r') as [->|_]; [now elim Hne|].
  replace (r =? r')%nat with false; [reflexivity|].
  symmetry. apply Nat.eqb_neq. congruence.
Qed.

Lemma resume_idle (s : mstate) (r : nat) (ok : bool) :
  suspended s = [] -> resume r ok s = s.
Proof. intros Hs. unfold resume. now rewrite Hs. Qed.

Lemma mstep_single_flight (s : mstate) (e : mevent) :
  single_flight s -> single_flight (mstep s e).
Proof.
  intros Hs. destruct e as [|r' ok]; simpl.
  - destruct Hs as [Hl Ht|r ph Hl Ht].
    + unfold train. rewrite Ht.
      apply (sf_busy _ (next_run s) AwaitData); simpl; [now rewrite Hl|reflexivity].
    + rewrite train_busy by exact Ht. now apply (sf_busy _ r ph).
  - destruct Hs as [Hl Ht|r ph Hl Ht].
    + rewrite resume_idle by exact Hl. now apply sf_idle.
    + destruct (Nat.eq_dec r' r) as [->|Hne].
      * unfold resume. rewrite Hl. simpl. rewrite Nat.eqb_refl.
        destruct ok; simpl.
        -- destruct ph.
           ++ apply (sf_busy _ r AwaitFit); simpl; [reflexivity|exact Ht].
           ++ apply sf_idle; reflexivity.
        -- apply sf_idle; simpl; [|reflexivity].
           now rewrite Hl, drop_run_same.
      * rewrite (resume_other s r r' ph ok Hl Hne). now apply (sf_busy _ r ph).
Qed.

Lemma mexec_single_flight (es : list mevent) (s : mstate) :
  single_flight s -> single_flight (mexec s es).
Proof.
  revert s. induction es as [|e es IH]; intros s Hs; simpl; [exact Hs|].
  apply IH, mstep_single_flight, Hs.
Qed.

(** The flag goes down only in the step that resumes the run in flight. *)
Lemma flag_cleared_by_owner (s : mstate) (e : mevent) :
  single_flight s -> _training s = true -> _training (mstep s e) = false ->
  exists r ph ok, suspended s = [(r, ph)] /\ e = Settle r ok /\
                  suspended (mstep s e) = [].
Proof.
  intros Hs Ht Hf. destruct Hs as [_ Hn|r ph Hl _]; [congruence|].
  destruct e as [|r' ok]; simpl in *.
  - rewrite train_busy in Hf by exact Ht. congruence.
  - destruct (Nat.eq_dec r' r) as [->|Hne].
    + exists r, ph, ok. split; [exact Hl|]. split; [reflexivity|].
      pose proof (mstep_single_flight s (Settle r ok) (sf_busy s r ph Hl Ht)) as Hs'.
      simpl in Hs'. destruct Hs' as [Hl' _|? ? _ Ht']; [exact Hl'|congruence].
    + rewrite (resume_other s r r' ph ok Hl Hne) in Hf. congruence.
Qed.

(** C10.  A call of [train] made while a run is in progress returns the
    state as it is: no data is loaded, no model is built, nothing is
    written.  In every state reached from the initial one at most one run is
    suspended, and the flag [_training] is up exactly when there is one.
    The flag goes down only when the run in flight is resumed and leaves
    (by completing or by its [catch] block). *)
Theorem train_is_single_flight :
  (forall s, _training s = true -> train s = s) /\
  (forall es, let s := mexec initial es in
     (length (suspended s) <= 1)%nat /\
     (_training s = true <-> suspended s <> [])) /\
  (forall es e, let s := mexec initial es in
     _training s = true -> _training (mstep s e) = false ->
     exists r ph ok, suspended s = [(r, ph)] /\ e = Settle r ok /\
                     suspended (mstep s e) = []).
Proof.
  split; [exact train_busy|]. split.
  - intros es s.
    destruct (mexec_single_flight es initial single_flight_initial)
      as [Hl Ht|r ph Hl Ht]; fold s in Hl, Ht; rewrite Hl, Ht; simpl.
    + split; [lia|]. split; [discriminate|congruence].
    + split; [lia|]. split; [discriminate|reflexivity].
  - intros es e s. apply flag_cleared_by_owner.
    apply mexec_single_flight, single_flight_initial.
Qed.

End TrainFacts.

Lemma train_is_single_flight_witness :
  MnistModel.mexec MnistModel.initial
    [MnistModel.CallTrain; MnistModel.CallTrain] =
  MnistModel.mexec MnistModel.initial [MnistModel.CallTrain] /\
  (exists r ph ok,
     MnistModel.suspended
       (MnistModel.mexec MnistModel.initial
          [MnistModel.CallTrain; MnistModel.CallTrain;
           MnistModel.Settle 0 true]) = [(r, ph)] /\
     MnistModel.Settle 0 true = MnistModel.Settle r ok /\
     MnistModel.suspended
       (MnistModel.mexec MnistModel.initial
          [MnistModel.CallTrain; MnistModel.CallTrain;
           MnistModel.Settle 0 true; MnistModel.Settle 0 true]) = []).
Proof.
  destruct train_is_single_flight as (Hbusy & _ & Hclear).
  split.
  - apply (Hbusy (MnistModel.mexec MnistModel.initial [MnistModel.CallTrain])).
    reflexivity.
  - apply (Hclear [MnistModel.CallTrain; MnistModel.CallTrain;
                   MnistModel.Settle 0%nat true]
                  (MnistModel.Settle 0%nat true)); reflexivity.
Defined.

(* ------------------------------------------------------------------ *)
(** ** Layout *)
(* ------------------------------------------------------------------ *)

Section LayoutFacts.
Import NetworkRenderer.

Lemma qn_nonneg (n : nat) : (0 <= qn n)%Q.
Proof. change 0%Q with (qn 0). apply qn_le. lia. Qed.

Lemma makeNodes_length (count : nat) (lx H : Q) :
  length (_makeNodes count lx H) = count.
Proof. unfold _makeNodes. now rewrite length_map, length_seq. Qed.

Lemma makeNodes_lookup (count : nat) (lx H : Q) (i : nat) :
  (i < count)%nat ->
  _makeNodes count lx H !! i =
  Some {| x := lx; y := (H / (qn count + 1) * (qn i + 1))%Q;
          act := 0; target := 0; idx := i |}.
Proof.
  intros Hi. unfold _makeNodes. change (map ?f ?l) with (f <$> l).
  rewrite list_lookup_fmap, lookup_seq_lt by exact Hi. reflexivity.
Qed.

(** The last node is as far from the bottom as the first is from the top. *)
Lemma makeNodes_margins (count : nat) (H : Q) :
  let gap := (H / (qn (S count) + 1))%Q in
  (gap * (qn 0 + 1) == gap)%Q /\
  (H - gap * (qn count + 1) == gap)%Q.
Proof.
  intros gap. unfold gap. pose proof (qn_nonneg count) as Hc.
  rewrite qn_S. change (qn 0) with 0%Q. split; field; lra.
Qed.

(** A grid built row by row holds cell [(r, c)] at index [r * n + c]. *)
Lemma grid_lookup {A : Type} (g : nat -> nat -> A) (n m a r c : nat) :
  (r < m)%nat -> (c < n)%nat ->
  flat_map (fun r => map (g r) (seq 0 n)) (seq a m) !! (r * n + c)%nat =
  Some (g (a + r)%nat c).
Proof.
  revert a r. induction m as [|m IH]; intros a r Hr Hc; [lia|].
  simpl. destruct r as [|r].
  - simpl. rewrite lookup_app_l by (rewrite length_map, length_seq; exact Hc).
    change (map ?f ?l) with (f <$> l).
    rewrite list_lookup_fmap, lookup_seq_lt by exact Hc.
    rewrite Nat.add_0_r. reflexivity.
  - rewrite lookup_app_r by (rewrite length_map, length_seq; simpl; lia).
    rewrite length_map, length_seq.
    replace (S r * n + c - n)%nat with (r * n + c)%nat by (simpl; lia).
    rewrite (IH (S a) r) by lia. f_equal. f_equal. lia.
Qed.

Lemma make_pixels_lookup (W H : Q) (r c : nat) :
  (r < 14)%nat -> (c < 14)%nat ->
  exists p, make_pixels W H !! (r * 14 + c)%nat = Some p /\
            (px p == W * 1 / 5 + (qn c - (13 # 2)) * cell_size W H)%Q /\
            (py p == H / 2 + (qn r - (13 # 2)) * cell_size W H)%Q.
Proof.
  intros Hr Hc. unfold make_pixels.
  rewrite (grid_lookup _ PIX_COLS PIX_ROWS 0 r c Hr Hc).
  eexists. split; [reflexivity|]. cbn [px py]. unfold cx.
  change (qn 0) with 0%Q. change (qn PIX_COLS) with 14%Q.
  change (qn PIX_ROWS) with 14%Q. rewrite Nat.add_0_l.
  split; field.
Qed.

(** The cell in row [r] and column [c], as [_layout] computes it. *)
Lemma make_pixels_cell (W H : Q) (r c : nat) :
  (r < 14)%nat -> (c < 14)%nat ->
  make_pixels W H !! (r * 14 + c)%nat =
  Some {| px := (cx W 0 - cell_size W H * qn PIX_COLS / 2
                 + qn c * cell_size W H + cell_size W H / 2)%Q;
          py := (H / 2 - cell_size W H * qn PIX_ROWS / 2
                 + qn r * cell_size W H + cell_size W H / 2)%Q;
          pw := (cell_size W H - 1)%Q; ph := (cell_size W H - 1)%Q;
          val := 0 |}.
Proof.
  intros Hr Hc. unfold make_pixels.
  rewrite (grid_lookup _ PIX_COLS PIX_ROWS 0 r c Hr Hc).
  rewrite Nat.add_0_l. reflexivity.
Qed.

Lemma layout_nodes (cw ch : nat) (s : state) (l : layer_ref) (i : nat) :
  (i < node_count l)%nat ->
  exists n, get_nodes l (_layout cw ch s) !! i = Some n /\
            (x n == or_default cw 260 * column l / 5)%Q /\
            y n = (or_default ch 500 / (qn (node_count l) + 1) * (qn i + 1))%Q.
Proof.
  intros Hi.
  destruct l; cbn [get_nodes _layout _h1Nodes _h2Nodes _outNodes node_count] in *;
    rewrite makeNodes_lookup by exact Hi;
    (eexists; split; [reflexivity|]; cbn [x y column]; split; [|reflexivity]);
    unfold cx;
    [change (qn 1) with 1%Q | change (qn 2) with 2%Q | change (qn 3) with 3%Q];
    field.
Qed.

(** C9.  With [W] and [H] the width and height [_layout] works with (the
    client size, or 260 and 500 where it is zero), the input grid is centred
    on [W/5] and the nodes of the two hidden layers and of the output layer
    are at [2W/5], [3W/5] and [4W/5]; node [i] of a column of [N] nodes is at
    height [H/(N+1) * (i+1)], which leaves the margin [H/(N+1)] above the
    first and below the last node. *)
Theorem layout_positions (cw ch : nat) (s : state) :
  let W := or_default cw 260 in
  let H := or_default ch 500 in
  let s' := _layout cw ch s in
  (cw <> 0%nat -> W = qn cw) /\ (ch <> 0%nat -> H = qn ch) /\
  Forall2 Qeq (map (cx W) [0; 1; 2; 3]%nat)
              [W * 1 / 5; W * 2 / 5; W * 3 / 5; W * 4 / 5]%Q /\
  Forall2 Qeq (label_columns W)
              [W * 1 / 5; W * 2 / 5; W * 3 / 5; W * 4 / 5]%Q /\
  (forall r c, (r < 14)%nat -> (c < 14)%nat ->
     exists p, _pixels s' !! (r * 14 + c)%nat = Some p /\
               (px p == W * 1 / 5 + (qn c - (13 # 2)) * cell_size W H)%Q /\
               (py p == H / 2 + (qn r - (13 # 2)) * cell_size W H)%Q) /\
  (forall l,
     length (get_nodes l s') = node_count l /\
     forall i, (i < node_count l)%nat ->
       exists n, get_nodes l s' !! i = Some n /\
                 (x n == W * column l / 5)%Q /\
                 y n = (H / (qn (node_count l) + 1) * (qn i + 1))%Q) /\
  (forall N lx Hq i, (i < N)%nat ->
     exists n, _makeNodes N lx Hq !! i = Some n /\ x n = lx /\
               y n = (Hq / (qn N + 1) * (qn i + 1))%Q) /\
  (forall N Hq,
     let gap := (Hq / (qn (S N) + 1))%Q in
     (gap * (qn 0 + 1) == gap)%Q /\ (Hq - gap * (qn N + 1) == gap)%Q).
Proof.
  intros W H s'.
  split. { intros Hne. unfold W, or_default.
           destruct (Nat.eqb_spec cw 0); [contradiction|reflexivity]. }
  split. { intros Hne. unfold H, or_default.
           destruct (Nat.eqb_spec ch 0); [contradiction|reflexivity]. }
  split. { unfold cx. cbn [map]. change (qn 0) with 0%Q.
           change (qn 1) with 1%Q. change (qn 2) with 2%Q.
           change (qn 3) with 3%Q. repeat constructor; field. }
  split. { unfold label_columns. repeat constructor; field. }
  split. { intros r c Hr Hc. exact (make_pixels_lookup W H r c Hr Hc). }
  split. { intros l. split.
           - destruct l; apply makeNodes_length.
           - intros i Hi. exact (layout_nodes cw ch s l i Hi). }
  split. { intros N lx Hq i Hi. rewrite makeNodes_lookup by exact Hi.
           eexists. split; [reflexivity|]. split; reflexivity. }
  intros N Hq. apply makeNodes_margins.
Qed.

End LayoutFacts.

Lemma layout_positions_witness :
  NetworkRenderer.or_default 300 260 = qn 300 /\
  (exists n, NetworkRenderer.get_nodes NetworkRenderer.LOut
               (NetworkRenderer.init 300 0) !! 9%nat = Some n /\
             (NetworkRenderer.x n == 240)%Q /\
             (NetworkRenderer.y n == (500 # 11) * 10)%Q).
Proof.
  destruct (layout_positions 300 0
              (NetworkRenderer._layout 300 0
                 {| NetworkRenderer.canvas_width := 0;
                    NetworkRenderer.canvas_height := 0;
                    NetworkRenderer._raf := None;
                    NetworkRenderer._h1Nodes := [];
                    NetworkRenderer._h2Nodes := [];
                    NetworkRenderer._outNodes := [];
                    NetworkRenderer._pixels := [];
                    NetworkRenderer.retired := [];
                    NetworkRenderer.frames := [];
                    NetworkRenderer.timers := [];
                    NetworkRenderer.next_handle := 1;
                    NetworkRenderer.runs := [];
                    NetworkRenderer.draws := 0;
                    NetworkRenderer.completed := [] |}))
    as (HW & _ & _ & _ & _ & Hn & _ & _).
  split; [apply HW; lia|].
  destruct (Hn NetworkRenderer.LOut) as [_ Hi].
  destruct (Hi 9%nat) as (n & E & Ex & Ey); [vm_compute; lia|].
  exists n. split; [exact E|]. split.
  - rewrite Ex. vm_compute. reflexivity.
  - rewrite Ey. vm_compute. reflexivity.
Defined.

(* ------------------------------------------------------------------ *)
(** ** The animation scheduler *)
(* ------------------------------------------------------------------ *)

Section SchedulerFacts.
Import NetworkRenderer.

(** *** The node arrays of a layout *)

Lemma nodes_of_current (l : layer_ref) (s : state) :
  nodes_of (layout_no s) l s = get_nodes l s.
Proof. unfold nodes_of. now rewrite Nat.eqb_refl. Qed.

Lemma put_nodes_current (l : layer_ref) (ns : list node) (s : state) :
  put_nodes (layout_no s) l ns s = set_nodes l ns s.
Proof. unfold put_nodes. now rewrite Nat.eqb_refl. Qed.

Lemma put_nodes_layout_no (g : nat) (l : layer_ref) (ns : list node)
    (s : state) :
  layout_no (put_nodes g l ns s) = layout_no s.
Proof.
  unfold put_nodes, layout_no. destruct (g =? length (retired s))%nat.
  - reflexivity.
  - cbn [retired set_retired]. apply length_alter.
Qed.

(** Writing to the array of layer [l] of layout [g] changes the array in
    use only when [g] is the current layout. *)
Lemma get_nodes_put_nodes (g : nat) (l l' : layer_ref) (ns : list node)
    (s : state) :
  get_nodes l' (put_nodes g l ns s) =
  if decide (g = layout_no s /\ l = l') then ns else get_nodes l' s.
Proof.
  unfold put_nodes. destruct (Nat.eqb_spec g (layout_no s)) as [E|E].
  - destruct (decide (g = layout_no s /\ l = l')) as [[_ <-]|N].
    + destruct l; reflexivity.
    + destruct l, l'; try reflexivity; elim N; split; auto.
  - destruct (decide (g = layout_no s /\ l = l')) as [[E' _]|_];
      [contradiction|]. destruct l'; reflexivity.
Qed.

(** Reading back what was written, for an update [f] of the array. *)
Lemma nodes_of_put_nodes (g g' : nat) (l l' : layer_ref)
    (f : list node -> list node) (s : state) :
  f [] = [] ->
  nodes_of g' l' (put_nodes g l (f (nodes_of g l s)) s) =
  if decide (g = g' /\ l = l') then f (nodes_of g l s) else nodes_of g' l' s.
Proof.
  intros Hf. unfold nodes_of at 1. rewrite put_nodes_layout_no.
  destruct (Nat.eqb_spec g' (layout_no s)) as [E'|E'].
  - rewrite get_nodes_put_nodes. subst g'.
    destruct (decide (g = layout_no s /\ l = l')) as [[-> <-]|N].
    + reflexivity.
    + now rewrite nodes_of_current.
  - unfold put_nodes. destruct (Nat.eqb_spec g (layout_no s)) as [E|E].
    + cbn [retired set_nodes].
      destruct (decide (g = g' /\ l = l')) as [[<- _]|_]; [contradiction|].
      unfold nodes_of. destruct (Nat.eqb_spec g' (layout_no s)); [contradiction|].
      reflexivity.
    + cbn [retired set_retired].
      destruct (decide (g = g')) as [<-|Hg].
      * rewrite list_lookup_alter_eq.
        unfold nodes_of. destruct (Nat.eqb_spec g (layout_no s)); [contradiction|].
        destruct (retired s !! g) as [[[a b] c]|] eqn:Eg; cbn.
        -- destruct (decide (g = g /\ l = l')) as [[_ <-]|N].
           ++ destruct l; reflexivity.
           ++ destruct l, l'; try reflexivity; elim N; split; auto.
        -- destruct (decide (g = g /\ l = l')); [now rewrite Hf|reflexivity].
      * rewrite list_lookup_alter_ne by exact Hg.
        destruct (decide (g = g' /\ l = l')) as [[E0 _]|_]; [contradiction|].
        unfold nodes_of. destruct (Nat.eqb_spec g' (layout_no s)); [contradiction|].
        reflexivity.
Qed.

Lemma step_branches (r : nat) (l : layer_ref) (start now : Q) (s : state) :
  step r l start now s =
  let g := captured r s in
  let s3 := _draw (put_nodes g l (ease_nodes (snd (ease_of now start))
                                             (nodes_of g l s)) s) in
  if negb (Qle_bool 1 (fst (ease_of now start)))
  then requestAnimationFrame (Step r l start) s3
  else setTimeout (NextLayer r) (incr_li r s3).
Proof. unfold step. destruct (ease_of now start) as [t e]. reflexivity. Qed.

(** [step] of a run that holds the arrays in use. *)
Lemma step_current (r : nat) (l : layer_ref) (start now : Q) (s : state) :
  captured r s = layout_no s ->
  step r l start now s =
  let s3 := _draw (set_nodes l (ease_nodes (snd (ease_of now start))
                                           (get_nodes l s)) s) in
  if negb (Qle_bool 1 (fst (ease_of now start)))
  then requestAnimationFrame (Step r l start) s3
  else setTimeout (NextLayer r) (incr_li r s3).
Proof.
  intros E. rewrite step_branches. cbv zeta.
  now rewrite E, nodes_of_current, put_nodes_current.
Qed.

Lemma captured_env (r : nat) (s : state) (env : run_env) :
  runs s !! r = Some env -> captured r s = arrays env.
Proof. intros E. unfold captured. now rewrite E. Qed.

(** [put_nodes] touches nothing but node arrays. *)
Lemma put_nodes_keeps (g : nat) (l : layer_ref) (ns : list node) (s : state) :
  let s' := put_nodes g l ns s in
  runs s' = runs s /\ frames s' = frames s /\ timers s' = timers s /\
  _raf s' = _raf s /\ next_handle s' = next_handle s /\
  draws s' = draws s /\ completed s' = completed s /\
  _pixels s' = _pixels s.
Proof.
  cbv zeta. unfold put_nodes. destruct (g =? layout_no s)%nat;
    repeat split.
Qed.

(** *** [reset] *)

Lemma reset_nodes (s : state) (l : layer_ref) :
  get_nodes l (reset s) = map zero_node (get_nodes l s).
Proof.
  unfold reset, cancel_pending. destruct (_raf s); destruct l; reflexivity.
Qed.

Lemma reset_pixels (s : state) :
  _pixels (reset s) = map (set_val 0) (_pixels s).
Proof. unfold reset, cancel_pending. destruct (_raf s); reflexivity. Qed.

Lemma reset_draws (s : state) : draws (reset s) = S (draws s).
Proof.
  unfold reset, cancel_pending. destruct (_raf s); reflexivity.
Qed.

(** [reset] leaves every node and preview cell at 0 and repaints once. *)
Lemma reset_zeroes (s : state) :
  (forall l i n, get_nodes l (reset s) !! i = Some n ->
                 act n = 0%Q /\ target n = 0%Q) /\
  (forall i p, _pixels (reset s) !! i = Some p -> val p = 0%Q) /\
  (forall l, length (get_nodes l (reset s)) = length (get_nodes l s)) /\
  draws (reset s) = S (draws s).
Proof.
  split; [|split; [|split]].
  - intros l i n. rewrite reset_nodes. change (map ?f ?l) with (f <$> l).
    rewrite list_lookup_fmap. destruct (get_nodes l s !! i); [|discriminate].
    intros E. injection E as <-. split; reflexivity.
  - intros i p. rewrite reset_pixels. change (map ?f ?l) with (f <$> l).
    rewrite list_lookup_fmap. destruct (_pixels s !! i); [|discriminate].
    intros E. injection E as <-. reflexivity.
  - intros l. rewrite reset_nodes. apply length_map.
  - apply reset_draws.
Qed.

(** [reset] removes the request recorded in [_raf] and leaves the timers
    alone. *)
Lemma reset_queues (s : state) :
  timers (reset s) = timers s /\
  frames (reset s) =
    match _raf s with
    | Some h => remove_handle h (frames s)
    | None => frames s
    end.
Proof. unfold reset, cancel_pending. destruct (_raf s); split; reflexivity. Qed.

(** C4.  After [reset] every node's activation and target and every
    preview value is 0, and [_draw] has run exactly once more.  But a run
    that was in its pause between two layers is not cancelled: in
    [reset_in_pause] the timer of the first wave survives the [reset], and
    when it expires the wave sets the targets of the second hidden layer and
    moves its activations away from 0. *)
Theorem reset_does_not_stop_a_paused_run :
  (forall s,
     (forall l i n, get_nodes l (reset s) !! i = Some n ->
                    act n = 0%Q /\ target n = 0%Q) /\
     (forall i p, _pixels (reset s) !! i = Some p -> val p = 0%Q) /\
     draws (reset s) = S (draws s) /\
     timers (reset s) = timers s) /\
  (let s := exec (init 0 0) reset_in_pause in
   timers s = [(2%nat, NextLayer 0)] /\
   in_flight 0 s = true /\
   let s' := exec s after_reset in
   exists n, _h2Nodes s' !! 0%nat = Some n /\
             target n = 1%Q /\ (act n == 9785 # 21952)%Q /\ (0 < act n)%Q).
Proof.
  split.
  - intros s. destruct (reset_zeroes s) as (A & B & _ & C).
    destruct (reset_queues s) as [D _]. auto.
  - cbv zeta. split; [vm_compute; reflexivity|].
    split; [vm_compute; reflexivity|].
    eexists. split; [vm_compute; reflexivity|].
    split; [reflexivity|]. split; vm_compute; reflexivity.
Qed.

(** *** [animate] over a pending frame *)

Lemma remove_handle_all (h : nat) (q : list (nat * callback)) :
  (forall p, In p q -> fst p = h) -> remove_handle h q = [].
Proof.
  intros Hall. unfold remove_handle. induction q as [|p q IH]; [reflexivity|].
  simpl. rewrite (Hall p) by (left; reflexivity). rewrite Nat.eqb_refl. simpl.
  apply IH. intros p' Hp'. apply Hall. right. exact Hp'.
Qed.

Lemma cancel_pending_stoppable (s : state) :
  stoppable s -> frames (cancel_pending s) = [] /\ timers (cancel_pending s) = [].
Proof.
  intros [Ht Hf]. unfold cancel_pending.
  destruct (_raf s) as [h|] eqn:E; simpl.
  - split; [|exact Ht]. apply remove_handle_all.
    intros p Hp. specialize (Hf p Hp). congruence.
  - split; [|exact Ht]. destruct (frames s) as [|p q]; [reflexivity|].
    specialize (Hf p (or_introl eq_refl)). discriminate.
Qed.

Lemma animate_unfold (now : Q) (d : anim_data) (cb : bool) (s : state) :
  let s0 := cancel_pending s in
  let s1 := match inputPixels d with
            | Some arr => set_pixels (assign_pixels arr (_pixels s0)) s0
            | None => s0
            end in
  let env := {| layers := [(LH1, or_empty (h1Acts d));
                           (LH2, or_empty (h2Acts d));
                           (LOut, or_empty (outActs d))];
                li := 0; onDone := cb; arrays := layout_no s |} in
  let s2 := set_runs (runs s1 ++ [env]) s1 in
  animate now d cb s =
  requestAnimationFrame (Step (length (runs s)) LH1 now)
    (set_nodes LH1 (assign_targets (or_empty (h1Acts d)) (_h1Nodes s2)) s2).
Proof.
  cbv zeta. unfold animate, nextLayer.
  set (s0 := cancel_pending s).
  assert (Hr : runs s0 = runs s).
  { unfold s0, cancel_pending. destruct (_raf s); reflexivity. }
  assert (Hg : layout_no s0 = layout_no s).
  { unfold s0, cancel_pending. destruct (_raf s); reflexivity. }
  destruct (inputPixels d) as [arr|];
    cbn [runs set_pixels set_runs]; rewrite Hr;
    rewrite lookup_app_r by lia; rewrite Nat.sub_diag;
    cbn [lookup list_lookup layers li arrays];
    match goal with
    | |- context [put_nodes ?g _ _ ?t] =>
        change g with (layout_no t); rewrite nodes_of_current, put_nodes_current
    end; cbn [get_nodes]; rewrite <- Hg; reflexivity.
Qed.

(** While a layer animation of an earlier run waits for its next frame, a
    new [animate] leaves only callbacks of the new run. *)
Lemma animate_supersedes_pending_frame (now : Q) (d : anim_data) (cb : bool)
    (s : state) :
  stoppable s ->
  let s' := animate now d cb s in
  frames s' = [(next_handle s, Step (length (runs s)) LH1 now)] /\
  _raf s' = Some (next_handle s) /\
  timers s' = [].
Proof.
  intros Hs s'. unfold s'. rewrite animate_unfold.
  destruct (cancel_pending_stoppable s Hs) as [Hf Ht].
  assert (Hn : next_handle (cancel_pending s) = next_handle s).
  { unfold cancel_pending. destruct (_raf s); reflexivity. }
  destruct (inputPixels d); cbn; rewrite Hf, Ht, Hn; repeat split.
Qed.

(** [animate] leaves the pending timers where they are. *)
Lemma animate_keeps_timers (now : Q) (d : anim_data) (cb : bool) (s : state) :
  timers (animate now d cb s) = timers s.
Proof.
  rewrite animate_unfold. unfold cancel_pending.
  destruct (_raf s); destruct (inputPixels d); reflexivity.
Qed.

(** C1.  A second [animate] does not stop a first run that is in its pause
    between two layers: [cancelAnimationFrame] finds no pending request, and
    no call of [animate] removes a timer.  In [second_call_in_pause] the
    timer of the first run expires after the second call, and then the
    [step] closures of both runs wait for the same frame; played on, the
    first run calls its [onDone] while the second run is still animating. *)
Theorem animate_in_pause_leaves_two_runs :
  (forall now d cb s, timers (animate now d cb s) = timers s) /\
  (let s := exec (init 0 0) second_call_in_pause in
   frames s = [(4%nat, Step 1 LH1 300); (5%nat, Step 0 LH2 350)] /\
   animating 0 s = true /\ animating 1 s = true /\
   completed (exec s play_on) = [0%nat] /\
   animating 1 (exec s play_on) = true).
Proof.
  split; [exact animate_keeps_timers|].
  cbv zeta. repeat split; vm_compute; reflexivity.
Qed.

(** *** The targets a run assigns *)

Lemma assign_targets_clamped (tg : list (option Q)) (ns : list node) :
  clamped tg (assign_targets tg ns).
Proof.
  intros i n. unfold assign_targets. rewrite list_lookup_imap.
  destruct (ns !! i); [|discriminate]. intros E. injection E as <-. reflexivity.
Qed.

Lemma ease_nodes_clamped (tg : list (option Q)) (e : Q) (ns : list node) :
  clamped tg ns -> clamped tg (ease_nodes e ns).
Proof.
  intros Hc i n. unfold ease_nodes. change (map ?f ?l) with (f <$> l).
  rewrite list_lookup_fmap. destruct (ns !! i) as [m|] eqn:E; [|discriminate].
  intros E'. injection E' as <-. exact (Hc i m E).
Qed.

Lemma plan_layers_distinct (d : anim_data) (j k : nat) (l : layer_ref)
    (tg tg' : list (option Q)) :
  plan d !! j = Some (l, tg) -> plan d !! k = Some (l, tg') -> j = k.
Proof.
  unfold plan. destruct j as [|[|[|j]]], k as [|[|[|k]]]; simpl;
    intros A B; try discriminate; try reflexivity;
    injection A as <- _; discriminate.
Qed.

Lemma plan_lookup_none (d : anim_data) (k : nat) :
  plan d !! k = None -> (3 <= k)%nat.
Proof. intros E. apply lookup_ge_None in E. exact E. Qed.

Lemma step_effect (r : nat) (l : layer_ref) (start now : Q) (s : state)
    (env : run_env) :
  runs s !! r = Some env -> arrays env = layout_no s ->
  let s' := step r l start now s in
  layout_no s' = layout_no s /\
  (forall l', get_nodes l' s' =
              if decide (l = l')
              then ease_nodes (snd (ease_of now start)) (get_nodes l s)
              else get_nodes l' s) /\
  ((frames s' = frames s ++ [(next_handle s, Step r l start)] /\
    _raf s' = Some (next_handle s) /\
    timers s' = timers s /\ runs s' = runs s) \/
   (frames s' = frames s /\
    timers s' = timers s ++ [(next_handle s, NextLayer r)] /\
    runs s' = <[r := {| layers := layers env; li := S (li env);
                        onDone := onDone env;
                        arrays := arrays env |}]> (runs s))).
Proof.
  intros Hr Hg s'. unfold s'.
  rewrite step_current by (rewrite (captured_env r s env Hr); exact Hg).
  cbv zeta. destruct (negb (Qle_bool 1 (fst (ease_of now start)))).
  - split; [reflexivity|].
    split; [intros l'; destruct l, l'; reflexivity|]. left. repeat split.
  - unfold incr_li. cbn [runs _draw set_nodes]. rewrite Hr.
    split; [reflexivity|].
    split; [intros l'; destruct l, l'; reflexivity|]. right. repeat split.
Qed.

Lemma nextLayer_effect (r : nat) (now : Q) (s : state) (env : run_env) :
  runs s !! r = Some env -> arrays env = layout_no s ->
  nextLayer r now s =
  match layers env !! li env with
  | Some (l, tg) =>
      requestAnimationFrame (Step r l now)
        (set_nodes l (assign_targets tg (get_nodes l s)) s)
  | None => if onDone env then call_onDone r s else s
  end.
Proof.
  intros Hr Hg. unfold nextLayer. rewrite Hr.
  destruct (layers env !! li env) as [[l tg]|]; [|reflexivity].
  cbv zeta. now rewrite Hg, nodes_of_current, put_nodes_current.
Qed.

Lemma progress_frame (r : nat) (d : anim_data) (s : state) (now : Q) :
  progress r d s -> progress r d (handle s (Frame now)).
Proof.
  intros [l tg h start env Hr Hl Hlo Hp Hf Hraf Ht Ha
         |h env Hr Hl Hlo Hf Ht Ha
         |env Hr Hl Hlo Hli Hf Ht Ha];
    cbn [handle]; rewrite Hf; cbn [run_frame];
    [|eapply pr_pause; eassumption|eapply pr_complete; eassumption].
  rewrite Hf. cbn [existsb fst]. rewrite Nat.eqb_refl. cbn [orb run_callback].
  set (s1 := cancelAnimationFrame h s).
  assert (Hf1 : frames s1 = []).
  { unfold s1. cbn [frames cancelAnimationFrame]. rewrite Hf.
    unfold remove_handle. cbn [List.filter fst]. now rewrite Nat.eqb_refl. }
  assert (Hn1 : forall l', get_nodes l' s1 = get_nodes l' s)
    by (intros l'; destruct l'; reflexivity).
  assert (Hg1 : arrays env = layout_no s1) by exact Hlo.
  destruct (step_effect r l start now s1 env Hr Hg1) as (Hno & Hn & Hq).
  set (s' := step r l start now s1) in *.
  assert (Ha' : assigned d (S (li env)) s').
  { intros j l' tg' Hj Hp'. rewrite Hn. destruct (decide (l = l')) as [<-|Hne].
    - apply ease_nodes_clamped. rewrite Hn1. exact (Ha j l tg' Hj Hp').
    - rewrite Hn1. exact (Ha j l' tg' Hj Hp'). }
  destruct Hq as [(Hf' & Hraf' & Ht' & Hr')|(Hf' & Ht' & Hr')].
  - apply (pr_animating r d s' l tg (next_handle s1) start env);
      try assumption.
    + rewrite Hr'. exact Hr.
    + rewrite Hno. exact Hg1.
    + rewrite Hf', Hf1. reflexivity.
    + rewrite Ht'. exact Ht.
  - apply (pr_pause r d s' (next_handle s1)
             {| layers := layers env; li := S (li env); onDone := onDone env;
                arrays := arrays env |});
      try assumption.
    + rewrite Hr'. apply list_lookup_insert_eq.
      apply lookup_lt_Some in Hr. exact Hr.
    + rewrite Hno. exact Hg1.
    + rewrite Hf'. exact Hf1.
    + rewrite Ht'. change (timers s1) with (timers s). rewrite Ht. reflexivity.
Qed.

Lemma progress_timeout (r : nat) (d : anim_data) (s : state) (h' : nat) (now : Q) :
  progress r d s -> progress r d (handle s (Timeout h' now)).
Proof.
  intros [l tg h start env Hr Hl Hlo Hp Hf Hraf Ht Ha
         |h env Hr Hl Hlo Hf Ht Ha
         |env Hr Hl Hlo Hli Hf Ht Ha];
    cbn [handle]; rewrite Ht; cbn [List.find fst];
    [eapply pr_animating; eassumption| |eapply pr_complete; eassumption].
  destruct (Nat.eqb_spec h h') as [->|Hne];
    [|eapply pr_pause; eassumption].
  cbn [run_callback].
  set (s1 := clear_timer h' s).
  assert (Ht1 : timers s1 = []).
  { unfold s1. cbn [timers clear_timer]. rewrite Ht.
    unfold remove_handle. cbn [List.filter fst]. now rewrite Nat.eqb_refl. }
  assert (Hn1 : forall l', get_nodes l' s1 = get_nodes l' s)
    by (intros l'; destruct l'; reflexivity).
  assert (Hg1 : arrays env = layout_no s1) by exact Hlo.
  rewrite (nextLayer_effect r now s1 env Hr Hg1), Hl.
  destruct (plan d !! li env) as [[l tg]|] eqn:Hp.
  - apply (pr_animating r d _ l tg (next_handle s1) now env);
      try assumption; try reflexivity.
    + cbn [frames requestAnimationFrame set_nodes].
      change (frames s1) with (frames s). rewrite Hf. reflexivity.
    + intros j l' tg' Hj Hp'.
      assert (Hg : get_nodes l' (requestAnimationFrame (Step r l now)
                     (set_nodes l (assign_targets tg (get_nodes l s1)) s1)) =
                   if decide (l = l') then assign_targets tg (get_nodes l s1)
                   else get_nodes l' s1)
        by (destruct l, l'; reflexivity).
      rewrite Hg. destruct (decide (l = l')) as [<-|Hne].
      * rewrite (plan_layers_distinct d j (li env) l tg' tg Hp' Hp) in Hp'.
        rewrite Hp in Hp'. injection Hp' as <-. apply assign_targets_clamped.
      * rewrite Hn1. apply (Ha j l' tg'); [|exact Hp'].
        destruct (Nat.eq_dec j (li env)) as [->|Hjk]; [|lia].
        rewrite Hp in Hp'. injection Hp' as <- _. now elim Hne.
  - apply plan_lookup_none in Hp.
    apply (pr_complete r d _ env); try assumption;
      destruct (onDone env); assumption.
Qed.

Lemma progress_exec (r : nat) (d : anim_data) (es : list event) (s : state) :
  Forall browser_event es -> progress r d s -> progress r d (exec s es).
Proof.
  intros Hes. revert s. induction Hes as [|e es He _ IH]; intros s Hp; [exact Hp|].
  cbn [exec fold_left]. apply IH.
  destruct e as [| |now|h now|]; try contradiction.
  - apply progress_frame, Hp.
  - apply progress_timeout, Hp.
Qed.

Lemma cancel_pending_keeps (s : state) :
  runs (cancel_pending s) = runs s /\
  _pixels (cancel_pending s) = _pixels s /\
  next_handle (cancel_pending s) = next_handle s /\
  forall l, get_nodes l (cancel_pending s) = get_nodes l s.
Proof.
  unfold cancel_pending. destruct (_raf s); repeat split; intros l; destruct l;
    reflexivity.
Qed.

Lemma animate_layout_no (now : Q) (d : anim_data) (cb : bool) (s : state) :
  layout_no (animate now d cb s) = layout_no s.
Proof.
  rewrite animate_unfold. unfold cancel_pending.
  destruct (_raf s); destruct (inputPixels d); reflexivity.
Qed.

Lemma animate_pixels (now : Q) (d : anim_data) (cb : bool) (s : state) :
  _pixels (animate now d cb s) =
  match inputPixels d with
  | Some arr => assign_pixels arr (_pixels s)
  | None => _pixels s
  end.
Proof.
  rewrite animate_unfold. destruct (cancel_pending_keeps s) as (_ & Hp & _).
  destruct (inputPixels d); cbn; rewrite Hp; reflexivity.
Qed.

Lemma animate_first_layer (now : Q) (d : anim_data) (cb : bool) (s : state) :
  _h1Nodes (animate now d cb s) =
  assign_targets (or_empty (h1Acts d)) (_h1Nodes s).
Proof.
  rewrite animate_unfold. destruct (cancel_pending_keeps s) as (_ & _ & _ & Hn).
  specialize (Hn LH1). cbn [get_nodes] in Hn.
  destruct (inputPixels d); cbn; rewrite Hn; reflexivity.
Qed.

Lemma animate_progress (now : Q) (d : anim_data) (cb : bool) (s : state) :
  stoppable s -> progress (length (runs s)) d (animate now d cb s).
Proof.
  intros Hs.
  destruct (animate_supersedes_pending_frame now d cb s Hs) as (Hf & Hraf & Ht).
  apply (pr_animating _ d _ LH1 (or_empty (h1Acts d)) (next_handle s) now
           {| layers := plan d; li := 0; onDone := cb;
              arrays := layout_no s |});
    try assumption; try reflexivity.
  - rewrite animate_unfold. destruct (cancel_pending_keeps s) as (Hr & _).
    destruct (inputPixels d); cbn; rewrite Hr;
      rewrite lookup_app_r by lia; rewrite Nat.sub_diag; reflexivity.
  - symmetry. apply animate_layout_no.
  - intros j l tg Hj Hp. cbn [li] in Hj.
    assert (j = 0%nat) as -> by lia.
    injection Hp as <- <-. cbn [get_nodes].
    rewrite animate_first_layer. apply assign_targets_clamped.
Qed.

Lemma entry_missing (tg : list (option Q)) (i : nat) :
  (length tg <= i)%nat -> entry tg i = 0%Q.
Proof.
  intros Hi. unfold entry. now rewrite (lookup_ge_None_2 tg i Hi).
Qed.

Lemma entry_take (tg : list (option Q)) (n i : nat) :
  (i < n)%nat -> entry (take n tg) i = entry tg i.
Proof. intros Hi. unfold entry. now rewrite lookup_take_lt. Qed.

(** Entries past the number of nodes are never read. *)
Lemma assign_targets_ignores_extra (tg : list (option Q)) (ns : list node) :
  assign_targets tg ns = assign_targets (take (length ns) tg) ns.
Proof.
  unfold assign_targets. apply imap_ext. intros i n Hn. cbn beta.
  rewrite entry_take by (apply lookup_lt_Some in Hn; exact Hn). reflexivity.
Qed.

Lemma assign_pixels_ignores_extra (arr : list (option Q)) (ps : list pixel) :
  assign_pixels arr ps = assign_pixels (take (length ps) arr) ps.
Proof.
  unfold assign_pixels. apply imap_ext. intros i p Hp. cbn beta.
  rewrite entry_take by (apply lookup_lt_Some in Hp; exact Hp). reflexivity.
Qed.

(** *** No exception *)

Lemma for_each_returns {A : Type} (body : nat -> A -> outcome A)
    (f : nat -> A -> A) (k : nat) (xs : list A) :
  (forall i x, body i x = Returns (f i x)) ->
  for_each body k xs = Returns (imap (fun i => f (k + i)%nat) xs).
Proof.
  intros Hb. revert k. induction xs as [|x xs IH]; intros k; [reflexivity|].
  cbn [for_each]. rewrite Hb, IH. cbn [imap]. rewrite Nat.add_0_r.
  do 2 f_equal. apply imap_ext. intros i y _. cbn. f_equal. lia.
Qed.

Lemma entry_or_zero (arr : list (option Q)) (i : nat) :
  entry arr i = or_zero (match arr !! i with Some v => v | None => None end).
Proof. unfold entry. destruct (arr !! i) as [[v|]|]; reflexivity. Qed.

Lemma nextLayer_never_throws (r : nat) (now : Q) (s : state) :
  nextLayer_checked r now s = Returns (nextLayer r now s).
Proof.
  unfold nextLayer_checked, nextLayer.
  destruct (runs s !! r) as [env|]; [|reflexivity].
  destruct (Nat.leb_spec (length (layers env)) (li env)) as [Hge|Hlt].
  - rewrite (lookup_ge_None_2 _ _ Hge). reflexivity.
  - destruct (lookup_lt_is_Some_2 _ _ Hlt) as [[l tg] E]. rewrite E.
    rewrite (for_each_returns _
               (fun i n => set_target (Qmin (entry tg i) 1) n)).
    + reflexivity.
    + intros i n. cbn [read_entry]. now rewrite entry_or_zero.
Qed.

Lemma animate_never_throws (now : Q) (d : anim_data) (cb : bool) (s : state) :
  animate_checked now d cb s = Returns (animate now d cb s).
Proof.
  unfold animate_checked, animate. cbv zeta.
  destruct (inputPixels d) as [arr|].
  - rewrite (for_each_returns _ (fun i p => set_val (entry arr i) p)).
    + apply nextLayer_never_throws.
    + intros i p. cbn [read_entry]. now rewrite entry_or_zero.
  - apply nextLayer_never_throws.
Qed.

(** *** A run keeps its arrays *)

Lemma nextLayer_runs (r : nat) (now : Q) (s : state) :
  runs (nextLayer r now s) = runs s.
Proof.
  unfold nextLayer. destruct (runs s !! r) as [env|]; [|reflexivity].
  destruct (layers env !! li env) as [[l tg]|];
    [|destruct (onDone env); reflexivity].
  cbv zeta. cbn [runs requestAnimationFrame].
  exact (proj1 (put_nodes_keeps _ _ _ _)).
Qed.

Lemma animate_runs (now : Q) (d : anim_data) (cb : bool) (s : state) :
  runs (animate now d cb s) =
  runs s ++ [{| layers := plan d; li := 0; onDone := cb;
                arrays := layout_no s |}].
Proof.
  unfold animate. cbv zeta. rewrite nextLayer_runs.
  destruct (cancel_pending_keeps s) as (Hr & _).
  assert (Hg : layout_no (cancel_pending s) = layout_no s).
  { unfold cancel_pending. destruct (_raf s); reflexivity. }
  destruct (inputPixels d); cbn [runs set_runs set_pixels]; rewrite Hr;
    unfold layout_no in *; cbn [retired set_pixels]; rewrite Hg; reflexivity.
Qed.

Lemma reset_runs (s : state) : runs (reset s) = runs s.
Proof.
  unfold reset. cbn. exact (proj1 (cancel_pending_keeps s)).
Qed.

(** Run [r] is there, with the arrays of [d] and the node arrays of
    layout [g]. *)
Lemma step_keeps_run (r0 : nat) (l : layer_ref) (start now : Q) (s : state)
    (r g : nat) (d : anim_data) :
  (exists env, runs s !! r = Some env /\ layers env = plan d /\
               arrays env = g) ->
  exists env, runs (step r0 l start now s) !! r = Some env /\
              layers env = plan d /\ arrays env = g.
Proof.
  intros (env & Hr & Hl & Hg). rewrite step_branches. cbv zeta.
  set (s1 := put_nodes _ _ _ _).
  assert (E1 : runs s1 = runs s) by exact (proj1 (put_nodes_keeps _ _ _ _)).
  clearbody s1.
  destruct (negb (Qle_bool 1 (fst (ease_of now start)))).
  - exists env. change (runs s1 !! r = Some env /\ layers env = plan d /\
                        arrays env = g).
    rewrite E1. auto.
  - unfold incr_li. change (runs (_draw s1)) with (runs s1). rewrite E1.
    destruct (runs s !! r0) as [env0|] eqn:E0.
    + change (runs (setTimeout ?c (set_runs ?rs ?t))) with rs.
      destruct (Nat.eq_dec r0 r) as [->|Hne].
      * rewrite Hr in E0. injection E0 as <-.
        exists {| layers := layers env; li := S (li env); onDone := onDone env;
                  arrays := arrays env |}.
        split; [|split; [exact Hl|exact Hg]].
        apply list_lookup_insert_eq. apply lookup_lt_Some in Hr. exact Hr.
      * exists env. split; [|split; [exact Hl|exact Hg]].
        rewrite list_lookup_insert_ne by exact Hne. exact Hr.
    + exists env. change (runs s1 !! r = Some env /\ layers env = plan d /\
                          arrays env = g).
      rewrite E1. auto.
Qed.

Lemma run_callback_keeps_run (now : Q) (c : callback) (s : state)
    (r g : nat) (d : anim_data) :
  (exists env, runs s !! r = Some env /\ layers env = plan d /\
               arrays env = g) ->
  exists env, runs (run_callback now c s) !! r = Some env /\
              layers env = plan d /\ arrays env = g.
Proof.
  intros H. destruct c as [r0 l start|r0]; cbn [run_callback].
  - apply step_keeps_run, H.
  - rewrite nextLayer_runs. exact H.
Qed.

Lemma run_frame_keeps_run (now : Q) (batch : list (nat * callback)) (s : state)
    (r g : nat) (d : anim_data) :
  (exists env, runs s !! r = Some env /\ layers env = plan d /\
               arrays env = g) ->
  exists env, runs (run_frame now batch s) !! r = Some env /\
              layers env = plan d /\ arrays env = g.
Proof.
  revert s. induction batch as [|[h c] rest IH]; intros s H; [exact H|].
  cbn [run_frame].
  destruct (existsb (fun p => fst p =? h) (frames s)); [|apply IH, H].
  apply IH, run_callback_keeps_run. exact H.
Qed.

Lemma handle_keeps_run (e : event) (s : state) (r g : nat) (d : anim_data) :
  (exists env, runs s !! r = Some env /\ layers env = plan d /\
               arrays env = g) ->
  exists env, runs (handle s e) !! r = Some env /\ layers env = plan d /\
              arrays env = g.
Proof.
  intros H. destruct e as [now d' cb'| |now|h now|cw ch]; cbn [handle].
  - destruct H as (env & Hr & Hl). exists env. split; [|exact Hl].
    rewrite animate_runs. apply lookup_app_l_Some. exact Hr.
  - rewrite reset_runs. exact H.
  - apply run_frame_keeps_run, H.
  - destruct (List.find (fun p => fst p =? h) (timers s)) as [[h' c]|];
      [|exact H].
    apply run_callback_keeps_run. exact H.
  - exact H.
Qed.

Lemma exec_keeps_run (es : list event) (s : state) (r g : nat) (d : anim_data) :
  (exists env, runs s !! r = Some env /\ layers env = plan d /\
               arrays env = g) ->
  exists env, runs (exec s es) !! r = Some env /\ layers env = plan d /\
              arrays env = g.
Proof.
  revert s. induction es as [|e es IH]; intros s H; [exact H|].
  cbn [exec fold_left]. apply IH, handle_keeps_run, H.
Qed.

(** [nextLayer] writes the targets into the array its run holds, and into
    no other. *)
Lemma nextLayer_assigns (r : nat) (now : Q) (s : state) (env : run_env)
    (l : layer_ref) (tg : list (option Q)) :
  runs s !! r = Some env -> layers env !! li env = Some (l, tg) ->
  forall g l',
    nodes_of g l' (nextLayer r now s) =
    if decide (arrays env = g /\ l = l')
    then assign_targets tg (nodes_of (arrays env) l s)
    else nodes_of g l' s.
Proof.
  intros Hr Hp g l'. unfold nextLayer. rewrite Hr, Hp. cbv zeta.
  change (nodes_of g l' (requestAnimationFrame ?c ?t)) with (nodes_of g l' t).
  apply (nodes_of_put_nodes (arrays env) g l l' (assign_targets tg) s).
  reflexivity.
Qed.

(** C8 (amended).  [animate] and [nextLayer] never throw on missing or
    short arrays.  A given preview array sets cell [i] to
    [inputPixels[i] ?? 0]; an absent preview array leaves the preview as
    it is.  The nodes of the first hidden layer get their targets at once;
    and whatever calls, frames, timers and changes of size follow, the run
    keeps its three arrays of targets and the node arrays that were in use
    when it was called, and whenever its [nextLayer] starts a layer every
    node [i] of the array it holds for that layer gets the target
    [min(targets[i] ?? 0, 1)], where an absent array counts as empty; as
    long as the canvas was not laid out again these are the arrays in use.
    An index past the end of an array reads 0, and the entries past the
    number of nodes are not read. *)
Theorem animate_zero_fills (now : Q) (d : anim_data) (cb : bool) (s : state) :
  let s' := animate now d cb s in
  let r := length (runs s) in
  animate_checked now d cb s = Returns s' /\
  (forall r' now' s0,
     nextLayer_checked r' now' s0 = Returns (nextLayer r' now' s0)) /\
  _pixels s' =
    match inputPixels d with
    | Some arr => imap (fun i p => set_val (entry arr i) p) (_pixels s)
    | None => _pixels s
    end /\
  _h1Nodes s' =
    imap (fun i n => set_target (Qmin (entry (or_empty (h1Acts d)) i) 1) n)
         (_h1Nodes s) /\
  (forall es, exists env,
     runs (exec s' es) !! r = Some env /\ layers env = plan d /\
     arrays env = layout_no s /\
     (forall now' l tg, plan d !! li env = Some (l, tg) ->
        nodes_of (arrays env) l (nextLayer r now' (exec s' es)) =
        imap (fun i n => set_target (Qmin (entry tg i) 1) n)
             (nodes_of (arrays env) l (exec s' es))) /\
     (layout_no (exec s' es) = layout_no s ->
      forall now' l tg, plan d !! li env = Some (l, tg) ->
        get_nodes l (nextLayer r now' (exec s' es)) =
        imap (fun i n => set_target (Qmin (entry tg i) 1) n)
             (get_nodes l (exec s' es)))) /\
  (forall tg i, (length tg <= i)%nat -> Qmin (entry tg i) 1 = 0%Q) /\
  or_empty None = [] /\
  (forall tg ns, length (assign_targets tg ns) = length ns /\
                 assign_targets tg ns = assign_targets (take (length ns) tg) ns) /\
  (forall arr ps, length (assign_pixels arr ps) = length ps /\
                  assign_pixels arr ps = assign_pixels (take (length ps) arr) ps).
Proof.
  intros s' r.
  split; [apply animate_never_throws|].
  split; [apply nextLayer_never_throws|].
  split; [apply animate_pixels|].
  split; [apply animate_first_layer|].
  split.
  { intros es.
    destruct (exec_keeps_run es s' r (layout_no s) d) as (env & Hr & Hl & Hg).
    { exists {| layers := plan d; li := 0; onDone := cb;
                arrays := layout_no s |}.
      split; [|split; reflexivity]. unfold s', r.
      rewrite animate_runs, lookup_app_r by lia.
      rewrite Nat.sub_diag. reflexivity. }
    exists env. split; [exact Hr|]. split; [exact Hl|]. split; [exact Hg|].
    split.
    - intros now' l tg Hp. rewrite <- Hl in Hp.
      rewrite (nextLayer_assigns r now' _ env l tg Hr Hp).
      destruct (decide (arrays env = arrays env /\ l = l)) as [_|N];
        [reflexivity|elim N; split; reflexivity].
    - intros Hsame now' l tg Hp.
      assert (Hcur : arrays env = layout_no (exec s' es)) by congruence.
      rewrite (nextLayer_effect r now' _ env Hr Hcur), Hl, Hp.
      destruct l; reflexivity. }
  split; [intros tg i Hi; now rewrite entry_missing|].
  split; [reflexivity|].
  split.
  - intros tg ns. split; [apply length_imap|apply assign_targets_ignores_extra].
  - intros arr ps. split; [apply length_imap|apply assign_pixels_ignores_extra].
Qed.

(** A run that is not in its pause can be stopped. *)
Lemma progress_stoppable (r : nat) (d : anim_data) (s : state) :
  progress r d s -> timers s = [] -> stoppable s.
Proof.
  intros [l tg h start env _ _ _ _ Hf Hraf _ _|h env _ _ _ _ Ht _
         |env _ _ _ _ Hf _ _] Hno;
    split; try exact Hno.
  - intros p. rewrite Hf. intros [<-|[]]. exact Hraf.
  - rewrite Ht in Hno. discriminate.
  - intros p. rewrite Hf. intros [].
Qed.

(** Outside the pause the cancellation of [animate] works: whenever the
    first run has no timer pending, a second [animate] leaves the browser
    with the first frame request of the new run and nothing else. *)
Lemma second_animate_outside_pause (now now' : Q) (d d' : anim_data)
    (cb cb' : bool) (s : state) (es : list event) :
  stoppable s -> Forall browser_event es ->
  let s1 := exec (animate now d cb s) es in
  timers s1 = [] ->
  let s2 := animate now' d' cb' s1 in
  frames s2 = [(next_handle s1, Step (length (runs s1)) LH1 now')] /\
  timers s2 = [].
Proof.
  intros Hs Hes s1 Hno s2.
  pose proof (progress_exec _ d es _ Hes (animate_progress now d cb s Hs)) as P.
  pose proof (progress_stoppable _ d s1 P Hno) as Hs1.
  destruct (animate_supersedes_pending_frame now' d' cb' s1 Hs1) as (A & _ & B).
  split; assumption.
Qed.

End SchedulerFacts.

Lemma animate_zero_fills_witness :
  NetworkRenderer.animate_checked 0 NetworkRenderer.wave_two true
    (NetworkRenderer.init 0 0) =
  NetworkRenderer.Returns
    (NetworkRenderer.animate 0 NetworkRenderer.wave_two true
       (NetworkRenderer.init 0 0)) /\
  (exists n,
     NetworkRenderer._h1Nodes
       (NetworkRenderer.animate 0 NetworkRenderer.wave_two true
          (NetworkRenderer.init 0 0)) !! 1%nat = Some n /\
     NetworkRenderer.target n = Qmin (1 # 2) 1) /\
  (exists n,
     NetworkRenderer._h1Nodes
       (NetworkRenderer.animate 0 NetworkRenderer.wave_two true
          (NetworkRenderer.init 0 0)) !! 2%nat = Some n /\
     NetworkRenderer.target n = Qmin 0 1) /\
  (exists n,
     NetworkRenderer.get_nodes NetworkRenderer.LH2
       (NetworkRenderer.nextLayer 0 350
          (NetworkRenderer.exec
             (NetworkRenderer.animate 0 NetworkRenderer.wave_two true
                (NetworkRenderer.init 0 0))
             [NetworkRenderer.Frame 280])) !! 0%nat = Some n /\
     NetworkRenderer.target n = Qmin 0 1) /\
  (exists n,
     NetworkRenderer.nodes_of 1 NetworkRenderer.LH2
       (NetworkRenderer.nextLayer 0 350
          (NetworkRenderer.exec
             (NetworkRenderer.animate 0 NetworkRenderer.wave_two true
                (NetworkRenderer.init 0 0))
             [NetworkRenderer.Frame 280; NetworkRenderer.Layout 300 200]))
       !! 0%nat = Some n /\
     NetworkRenderer.target n = Qmin 0 1).
Proof.
  destruct (animate_zero_fills 0 NetworkRenderer.wave_two true
              (NetworkRenderer.init 0 0)) as (Hc & _ & _ & Hh & Hl & _).
  split; [exact Hc|].
  assert (E1 : exists m, NetworkRenderer._h1Nodes (NetworkRenderer.init 0 0)
                           !! 1%nat = Some m)
    by (eexists; vm_compute; reflexivity).
  assert (E2 : exists m, NetworkRenderer._h1Nodes (NetworkRenderer.init 0 0)
                           !! 2%nat = Some m)
    by (eexists; vm_compute; reflexivity).
  destruct E1 as [m1 E1]. destruct E2 as [m2 E2].
  split; [|split; [|split]].
  - rewrite Hh, list_lookup_imap, E1. eexists. split; reflexivity.
  - rewrite Hh, list_lookup_imap, E2. eexists. split; reflexivity.
  - destruct (Hl [NetworkRenderer.Frame 280]) as (env & Hr & _ & _ & _ & Hn).
    vm_compute in Hr. injection Hr as <-.
    assert (Hsame : NetworkRenderer.layout_no
                      (NetworkRenderer.exec
                         (NetworkRenderer.animate 0 NetworkRenderer.wave_two true
                            (NetworkRenderer.init 0 0))
                         [NetworkRenderer.Frame 280]) =
                    NetworkRenderer.layout_no (NetworkRenderer.init 0 0))
      by (vm_compute; reflexivity).
    pose proof (Hn Hsame 350%Q NetworkRenderer.LH2 [] eq_refl) as G.
    change (length (NetworkRenderer.runs (NetworkRenderer.init 0 0)))
      with 0%nat in G.
    rewrite G.
    assert (E3 : exists m,
              NetworkRenderer.get_nodes NetworkRenderer.LH2
                (NetworkRenderer.exec
                   (NetworkRenderer.animate 0 NetworkRenderer.wave_two true
                      (NetworkRenderer.init 0 0))
                   [NetworkRenderer.Frame 280]) !! 0%nat = Some m)
      by (eexists; vm_compute; reflexivity).
    destruct E3 as [m3 E3].
    rewrite list_lookup_imap, E3. eexists. split; reflexivity.
  - destruct (Hl [NetworkRenderer.Frame 280; NetworkRenderer.Layout 300 200])
      as (env & Hr & _ & _ & Hn & _).
    vm_compute in Hr. injection Hr as <-.
    pose proof (Hn 350%Q NetworkRenderer.LH2 [] eq_refl) as G.
    change (length (NetworkRenderer.runs (NetworkRenderer.init 0 0)))
      with 0%nat in G.
    cbn [NetworkRenderer.arrays] in G.
    rewrite G.
    assert (E4 : exists m,
              NetworkRenderer.nodes_of 1 NetworkRenderer.LH2
                (NetworkRenderer.exec
                   (NetworkRenderer.animate 0 NetworkRenderer.wave_two true
                      (NetworkRenderer.init 0 0))
                   [NetworkRenderer.Frame 280; NetworkRenderer.Layout 300 200])
                !! 0%nat = Some m)
      by (eexists; vm_compute; reflexivity).
    destruct E4 as [m4 E4].
    rewrite list_lookup_imap, E4. eexists. split; reflexivity.
Defined.

(** C8, as stated, fails for the preview: after the first wave has set the
    first preview cell to 1, a call without [inputPixels] leaves it at 1,
    while a call with an empty [inputPixels] sets it to 0. *)
Lemma animate_absent_preview_keeps_values :
  (exists p,
     NetworkRenderer._pixels
       (NetworkRenderer.exec (NetworkRenderer.init 0 0)
          (NetworkRenderer.first_layer_done ++
           [NetworkRenderer.Animate 300 NetworkRenderer.wave_two true]))
       !! 0%nat = Some p /\
     NetworkRenderer.val p = 1%Q) /\
  (exists p,
     NetworkRenderer._pixels
       (NetworkRenderer.exec (NetworkRenderer.init 0 0)
          (NetworkRenderer.first_layer_done ++
           [NetworkRenderer.Animate 300 NetworkRenderer.wave_two_cleared true]))
       !! 0%nat = Some p /\
     NetworkRenderer.val p = 0%Q).
Proof.
  split; eexists; (split; [vm_compute; reflexivity|reflexivity]).
Qed.

Lemma reset_does_not_stop_a_paused_run_witness :
  NetworkRenderer.draws
    (NetworkRenderer.reset
       (NetworkRenderer.exec (NetworkRenderer.init 0 0)
          NetworkRenderer.first_layer_done)) =
  S (NetworkRenderer.draws
       (NetworkRenderer.exec (NetworkRenderer.init 0 0)
          NetworkRenderer.first_layer_done)) /\
  (exists n,
     NetworkRenderer.get_nodes NetworkRenderer.LH1
       (NetworkRenderer.reset
          (NetworkRenderer.exec (NetworkRenderer.init 0 0)
             NetworkRenderer.first_layer_done)) !! 0%nat = Some n /\
     NetworkRenderer.act n = 0%Q /\ NetworkRenderer.target n = 0%Q).
Proof.
  destruct reset_does_not_stop_a_paused_run as [H _].
  destruct (H (NetworkRenderer.exec (NetworkRenderer.init 0 0)
                 NetworkRenderer.first_layer_done)) as (Hn & _ & Hd & _).
  split; [exact Hd|].
  destruct (NetworkRenderer.get_nodes NetworkRenderer.LH1 _ !! 0%nat)
    as [n|] eqn:E; [|vm_compute in E; discriminate].
  exists n. split; [reflexivity|].
  exact (Hn NetworkRenderer.LH1 0%nat n E).
Defined.

(* ================================================================== *)
(** * Further properties of the code *)
(* ================================================================== *)

(** ** Loops *)

(** An invariant that speaks of the elements already visited. *)
Lemma fold_left_prefix_invariant {A B : Type} (f : A -> B -> A)
    (P : list B -> A -> Prop) (l : list B) (a : A) :
  P [] a ->
  (forall seen x a', P seen a' -> In x l -> P (seen ++ [x]) (f a' x)) ->
  P l (fold_left f l a).
Proof.
  intros H0 Hstep.
  assert (G : forall rest seen a', P seen a' ->
            (forall x, In x rest -> In x l) ->
            P (seen ++ rest) (fold_left f rest a')).
  { induction rest as [|x rest IH]; intros seen a' Hp Hin; simpl.
    - now rewrite app_nil_r.
    - replace (seen ++ x :: rest) with ((seen ++ [x]) ++ rest)
        by (rewrite <- app_assoc; reflexivity).
      apply IH.
      + apply Hstep; [exact Hp|]. apply Hin. left. reflexivity.
      + intros z Hz. apply Hin. right. exact Hz. }
  apply (G l [] a H0). auto.
Qed.

(* ------------------------------------------------------------------ *)
(** ** The image normaliser: box and crop *)
(* ------------------------------------------------------------------ *)

Section BoxFacts.
Import Preprocessor.

Lemma scan_order_in (W H : nat) (p : nat * nat) :
  In p (scan_order W H) <-> (fst p < H)%nat /\ (snd p < W)%nat.
Proof.
  unfold scan_order. rewrite in_flat_map. split.
  - intros (y & Hy & Hp). apply in_map_iff in Hp. destruct Hp as (x & <- & Hx).
    apply in_seq in Hy, Hx. simpl. lia.
  - intros [Hy Hx]. exists (fst p). split; [apply in_seq; lia|].
    apply in_map_iff. exists (snd p). split; [now destruct p|apply in_seq; lia].
Qed.

Lemma bounding_box_scan_order (c : canvas) :
  bounding_box c =
  fold_left (fun b p => scan_pixel (data c) (width c) (fst p) b (snd p))
            (scan_order (width c) (height c)) (empty_box c).
Proof.
  unfold bounding_box, scan_order. rewrite fold_left_flat_map.
  change {| x0 := width c; y0 := height c; x1 := 0; y1 := 0; found := false |}
    with (empty_box c).
  unfold scan_row.
  assert (E : forall l b y,
            fold_left (scan_pixel (data c) (width c) y) l b =
            fold_left (fun b p => scan_pixel (data c) (width c) (fst p) b (snd p))
                      (map (pair y) l) b).
  { intros l b y. now rewrite fold_left_through_map. }
  generalize (seq 0 (height c)) (empty_box c). intros ys.
  induction ys as [|y ys IH]; intros b; simpl; [reflexivity|].
  now rewrite E, IH.
Qed.

Lemma hull_step (c : canvas) (seen : list (nat * nat)) (b : bbox) (x y : nat) :
  (x < width c)%nat -> (y < height c)%nat -> hull c seen b ->
  hull c (seen ++ [(y, x)]) (scan_pixel (data c) (width c) y b x).
Proof.
  intros Hx Hy [Hno Hyes]. unfold scan_pixel.
  change (ink (data c) ((y * width c + x) * 4)) with (ink_at c x y).
  destruct (ink_at c x y) eqn:Hink.
  - split; [discriminate|]. intros _. cbn [x0 y0 x1 y1 found].
    destruct (found b) eqn:Hf.
    + destruct (Hyes eq_refl) as (Hin & (px0 & A0 & B0 & C0) & (px1 & A1 & B1 & C1)
                                  & (py0 & A2 & B2 & C2) & (py1 & A3 & B3 & C3)).
      split; [|split; [|split; [|split]]].
      * intros p Hp Hi. apply in_app_or in Hp. destruct Hp as [Hp|[<-|[]]].
        -- destruct (Hin p Hp Hi). lia.
        -- simpl. lia.
      * destruct (Nat.min_spec (x0 b) x) as [[_ ->]|[_ ->]].
        -- exists px0. split; [apply in_or_app; now left|now split].
        -- exists (y, x). split; [apply in_or_app; right; now left|now split].
      * destruct (Nat.max_spec (x1 b) x) as [[_ ->]|[_ ->]].
        -- exists (y, x). split; [apply in_or_app; right; now left|now split].
        -- exists px1. split; [apply in_or_app; now left|now split].
      * destruct (Nat.min_spec (y0 b) y) as [[_ ->]|[_ ->]].
        -- exists py0. split; [apply in_or_app; now left|now split].
        -- exists (y, x). split; [apply in_or_app; right; now left|now split].
      * destruct (Nat.max_spec (y1 b) y) as [[_ ->]|[_ ->]].
        -- exists (y, x). split; [apply in_or_app; right; now left|now split].
        -- exists py1. split; [apply in_or_app; now left|now split].
    + destruct (Hno eq_refl) as [-> Hdark]. cbn [empty_box x0 y0 x1 y1].
      rewrite (Nat.min_r (width c) x), (Nat.min_r (height c) y) by lia.
      rewrite !Nat.max_0_l.
      split; [|repeat split;
               (exists (y, x); split; [apply in_or_app; right; now left|now split])].
      intros p Hp Hi. apply in_app_or in Hp. destruct Hp as [Hp|[<-|[]]].
      * rewrite (Hdark p Hp) in Hi. discriminate.
      * simpl. lia.
  - split.
    + intros Hf. destruct (Hno Hf) as [E Hdark]. split; [exact E|].
      intros p Hp. apply in_app_or in Hp. destruct Hp as [Hp|[<-|[]]];
        [now apply Hdark|exact Hink].
    + intros Hf.
      destruct (Hyes Hf) as (Hin & (px0 & A0 & B0) & (px1 & A1 & B1)
                             & (py0 & A2 & B2) & (py1 & A3 & B3)).
      split; [|repeat split;
               [exists px0|exists px1|exists py0|exists py1];
               (split; [apply in_or_app; now left|assumption])].
      intros p Hp Hi. apply in_app_or in Hp. destruct Hp as [Hp|[<-|[]]].
      * now apply Hin.
      * simpl in Hi. congruence.
Qed.

Lemma bounding_box_hull (c : canvas) :
  hull c (scan_order (width c) (height c)) (bounding_box c).
Proof.
  rewrite bounding_box_scan_order.
  apply (fold_left_prefix_invariant
           (fun b p => scan_pixel (data c) (width c) (fst p) b (snd p))
           (hull c)).
  - split; [|discriminate]. intros _. split; [reflexivity|intros p []].
  - intros seen [y x] b Hb Hin. apply scan_order_in in Hin.
    destruct Hin as [Hy Hx]. cbn [fst snd] in *.
    apply hull_step; assumption.
Qed.

(** X1.  When [prepare] has found ink, its box is the smallest rectangle
    around the ink: every ink pixel of the canvas lies between [x0] and
    [x1] and between [y0] and [y1], and each of the four sides holds an ink
    pixel. *)
Theorem bounding_box_is_tight (c : canvas) :
  let b := bounding_box c in
  found b = true ->
  (forall x y, (x < width c)%nat -> (y < height c)%nat ->
     ink_at c x y = true ->
     (x0 b <= x <= x1 b)%nat /\ (y0 b <= y <= y1 b)%nat) /\
  (exists y, (y < height c)%nat /\ ink_at c (x0 b) y = true) /\
  (exists y, (y < height c)%nat /\ ink_at c (x1 b) y = true) /\
  (exists x, (x < width c)%nat /\ ink_at c x (y0 b) = true) /\
  (exists x, (x < width c)%nat /\ ink_at c x (y1 b) = true).
Proof.
  intros b Hf. destruct (bounding_box_hull c) as [_ Hyes]. fold b in Hyes.
  destruct (Hyes Hf) as (Hin & (p0 & A0 & B0 & C0) & (p1 & A1 & B1 & C1)
                         & (p2 & A2 & B2 & C2) & (p3 & A3 & B3 & C3)).
  apply scan_order_in in A0, A1, A2, A3.
  split; [|split; [|split; [|split]]].
  - intros x y Hx Hy Hi. apply (Hin (y, x)); [|exact Hi].
    apply scan_order_in. simpl. lia.
  - exists (fst p0). rewrite <- C0. tauto.
  - exists (fst p1). rewrite <- C1. tauto.
  - exists (snd p2). rewrite <- C2. tauto.
  - exists (snd p3). rewrite <- C3. tauto.
Qed.

(** X2.  When ink was found, the crop of [prepare] lies inside the canvas
    (it never reads outside the source) and contains the box: its left and
    top edges are at or before [x0] and [y0], its right and bottom edges at
    or after [x1] and [y1]. *)
Theorem crop_inside_source (c : canvas) :
  let b := bounding_box c in
  let g := geometry (width c) (height c) b in
  found b = true ->
  (0 <= sx g)%Q /\ (0 <= sy g)%Q /\ (0 <= sw g)%Q /\ (0 <= sh g)%Q /\
  (sx g + sw g <= qn (width c))%Q /\ (sy g + sh g <= qn (height c))%Q /\
  (sx g <= qn (x0 b))%Q /\ (qn (x1 b) <= sx g + sw g)%Q /\
  (sy g <= qn (y0 b))%Q /\ (qn (y1 b) <= sy g + sh g)%Q.
Proof.
  intros b g Hf.
  destruct (bounding_box_ok c) as [Hok _]. fold b in Hok.
  destruct (Hok Hf) as (Hx01 & HxW & Hy01 & HyH).
  destruct (geometry_crop (width c) (height c) b) as (Esx & Esy & Esw & Esh).
  fold g in Esx, Esy, Esw, Esh. rewrite Esw, Esh, Esx, Esy. clear Esx Esy Esw Esh.
  pose proof (qn_lt _ _ HxW) as HxW'. pose proof (qn_lt _ _ HyH) as HyH'.
  pose proof (qn_le _ _ Hx01) as Hx01'. pose proof (qn_le _ _ Hy01) as Hy01'.
  pose proof (qn_le 0 (x0 b) (Nat.le_0_l _)) as Hx0.
  pose proof (qn_le 0 (y0 b) (Nat.le_0_l _)) as Hy0.
  change (qn 0) with 0%Q in Hx0, Hy0.
  set (bw := (qn (x1 b) - qn (x0 b))%Q).
  set (bh := (qn (y1 b) - qn (y0 b))%Q).
  assert (Hbw : (0 <= bw)%Q) by (unfold bw; lra).
  assert (Hbh : (0 <= bh)%Q) by (unfold bh; lra).
  assert (Hm : (0 <= Qmax bw bh)%Q)
    by (apply Qle_trans with bw; [exact Hbw|apply Q.le_max_l]).
  set (pad := (Qmax bw bh * (22 # 100))%Q).
  assert (Hpad : (0 <= pad)%Q) by (unfold pad; lra).
  assert (Sx : (0 <= Qmax 0 (qn (x0 b) - pad) /\
                Qmax 0 (qn (x0 b) - pad) <= qn (x0 b) /\
                qn (x0 b) - pad <= Qmax 0 (qn (x0 b) - pad))%Q).
  { destruct (Q.max_spec 0 (qn (x0 b) - pad)) as [[L E]|[L E]]; rewrite E;
      repeat split; lra. }
  assert (Sy : (0 <= Qmax 0 (qn (y0 b) - pad) /\
                Qmax 0 (qn (y0 b) - pad) <= qn (y0 b) /\
                qn (y0 b) - pad <= Qmax 0 (qn (y0 b) - pad))%Q).
  { destruct (Q.max_spec 0 (qn (y0 b) - pad)) as [[L E]|[L E]]; rewrite E;
      repeat split; lra. }
  revert Sx Sy.
  generalize (Qmax 0 (qn (x0 b) - pad)) (Qmax 0 (qn (y0 b) - pad)).
  intros u v (U0 & U1 & U2) (V0 & V1 & V2).
  assert (Tx : (Qmin (qn (width c) - u) (bw + pad * 2) <= qn (width c) - u /\
                (Qmin (qn (width c) - u) (bw + pad * 2) == qn (width c) - u \/
                 Qmin (qn (width c) - u) (bw + pad * 2) == bw + pad * 2))%Q).
  { destruct (Q.min_spec (qn (width c) - u) (bw + pad * 2)) as [[L E]|[L E]];
      rewrite E; (split; [lra|]); [left; reflexivity|right; reflexivity]. }
  assert (Ty : (Qmin (qn (height c) - v) (bh + pad * 2) <= qn (height c) - v /\
                (Qmin (qn (height c) - v) (bh + pad * 2) == qn (height c) - v \/
                 Qmin (qn (height c) - v) (bh + pad * 2) == bh + pad * 2))%Q).
  { destruct (Q.min_spec (qn (height c) - v) (bh + pad * 2)) as [[L E]|[L E]];
      rewrite E; (split; [lra|]); [left; reflexivity|right; reflexivity]. }
  revert Tx Ty.
  generalize (Qmin (qn (width c) - u) (bw + pad * 2))
             (Qmin (qn (height c) - v) (bh + pad * 2)).
  intros p q (P0 & P1) (Q0 & Q1). unfold bw, bh in *. clearbody pad.
  destruct P1 as [P1|P1]; destruct Q1 as [Q1|Q1]; repeat split; lra.
Qed.

End BoxFacts.

Lemma bounding_box_is_tight_witness :
  Preprocessor.found (Preprocessor.bounding_box Preprocessor.bar_canvas) = true /\
  (exists y, (y < 3)%nat /\
     Preprocessor.ink_at Preprocessor.bar_canvas
       (Preprocessor.x1 (Preprocessor.bounding_box Preprocessor.bar_canvas)) y
     = true).
Proof.
  split; [reflexivity|].
  destruct (bounding_box_is_tight Preprocessor.bar_canvas)
    as (_ & _ & H & _); [reflexivity|exact H].
Defined.

Lemma crop_inside_source_witness :
  (Preprocessor.sx (Preprocessor.geometry 4 3
      (Preprocessor.bounding_box Preprocessor.bar_canvas)) +
   Preprocessor.sw (Preprocessor.geometry 4 3
      (Preprocessor.bounding_box Preprocessor.bar_canvas)) <= qn 4)%Q /\
  (qn 2 <=
   Preprocessor.sx (Preprocessor.geometry 4 3
      (Preprocessor.bounding_box Preprocessor.bar_canvas)) +
   Preprocessor.sw (Preprocessor.geometry 4 3
      (Preprocessor.bounding_box Preprocessor.bar_canvas)))%Q.
Proof.
  destruct (crop_inside_source Preprocessor.bar_canvas)
    as (_ & _ & _ & _ & A & _ & _ & B & _); [reflexivity|].
  split; [exact A|exact B].
Defined.

(* ------------------------------------------------------------------ *)
(** ** One frame of a layer animation *)
(* ------------------------------------------------------------------ *)

Section StepFacts.
Import NetworkRenderer.

Lemma cube_expand (u : Q) : (u ^ 3 == u * u * u)%Q.
Proof. simpl. ring. Qed.

(** From the end of the 280 ms on, [t] and the eased fraction are 1. *)
Lemma ease_of_end (now start : Q) :
  (start + ANIM_DUR <= now)%Q ->
  Qle_bool 1 (fst (ease_of now start)) = true /\
  (snd (ease_of now start) == 1)%Q.
Proof.
  intros Hend. unfold ease_of, ANIM_DUR in *. cbn [fst snd].
  assert (Hx : (1 <= (now - start) / 280)%Q) by (apply Qle_shift_div_l; lra).
  assert (Ht : (Qmin ((now - start) / 280) 1 == 1)%Q) by (apply Q.min_r; exact Hx).
  split.
  - apply Qle_bool_iff. rewrite Ht. lra.
  - rewrite cube_expand, Ht. ring.
Qed.

Lemma ease_nodes_lookup (e : Q) (ns : list node) (i : nat) :
  ease_nodes e ns !! i =
  (fun n => set_act (act n + (target n - act n) * e)%Q n) <$> (ns !! i).
Proof.
  unfold ease_nodes. change (map ?f ?l) with (f <$> l). apply list_lookup_fmap.
Qed.

(** A state with the same node arrays. *)
Lemma nodes_of_same (s s' : state) (g : nat) (l : layer_ref) :
  (forall l', get_nodes l' s' = get_nodes l' s) -> retired s' = retired s ->
  nodes_of g l s' = nodes_of g l s.
Proof.
  intros Hn Hr. unfold nodes_of, layout_no. now rewrite Hr, Hn.
Qed.

(** What surrounds the update of the nodes in [step] leaves the node
    arrays alone. *)
Lemma step_frame (r : nat) (l : layer_ref) (start now : Q) (s : state) :
  let s1 := put_nodes (captured r s) l
              (ease_nodes (snd (ease_of now start))
                          (nodes_of (captured r s) l s)) s in
  (forall l', get_nodes l' (step r l start now s) = get_nodes l' s1) /\
  retired (step r l start now s) = retired s1.
Proof.
  cbv zeta. rewrite step_branches. cbv zeta.
  set (s1 := put_nodes _ _ _ _). clearbody s1.
  destruct (negb (Qle_bool 1 (fst (ease_of now start)))).
  - split; [intros l'; destruct l'; reflexivity|reflexivity].
  - unfold incr_li. change (runs (_draw s1)) with (runs s1).
    destruct (runs s1 !! r);
      (split; [intros l'; destruct l'; reflexivity|reflexivity]).
Qed.

(** [step] moves the nodes of the array its run holds, and of no other. *)
Lemma step_nodes (r : nat) (l l' : layer_ref) (start now : Q) (s : state)
    (g : nat) :
  nodes_of g l' (step r l start now s) =
  if decide (captured r s = g /\ l = l')
  then ease_nodes (snd (ease_of now start)) (nodes_of (captured r s) l s)
  else nodes_of g l' s.
Proof.
  destruct (step_frame r l start now s) as [Hn Hr].
  rewrite (nodes_of_same _ _ g l' Hn Hr).
  apply (nodes_of_put_nodes (captured r s) g l l'
           (ease_nodes (snd (ease_of now start))) s).
  reflexivity.
Qed.

Lemma step_layout_no (r : nat) (l : layer_ref) (start now : Q) (s : state) :
  layout_no (step r l start now s) = layout_no s.
Proof.
  unfold layout_no at 1. rewrite (proj2 (step_frame r l start now s)).
  apply put_nodes_layout_no.
Qed.

Lemma step_get_nodes (r : nat) (l l' : layer_ref) (start now : Q) (s : state) :
  get_nodes l' (step r l start now s) =
  if decide (captured r s = layout_no s /\ l = l')
  then ease_nodes (snd (ease_of now start)) (get_nodes l s)
  else get_nodes l' s.
Proof.
  rewrite <- nodes_of_current, step_layout_no, step_nodes.
  destruct (decide (captured r s = layout_no s /\ l = l')) as [[E _]|_].
  - now rewrite E, nodes_of_current.
  - apply nodes_of_current.
Qed.

Lemma step_nodes_current (r : nat) (l l' : layer_ref) (start now : Q)
    (s : state) :
  captured r s = layout_no s ->
  get_nodes l' (step r l start now s) =
  if decide (l = l')
  then ease_nodes (snd (ease_of now start)) (get_nodes l s)
  else get_nodes l' s.
Proof.
  intros E. rewrite step_get_nodes.
  destruct (decide (l = l')) as [<-|N].
  - destruct (decide (captured r s = layout_no s /\ l = l)) as [_|M];
      [reflexivity|]. elim M. split; [exact E|reflexivity].
  - destruct (decide (captured r s = layout_no s /\ l = l')) as [[_ E']|_];
      [contradiction|reflexivity].
Qed.

(** X4.  The frame that arrives 280 ms or more after the start of a layer
    ends the layer: the canvas is repainted once, no further frame is
    requested and [_raf] is left as it is, the layer counter of the run
    goes up by one and [nextLayer] is put on a timer.  No node array
    changes its length and no node gets another target; the only array
    whose nodes may have moved is the one the run holds for this layer,
    which after a new layout is not the array in use. *)
Theorem step_at_the_end_ends_the_layer (r : nat) (l : layer_ref)
    (start now : Q) (s : state) (env : run_env) :
  runs s !! r = Some env ->
  (start + ANIM_DUR <= now)%Q ->
  let s' := step r l start now s in
  draws s' = S (draws s) /\
  frames s' = frames s /\ _raf s' = _raf s /\
  timers s' = timers s ++ [(next_handle s, NextLayer r)] /\
  runs s' = <[r := {| layers := layers env; li := S (li env);
                      onDone := onDone env;
                      arrays := arrays env |}]> (runs s) /\
  layout_no s' = layout_no s /\
  (forall g l', length (nodes_of g l' s') = length (nodes_of g l' s)) /\
  (forall g l' i n', nodes_of g l' s' !! i = Some n' ->
     exists n, nodes_of g l' s !! i = Some n /\ target n' = target n) /\
  (forall g l', g <> arrays env \/ l' <> l ->
     nodes_of g l' s' = nodes_of g l' s) /\
  (forall l', get_nodes l' s' = nodes_of (layout_no s) l' s').
Proof.
  intros Hr Hend s'. destruct (ease_of_end now start Hend) as [Ht He].
  pose proof (captured_env r s env Hr) as Hcap.
  destruct (put_nodes_keeps (captured r s) l
              (ease_nodes (snd (ease_of now start))
                          (nodes_of (captured r s) l s)) s)
    as (K1 & K2 & K3 & K4 & K5 & K6 & _).
  assert (Hs : s' = setTimeout (NextLayer r)
                      (incr_li r (_draw (put_nodes (captured r s) l
                         (ease_nodes (snd (ease_of now start))
                                     (nodes_of (captured r s) l s)) s)))).
  { unfold s'. rewrite step_branches. cbv zeta. rewrite Ht. reflexivity. }
  assert (Hq : draws s' = S (draws s) /\ frames s' = frames s /\
               _raf s' = _raf s /\
               timers s' = timers s ++ [(next_handle s, NextLayer r)] /\
               runs s' = <[r := {| layers := layers env; li := S (li env);
                                   onDone := onDone env;
                                   arrays := arrays env |}]> (runs s)).
  { rewrite Hs. revert K1 K2 K3 K4 K5 K6.
    generalize (put_nodes (captured r s) l
                  (ease_nodes (snd (ease_of now start))
                              (nodes_of (captured r s) l s)) s).
    intros s1 K1 K2 K3 K4 K5 K6. unfold incr_li.
    change (runs (_draw s1)) with (runs s1). rewrite K1, Hr.
    cbn. rewrite ?K2, ?K3, ?K4, ?K5, ?K6. repeat split. }
  destruct Hq as (Q1 & Q2 & Q3 & Q4 & Q5).
  split; [exact Q1|]. split; [exact Q2|]. split; [exact Q3|].
  split; [exact Q4|]. split; [exact Q5|].
  split; [apply step_layout_no|]. split; [|split; [|split]].
  - intros g l'. unfold s'. rewrite step_nodes.
    destruct (decide (captured r s = g /\ l = l')) as [[<- <-]|_];
      [|reflexivity].
    unfold ease_nodes. apply length_map.
  - intros g l' i n' Hi. unfold s' in Hi. rewrite step_nodes in Hi.
    destruct (decide (captured r s = g /\ l = l')) as [[<- <-]|_];
      [|exists n'; split; [exact Hi|reflexivity]].
    rewrite ease_nodes_lookup in Hi.
    destruct (nodes_of (captured r s) l s !! i) as [n|]; [|discriminate].
    injection Hi as <-. exists n. split; reflexivity.
  - intros g l' Hne. unfold s'. rewrite step_nodes.
    destruct (decide (captured r s = g /\ l = l')) as [[E1 E2]|_];
      [|reflexivity].
    rewrite Hcap in E1. destruct Hne as [N|N]; [now elim N|now elim N].
  - intros l'. rewrite <- (step_layout_no r l start now s).
    symmetry. apply nodes_of_current.
Qed.

End StepFacts.

Lemma step_at_the_end_ends_the_layer_witness :
  NetworkRenderer.timers
    (NetworkRenderer.step 0 NetworkRenderer.LH1 0 280
       (NetworkRenderer.cancelAnimationFrame 1
          (NetworkRenderer.animate 0 NetworkRenderer.wave_one true
             (NetworkRenderer.init 0 0)))) =
  NetworkRenderer.timers
    (NetworkRenderer.cancelAnimationFrame 1
       (NetworkRenderer.animate 0 NetworkRenderer.wave_one true
          (NetworkRenderer.init 0 0)))
  ++ [(NetworkRenderer.next_handle
         (NetworkRenderer.cancelAnimationFrame 1
            (NetworkRenderer.animate 0 NetworkRenderer.wave_one true
               (NetworkRenderer.init 0 0))),
       NetworkRenderer.NextLayer 0)].
Proof.
  destruct (step_at_the_end_ends_the_layer 0 NetworkRenderer.LH1 0 280
              (NetworkRenderer.cancelAnimationFrame 1
                 (NetworkRenderer.animate 0 NetworkRenderer.wave_one true
                    (NetworkRenderer.init 0 0)))
              {| NetworkRenderer.layers :=
                   NetworkRenderer.plan NetworkRenderer.wave_one;
                 NetworkRenderer.li := 0; NetworkRenderer.onDone := true;
                 NetworkRenderer.arrays := 1 |})
    as (_ & _ & _ & H & _); [reflexivity|vm_compute; discriminate|].
  exact H.
Defined.

(* ------------------------------------------------------------------ *)
(** ** Targets stay at or below 1 *)
(* ------------------------------------------------------------------ *)

Section BoundFacts.
Import NetworkRenderer.

Lemma nil_capped : nodes_capped [].
Proof. intros i n E. destruct i; discriminate. Qed.

(** A state with the same node arrays is capped as well. *)
Lemma capped_same_nodes (s s' : state) :
  (forall l, get_nodes l s' = get_nodes l s) -> retired s' = retired s ->
  capped s -> capped s'.
Proof.
  intros E R Hs g l. rewrite (nodes_of_same s s' g l E R). apply Hs.
Qed.

Lemma capped_put_nodes (g : nat) (l : layer_ref) (f : list node -> list node)
    (s : state) :
  f [] = [] -> capped s -> nodes_capped (f (nodes_of g l s)) ->
  capped (put_nodes g l (f (nodes_of g l s)) s).
Proof.
  intros Hf Hs Hns g' l'. rewrite (nodes_of_put_nodes g g' l l' f s Hf).
  destruct (decide (g = g' /\ l = l')); [exact Hns|apply Hs].
Qed.

Lemma assign_targets_capped (tg : list (option Q)) (ns : list node) :
  nodes_capped (assign_targets tg ns).
Proof.
  intros i n. unfold assign_targets. rewrite list_lookup_imap.
  destruct (ns !! i) as [m|]; [|discriminate].
  intros E. injection E as <-. cbn [target set_target]. apply Q.le_min_r.
Qed.

Lemma ease_nodes_capped (e : Q) (ns : list node) :
  nodes_capped ns -> nodes_capped (ease_nodes e ns).
Proof.
  intros Hns i n. rewrite ease_nodes_lookup.
  destruct (ns !! i) as [m|] eqn:E; [|discriminate].
  intros E'. injection E' as <-. cbn [target set_act]. exact (Hns i m E).
Qed.

Lemma zero_nodes_capped (ns : list node) : nodes_capped (map zero_node ns).
Proof.
  intros i n. change (map ?f ?l) with (f <$> l). rewrite list_lookup_fmap.
  destruct (ns !! i); [|discriminate]. intros E. injection E as <-.
  cbn. lra.
Qed.

Lemma nextLayer_capped (r : nat) (now : Q) (s : state) :
  capped s -> capped (nextLayer r now s).
Proof.
  intros Hc. unfold nextLayer.
  destruct (runs s !! r) as [env|]; [|assumption].
  destruct (layers env !! li env) as [[l tg]|].
  - cbv zeta.
    apply (capped_same_nodes
             (put_nodes (arrays env) l
                (assign_targets tg (nodes_of (arrays env) l s)) s));
      [intros l'; destruct l'; reflexivity|reflexivity|].
    apply (capped_put_nodes _ _ (assign_targets tg));
      [reflexivity|exact Hc|apply assign_targets_capped].
  - destruct (onDone env); assumption.
Qed.

Lemma step_capped (r : nat) (l : layer_ref) (start now : Q) (s : state) :
  capped s -> capped (step r l start now s).
Proof.
  intros Hc g l'. rewrite step_nodes.
  destruct (decide (captured r s = g /\ l = l')).
  - apply ease_nodes_capped, Hc.
  - apply Hc.
Qed.

Lemma run_callback_capped (now : Q) (c : callback) (s : state) :
  capped s -> capped (run_callback now c s).
Proof.
  intros Hs. destruct c as [r l start|r]; cbn [run_callback].
  - apply step_capped, Hs.
  - apply nextLayer_capped, Hs.
Qed.

Lemma cancel_capped (h : nat) (s : state) :
  capped s -> capped (cancelAnimationFrame h s).
Proof.
  apply capped_same_nodes; [intros l; destruct l; reflexivity|reflexivity].
Qed.

Lemma cancel_pending_capped (s : state) :
  capped s -> capped (cancel_pending s).
Proof.
  intros Hs. unfold cancel_pending. destruct (_raf s); [|exact Hs].
  apply cancel_capped, Hs.
Qed.

Lemma run_frame_capped (now : Q) (batch : list (nat * callback)) (s : state) :
  capped s -> capped (run_frame now batch s).
Proof.
  revert s. induction batch as [|[h c] rest IH]; intros s Hs; [exact Hs|].
  cbn [run_frame].
  destruct (existsb (fun p => fst p =? h) (frames s)); [|now apply IH].
  apply IH, run_callback_capped, cancel_capped, Hs.
Qed.

Lemma animate_capped (now : Q) (d : anim_data) (cb : bool) (s : state) :
  capped s -> capped (animate now d cb s).
Proof.
  intros Hs. unfold animate. apply nextLayer_capped.
  apply cancel_pending_capped in Hs.
  destruct (inputPixels d);
    apply (capped_same_nodes (cancel_pending s)); try exact Hs;
    try reflexivity; intros l'; destruct l'; reflexivity.
Qed.

Lemma reset_capped (s : state) : capped s -> capped (reset s).
Proof.
  intros Hs. apply cancel_pending_capped in Hs. unfold reset.
  set (s0 := cancel_pending s) in *. clearbody s0.
  intros g l. unfold nodes_of.
  change (layout_no (_draw ?t)) with (layout_no s0).
  change (retired (_draw ?t)) with (retired s0).
  destruct (Nat.eqb_spec g (layout_no s0)) as [E|E].
  - destruct l; cbn; apply zero_nodes_capped.
  - specialize (Hs g l). unfold nodes_of in Hs.
    destruct (Nat.eqb_spec g (layout_no s0)); [contradiction|]. exact Hs.
Qed.

Lemma makeNodes_capped (count : nat) (lx H : Q) :
  nodes_capped (_makeNodes count lx H).
Proof.
  intros i n E. pose proof (lookup_lt_Some _ _ _ E) as Hi.
  rewrite makeNodes_length in Hi. rewrite makeNodes_lookup in E by exact Hi.
  injection E as <-. cbn. lra.
Qed.

(** A new layout retires capped arrays and makes capped ones. *)
Lemma layout_capped (cw ch : nat) (s : state) :
  capped s -> capped (_draw (_layout cw ch s)).
Proof.
  intros Hs g l. unfold nodes_of.
  change (layout_no (_draw (_layout cw ch s))) with
    (length (retired s ++ [(_h1Nodes s, _h2Nodes s, _outNodes s)])).
  change (retired (_draw (_layout cw ch s))) with
    (retired s ++ [(_h1Nodes s, _h2Nodes s, _outNodes s)]).
  rewrite length_app. cbn [length].
  destruct (Nat.eqb_spec g (length (retired s) + 1)) as [E|E].
  - destruct l; apply makeNodes_capped.
  - destruct (lt_eq_lt_dec g (length (retired s))) as [[Hlt|Heq]|Hgt].
    + rewrite lookup_app_l by exact Hlt.
      specialize (Hs g l). unfold nodes_of, layout_no in Hs.
      destruct (Nat.eqb_spec g (length (retired s))); [lia|]. exact Hs.
    + subst g. rewrite lookup_app_r by lia. rewrite Nat.sub_diag.
      cbn [lookup list_lookup].
      specialize (Hs (length (retired s)) l). unfold nodes_of, layout_no in Hs.
      rewrite Nat.eqb_refl in Hs. destruct l; exact Hs.
    + rewrite lookup_ge_None_2; [apply nil_capped|].
      rewrite length_app. cbn [length]. lia.
Qed.

Lemma handle_capped (e : event) (s : state) :
  capped s -> capped (handle s e).
Proof.
  intros Hs. destruct e as [now d cb| |now|h now|cw ch]; cbn [handle].
  - apply animate_capped, Hs.
  - apply reset_capped, Hs.
  - apply run_frame_capped, Hs.
  - destruct (List.find (fun p => fst p =? h) (timers s)) as [[h' c]|];
      [|exact Hs].
    apply run_callback_capped.
    apply (capped_same_nodes s);
      [intros l; destruct l; reflexivity|reflexivity|exact Hs].
  - apply layout_capped, Hs.
Qed.

Lemma exec_capped (es : list event) (s : state) :
  capped s -> capped (exec s es).
Proof.
  revert s. induction es as [|e es IH]; intros s Hs; [exact Hs|].
  cbn [exec fold_left]. apply IH, handle_capped, Hs.
Qed.

Lemma init_capped (cw ch : nat) : capped (init cw ch).
Proof.
  apply layout_capped. intros g l. unfold nodes_of, layout_no.
  cbn [retired length get_nodes _h1Nodes _h2Nodes _outNodes].
  destruct g; [destruct l; apply nil_capped|apply nil_capped].
Qed.

(** X6.  In every execution from the laid-out canvas, whatever arrays of
    numbers are passed to [animate] and however the calls of [animate] and
    [reset], the frames, the timers and the changes of size follow one
    another, no node's target ever exceeds 1: neither in the arrays in use
    nor in an array of an earlier layout that a run still holds. *)
Theorem targets_never_exceed_one (cw ch : nat) (es : list event) :
  (forall l i n,
     get_nodes l (exec (init cw ch) es) !! i = Some n -> (target n <= 1)%Q) /\
  (forall g l i n,
     nodes_of g l (exec (init cw ch) es) !! i = Some n -> (target n <= 1)%Q).
Proof.
  pose proof (exec_capped es (init cw ch) (init_capped cw ch)) as H.
  split.
  - intros l. rewrite <- nodes_of_current. apply H.
  - intros g l. apply H.
Qed.

End BoundFacts.

Lemma targets_never_exceed_one_witness :
  (exists n,
     NetworkRenderer.get_nodes NetworkRenderer.LH1
       (NetworkRenderer.exec (NetworkRenderer.init 0 0)
          (NetworkRenderer.second_call_in_pause ++ NetworkRenderer.play_on))
       !! 0%nat = Some n /\
     (NetworkRenderer.target n <= 1)%Q) /\
  (exists n,
     NetworkRenderer.nodes_of 1 NetworkRenderer.LH2
       (NetworkRenderer.exec (NetworkRenderer.init 0 0)
          (NetworkRenderer.first_layer_done ++
           [NetworkRenderer.Layout 300 200; NetworkRenderer.Timeout 2 350]))
       !! 0%nat = Some n /\
     (NetworkRenderer.target n <= 1)%Q).
Proof.
  split.
  - assert (E : exists n,
              NetworkRenderer.get_nodes NetworkRenderer.LH1
                (NetworkRenderer.exec (NetworkRenderer.init 0 0)
                   (NetworkRenderer.second_call_in_pause ++
                    NetworkRenderer.play_on))
                !! 0%nat = Some n)
      by (eexists; vm_compute; reflexivity).
    destruct E as [n E]. exists n. split; [exact E|].
    exact (proj1 (targets_never_exceed_one 0 0 _) NetworkRenderer.LH1 0%nat n E).
  - assert (E : exists n,
              NetworkRenderer.nodes_of 1 NetworkRenderer.LH2
                (NetworkRenderer.exec (NetworkRenderer.init 0 0)
                   (NetworkRenderer.first_layer_done ++
                    [NetworkRenderer.Layout 300 200;
                     NetworkRenderer.Timeout 2 350]))
                !! 0%nat = Some n)
      by (eexists; vm_compute; reflexivity).
    destruct E as [n E]. exists n. split; [exact E|].
    exact (proj2 (targets_never_exceed_one 0 0 _) 1%nat NetworkRenderer.LH2
             0%nat n E).
Defined.

(* ------------------------------------------------------------------ *)
(** ** A run from its call to its end *)
(* ------------------------------------------------------------------ *)

Section CourseFacts.
Import NetworkRenderer.

(** When [step] takes its last branch the eased fraction is 1. *)
Lemma ease_of_last (now start : Q) :
  Qle_bool 1 (fst (ease_of now start)) = true ->
  (snd (ease_of now start) == 1)%Q.
Proof.
  unfold ease_of, ANIM_DUR. cbn [fst snd]. intros Ht.
  apply Qle_bool_iff in Ht.
  pose proof (Q.le_min_r ((now - start) / 280) 1) as Hle.
  assert (E : (Qmin ((now - start) / 280) 1 == 1)%Q) by lra.
  rewrite cube_expand, E. ring.
Qed.

Lemma course_frame (r : nat) (d : anim_data) (cb : bool) (c0 : list nat)
    (s : state) (now : Q) :
  course r d cb c0 s -> course r d cb c0 (handle s (Frame now)).
Proof.
  intros [l tg h start env Hr Hl Hlo Hcb Hp Hf Ht Ha Hd Hc
         |h env Hr Hl Hlo Hcb Hf Ht Ha Hd Hc
         |env Hr Hl Hlo Hcb Hli Hf Ht Ha Hd Hc];
    cbn [handle]; rewrite Hf; cbn [run_frame];
    [|eapply co_pause; eassumption|eapply co_over; eassumption].
  rewrite Hf. cbn [existsb fst]. rewrite Nat.eqb_refl. cbn [orb run_callback].
  set (s1 := cancelAnimationFrame h s).
  assert (Hf1 : frames s1 = []).
  { unfold s1. cbn [frames cancelAnimationFrame]. rewrite Hf.
    unfold remove_handle. cbn [List.filter fst]. now rewrite Nat.eqb_refl. }
  assert (Hn1 : forall l', get_nodes l' s1 = get_nodes l' s)
    by (intros l'; destruct l'; reflexivity).
  assert (Hr1 : runs s1 !! r = Some env) by exact Hr.
  assert (Hg1 : arrays env = layout_no s1) by exact Hlo.
  assert (Hc1 : captured r s1 = layout_no s1)
    by (rewrite (captured_env r s1 env Hr1); exact Hg1).
  assert (Hother : forall j l' tg', (j < li env)%nat ->
            plan d !! j = Some (l', tg') -> l <> l').
  { intros j l' tg' Hj Hp' <-.
    pose proof (plan_layers_distinct d j (li env) l tg' tg Hp' Hp). lia. }
  assert (Ha' : assigned d (S (li env)) (step r l start now s1)).
  { intros j l' tg' Hj Hp'. rewrite (step_nodes_current r l l' start now s1 Hc1).
    destruct (decide (l = l')) as [<-|Hne].
    - apply ease_nodes_clamped. rewrite Hn1. exact (Ha j l tg' Hj Hp').
    - rewrite Hn1. exact (Ha j l' tg' Hj Hp'). }
  assert (Hd' : landed d (li env) (step r l start now s1)).
  { intros j l' tg' Hj Hp'. rewrite (step_nodes_current r l l' start now s1 Hc1).
    destruct (decide (l = l')) as [E|Hne];
      [now elim (Hother j l' tg' Hj Hp')|].
    rewrite Hn1. exact (Hd j l' tg' Hj Hp'). }
  destruct (Qle_bool 1 (fst (ease_of now start))) eqn:Hlast.
  - (* the last frame of the layer *)
    pose proof (ease_of_last now start Hlast) as He.
    assert (Hs : step r l start now s1 =
                 setTimeout (NextLayer r)
                   (set_runs (<[r := {| layers := layers env; li := S (li env);
                                        onDone := onDone env;
                                        arrays := arrays env |}]> (runs s1))
                      (_draw (set_nodes l
                         (ease_nodes (snd (ease_of now start)) (get_nodes l s1))
                         s1)))).
    { rewrite (step_current r l start now s1 Hc1). cbv zeta.
      rewrite Hlast. cbn [negb].
      unfold incr_li. cbn [runs _draw set_nodes]. rewrite Hr1. reflexivity. }
    apply (co_pause r d cb c0 _ (next_handle s1)
             {| layers := layers env; li := S (li env); onDone := onDone env;
                arrays := arrays env |});
      try assumption.
    + rewrite Hs. cbn [runs setTimeout set_runs].
      apply list_lookup_insert_eq. apply lookup_lt_Some in Hr1. exact Hr1.
    + rewrite Hs. exact Hg1.
    + rewrite Hs. cbn [frames setTimeout set_runs _draw set_nodes]. exact Hf1.
    + rewrite Hs. cbn [timers setTimeout set_runs _draw set_nodes].
      change (timers s1) with (timers s). rewrite Ht. reflexivity.
    + cbn [li]. intros j l' tg' Hj Hp' i n Hi.
      destruct (Nat.eq_dec j (li env)) as [->|Hjk].
      * rewrite Hp in Hp'. injection Hp' as <- <-.
        rewrite (step_nodes_current r l l start now s1 Hc1) in Hi.
        destruct (decide (l = l)); [|congruence].
        rewrite ease_nodes_lookup in Hi.
        destruct (get_nodes l s1 !! i) as [m|]; [|discriminate].
        injection Hi as <-. cbn [act target set_act]. rewrite He. ring.
      * assert (Hj' : (j < li env)%nat) by lia.
        exact (Hd' j l' tg' Hj' Hp' i n Hi).
    + rewrite Hs. exact Hc.
  - (* a frame in between *)
    assert (Hs : step r l start now s1 =
                 requestAnimationFrame (Step r l start)
                   (_draw (set_nodes l
                      (ease_nodes (snd (ease_of now start)) (get_nodes l s1)) s1))).
    { rewrite (step_current r l start now s1 Hc1). cbv zeta.
      rewrite Hlast. reflexivity. }
    apply (co_animating r d cb c0 _ l tg (next_handle s1) start env);
      try assumption.
    + rewrite Hs. exact Hr.
    + rewrite Hs. exact Hg1.
    + rewrite Hs. cbn [frames requestAnimationFrame _draw set_nodes].
      rewrite Hf1. reflexivity.
    + rewrite Hs. exact Ht.
    + rewrite Hs. exact Hc.
Qed.

Lemma course_timeout (r : nat) (d : anim_data) (cb : bool) (c0 : list nat)
    (s : state) (h' : nat) (now : Q) :
  course r d cb c0 s -> course r d cb c0 (handle s (Timeout h' now)).
Proof.
  intros [l tg h start env Hr Hl Hlo Hcb Hp Hf Ht Ha Hd Hc
         |h env Hr Hl Hlo Hcb Hf Ht Ha Hd Hc
         |env Hr Hl Hlo Hcb Hli Hf Ht Ha Hd Hc];
    cbn [handle]; rewrite Ht; cbn [List.find fst];
    [eapply co_animating; eassumption| |eapply co_over; eassumption].
  destruct (Nat.eqb_spec h h') as [->|Hne];
    [|eapply co_pause; eassumption].
  cbn [run_callback].
  set (s1 := clear_timer h' s).
  assert (Ht1 : timers s1 = []).
  { unfold s1. cbn [timers clear_timer]. rewrite Ht.
    unfold remove_handle. cbn [List.filter fst]. now rewrite Nat.eqb_refl. }
  assert (Hn1 : forall l', get_nodes l' s1 = get_nodes l' s)
    by (intros l'; destruct l'; reflexivity).
  assert (Hg1 : arrays env = layout_no s1) by exact Hlo.
  rewrite (nextLayer_effect r now s1 env Hr Hg1), Hl.
  destruct (plan d !! li env) as [[l tg]|] eqn:Hp.
  - assert (Hg : forall l',
              get_nodes l' (requestAnimationFrame (Step r l now)
                 (set_nodes l (assign_targets tg (get_nodes l s1)) s1)) =
              if decide (l = l') then assign_targets tg (get_nodes l s1)
              else get_nodes l' s1)
      by (intros l'; destruct l, l'; reflexivity).
    apply (co_animating r d cb c0 _ l tg (next_handle s1) now env);
      try assumption; try reflexivity.
    + cbn [frames requestAnimationFrame set_nodes].
      change (frames s1) with (frames s). rewrite Hf. reflexivity.
    + intros j l' tg' Hj Hp'. rewrite Hg.
      destruct (decide (l = l')) as [<-|Hne].
      * rewrite (plan_layers_distinct d j (li env) l tg' tg Hp' Hp) in Hp'.
        rewrite Hp in Hp'. injection Hp' as <-. apply assign_targets_clamped.
      * rewrite Hn1. apply (Ha j l' tg'); [|exact Hp'].
        destruct (Nat.eq_dec j (li env)) as [->|Hjk]; [|lia].
        rewrite Hp in Hp'. injection Hp' as <- _. now elim Hne.
    + intros j l' tg' Hj Hp'. rewrite Hg.
      destruct (decide (l = l')) as [<-|Hne].
      * pose proof (plan_layers_distinct d j (li env) l tg' tg Hp' Hp). lia.
      * rewrite Hn1. exact (Hd j l' tg' Hj Hp').
  - apply plan_lookup_none in Hp. subst cb.
    destruct (onDone env) eqn:Ecb.
    + apply (co_over r d true c0 (call_onDone r s1) env); try assumption.
      cbn [completed call_onDone]. change (completed s1) with (completed s).
      now rewrite Hc.
    + apply (co_over r d false c0 s1 env); assumption.
Qed.

Lemma course_exec (r : nat) (d : anim_data) (cb : bool) (c0 : list nat)
    (es : list event) (s : state) :
  Forall browser_event es -> course r d cb c0 s -> course r d cb c0 (exec s es).
Proof.
  intros Hes. revert s. induction Hes as [|e es He _ IH]; intros s Hp; [exact Hp|].
  cbn [exec fold_left]. apply IH.
  destruct e as [| |now|h now|]; try contradiction.
  - apply course_frame, Hp.
  - apply course_timeout, Hp.
Qed.

Lemma animate_completed (now : Q) (d : anim_data) (cb : bool) (s : state) :
  completed (animate now d cb s) = completed s.
Proof.
  rewrite animate_unfold. unfold cancel_pending.
  destruct (_raf s); destruct (inputPixels d); reflexivity.
Qed.

Lemma animate_course (now : Q) (d : anim_data) (cb : bool) (s : state) :
  stoppable s ->
  course (length (runs s)) d cb (completed s) (animate now d cb s).
Proof.
  intros Hs.
  destruct (animate_supersedes_pending_frame now d cb s Hs) as (Hf & Hraf & Ht).
  apply (co_animating _ d cb _ _ LH1 (or_empty (h1Acts d)) (next_handle s) now
           {| layers := plan d; li := 0; onDone := cb;
              arrays := layout_no s |});
    try assumption; try reflexivity.
  - rewrite animate_unfold. destruct (cancel_pending_keeps s) as (Hr & _).
    destruct (inputPixels d); cbn; rewrite Hr;
      rewrite lookup_app_r by lia; rewrite Nat.sub_diag; reflexivity.
  - symmetry. apply animate_layout_no.
  - intros j l tg Hj Hp. cbn [li] in Hj.
    assert (j = 0%nat) as -> by lia.
    injection Hp as <- <-. cbn [get_nodes].
    rewrite animate_first_layer. apply assign_targets_clamped.
  - intros j l tg Hj. cbn [li] in Hj. lia.
  - apply animate_completed.
Qed.

(** X7.  A run that was started on a stoppable scheduler and is left alone
    with the browser starts all its layers and leaves the targets it was
    given: once no frame and no timer is pending, every node [i] of each
    of the three layers has the target [min(targets[i] ?? 0, 1)]. *)
Theorem finished_run_has_set_every_target (now : Q) (d : anim_data) (cb : bool)
    (s : state) (es : list event) :
  stoppable s -> Forall browser_event es ->
  let s' := exec (animate now d cb s) es in
  frames s' = [] -> timers s' = [] ->
  forall j l tg, plan d !! j = Some (l, tg) ->
  forall i n, get_nodes l s' !! i = Some n ->
              target n = Qmin (entry tg i) 1.
Proof.
  intros Hs Hes s' Hf Ht j l tg Hp i n Hi.
  pose proof (course_exec _ d cb _ es _ Hes (animate_course now d cb s Hs)) as C.
  fold s' in C.
  destruct C as [l0 tg0 h start env _ _ _ _ _ Hf0 _ _ _ _
                |h env _ _ _ _ _ Ht0 _ _ _
                |env _ _ _ _ Hli _ _ Ha _ _];
    [rewrite Hf in Hf0; discriminate|rewrite Ht in Ht0; discriminate|].
  assert (Hj : (j < li env)%nat).
  { apply lookup_lt_Some in Hp. unfold plan in Hp. simpl in Hp. lia. }
  exact (Ha j l tg Hj Hp i n Hi).
Qed.

(** X8.  Such a run calls [onDone] once, at its end, and not before: as
    long as a frame or a timer is pending the list of reported runs is as
    it was when [animate] was called, and once nothing is pending the run
    has been added to it exactly when a callback was given. *)
Theorem onDone_is_called_once_at_the_end (now : Q) (d : anim_data) (cb : bool)
    (s : state) (es : list event) :
  stoppable s -> Forall browser_event es ->
  let s' := exec (animate now d cb s) es in
  (frames s' = [] /\ timers s' = [] ->
   completed s' = if cb then length (runs s) :: completed s else completed s) /\
  (frames s' <> [] \/ timers s' <> [] -> completed s' = completed s).
Proof.
  intros Hs Hes s'.
  pose proof (course_exec _ d cb _ es _ Hes (animate_course now d cb s Hs)) as C.
  fold s' in C.
  destruct C as [l0 tg0 h start env _ _ _ _ _ Hf0 Ht0 _ _ Hc
                |h env _ _ _ _ Hf0 Ht0 _ _ Hc
                |env _ _ _ _ _ Hf0 Ht0 _ _ Hc]; split.
  - intros [Hf _]. rewrite Hf in Hf0. discriminate.
  - intros _. exact Hc.
  - intros [_ Ht]. rewrite Ht in Ht0. discriminate.
  - intros _. exact Hc.
  - intros _. exact Hc.
  - intros [Hf|Ht]; [now elim Hf|now elim Ht].
Qed.

Lemma exec_nothing_pending (es : list event) (s : state) :
  Forall browser_event es -> frames s = [] -> timers s = [] -> exec s es = s.
Proof.
  intros Hes Hf Ht. induction Hes as [|e es He _ IH]; [reflexivity|].
  cbn [exec fold_left].
  assert (E : handle s e = s).
  { destruct e as [| |now|h now|]; try contradiction; cbn [handle].
    - rewrite Hf. reflexivity.
    - rewrite Ht. reflexivity. }
  rewrite E. exact IH.
Qed.

(** X9.  A [reset] on a stoppable scheduler (no run in its pause) is
    final: nothing stays pending, and no later frame or timer changes the
    state, so every node and preview cell stays at 0. *)
Theorem reset_outside_pause_is_final (s : state) (es : list event) :
  stoppable s -> Forall browser_event es ->
  frames (reset s) = [] /\ timers (reset s) = [] /\
  exec (reset s) es = reset s.
Proof.
  intros Hs Hes.
  destruct (cancel_pending_stoppable s Hs) as [Hf Ht].
  assert (Hf' : frames (reset s) = []) by exact Hf.
  assert (Ht' : timers (reset s) = []) by exact Ht.
  split; [exact Hf'|]. split; [exact Ht'|].
  now apply exec_nothing_pending.
Qed.

Lemma stoppableb_true (s : state) : stoppableb s = true -> stoppable s.
Proof.
  unfold stoppableb, stoppable. destruct (timers s); [|discriminate].
  intros Hall. split; [reflexivity|]. intros p Hin.
  rewrite forallb_forall in Hall. specialize (Hall p Hin).
  destruct (_raf s) as [h|]; [|discriminate].
  apply Nat.eqb_eq in Hall. now rewrite Hall.
Qed.

End CourseFacts.

Lemma finished_run_has_set_every_target_witness :
  NetworkRenderer.stoppable (NetworkRenderer.init 0 0) /\
  (exists n,
     NetworkRenderer.get_nodes NetworkRenderer.LH1
       (NetworkRenderer.exec
          (NetworkRenderer.animate 0 NetworkRenderer.wave_two true
             (NetworkRenderer.init 0 0))
          NetworkRenderer.full_schedule) !! 1%nat = Some n /\
     NetworkRenderer.target n = Qmin (1 # 2) 1).
Proof.
  assert (Hs : NetworkRenderer.stoppable (NetworkRenderer.init 0 0))
    by (apply stoppableb_true; vm_compute; reflexivity).
  split; [exact Hs|].
  assert (Hes : Forall NetworkRenderer.browser_event NetworkRenderer.full_schedule)
    by (repeat constructor).
  pose proof (finished_run_has_set_every_target 0 NetworkRenderer.wave_two true
                (NetworkRenderer.init 0 0) NetworkRenderer.full_schedule Hs Hes)
    as H.
  cbv zeta in H.
  assert (Hf : NetworkRenderer.frames
                 (NetworkRenderer.exec
                    (NetworkRenderer.animate 0 NetworkRenderer.wave_two true
                       (NetworkRenderer.init 0 0))
                    NetworkRenderer.full_schedule) = [])
    by (vm_compute; reflexivity).
  assert (Ht : NetworkRenderer.timers
                 (NetworkRenderer.exec
                    (NetworkRenderer.animate 0 NetworkRenderer.wave_two true
                       (NetworkRenderer.init 0 0))
                    NetworkRenderer.full_schedule) = [])
    by (vm_compute; reflexivity).
  specialize (H Hf Ht 0%nat NetworkRenderer.LH1 [None; Some (1 # 2)%Q] eq_refl
                1%nat).
  assert (E : exists n,
            NetworkRenderer.get_nodes NetworkRenderer.LH1
              (NetworkRenderer.exec
                 (NetworkRenderer.animate 0 NetworkRenderer.wave_two true
                    (NetworkRenderer.init 0 0))
                 NetworkRenderer.full_schedule) !! 1%nat = Some n)
    by (eexists; vm_compute; reflexivity).
  destruct E as [n E]. exists n. split; [exact E|]. exact (H n E).
Defined.

Lemma onDone_is_called_once_at_the_end_witness :
  NetworkRenderer.completed
    (NetworkRenderer.exec
       (NetworkRenderer.animate 0 NetworkRenderer.wave_two true
          (NetworkRenderer.init 0 0))
       NetworkRenderer.full_schedule) = [0%nat] /\
  NetworkRenderer.completed
    (NetworkRenderer.exec
       (NetworkRenderer.animate 0 NetworkRenderer.wave_two true
          (NetworkRenderer.init 0 0))
       [NetworkRenderer.Frame 280]) = [].
Proof.
  assert (Hs : NetworkRenderer.stoppable (NetworkRenderer.init 0 0))
    by (apply stoppableb_true; vm_compute; reflexivity).
  split.
  - destruct (onDone_is_called_once_at_the_end 0 NetworkRenderer.wave_two true
                (NetworkRenderer.init 0 0) NetworkRenderer.full_schedule Hs)
      as [H _]; [repeat constructor|].
    apply H. split; vm_compute; reflexivity.
  - destruct (onDone_is_called_once_at_the_end 0 NetworkRenderer.wave_two true
                (NetworkRenderer.init 0 0) [NetworkRenderer.Frame 280] Hs)
      as [_ H]; [repeat constructor|].
    apply H. right. vm_compute. discriminate.
Defined.

Lemma reset_outside_pause_is_final_witness :
  NetworkRenderer.stoppable
    (NetworkRenderer.exec (NetworkRenderer.init 0 0)
       NetworkRenderer.first_layer_running) /\
  NetworkRenderer.exec
    (NetworkRenderer.reset
       (NetworkRenderer.exec (NetworkRenderer.init 0 0)
          NetworkRenderer.first_layer_running))
    [NetworkRenderer.Frame 280; NetworkRenderer.Timeout 2 350] =
  NetworkRenderer.reset
    (NetworkRenderer.exec (NetworkRenderer.init 0 0)
       NetworkRenderer.first_layer_running).
Proof.
  assert (Hs : NetworkRenderer.stoppable
                 (NetworkRenderer.exec (NetworkRenderer.init 0 0)
                    NetworkRenderer.first_layer_running))
    by (apply stoppableb_true; vm_compute; reflexivity).
  split; [exact Hs|].
  assert (Hes : Forall NetworkRenderer.browser_event
                  [NetworkRenderer.Frame 280; NetworkRenderer.Timeout 2 350])
    by (repeat constructor).
  exact (proj2 (proj2 (reset_outside_pause_is_final _ _ Hs Hes))).
Defined.

(* ------------------------------------------------------------------ *)
(** ** The preview grid and the node columns on the canvas *)
(* ------------------------------------------------------------------ *)

Section GridFacts.
Import NetworkRenderer.

Lemma or_default_pos (client fallback : nat) :
  (0 < fallback)%nat -> (0 < or_default client fallback)%Q.
Proof.
  intros Hf. unfold or_default. change 0%Q with (qn 0).
  destruct (Nat.eqb_spec client 0); apply qn_lt; lia.
Qed.

Lemma cell_size_bounds (W H : Q) :
  (0 < W)%Q -> (0 < H)%Q ->
  (0 < cell_size W H)%Q /\ (cell_size W H <= 9)%Q /\
  (14 * cell_size W H <= W * (17 # 100))%Q /\
  (14 * cell_size W H <= H * (75 # 100))%Q.
Proof.
  intros HW HH. unfold cell_size. change (qn PIX_COLS) with 14%Q.
  change (qn PIX_ROWS) with 14%Q.
  assert (Ea : (W / 5 * (85 # 100) / 14 == W * (17 # 1400))%Q) by field.
  assert (Eb : (H * (75 # 100) / 14 == H * (75 # 1400))%Q) by field.
  rewrite Ea, Eb.
  pose proof (Q.le_min_l (Qmin (W * (17 # 1400)) (H * (75 # 1400))) 9) as L1.
  pose proof (Q.le_min_r (Qmin (W * (17 # 1400)) (H * (75 # 1400))) 9) as L2.
  pose proof (Q.le_min_l (W * (17 # 1400)) (H * (75 # 1400))) as L3.
  pose proof (Q.le_min_r (W * (17 # 1400)) (H * (75 # 1400))) as L4.
  assert (P : (0 < Qmin (Qmin (W * (17 # 1400)) (H * (75 # 1400))) 9)%Q).
  { apply Q.min_glb_lt; [apply Q.min_glb_lt|]; lra. }
  repeat split; lra.
Qed.

Lemma make_pixels_length (W H : Q) : length (make_pixels W H) = 196%nat.
Proof. reflexivity. Qed.

(** X10.  [_layout] makes 196 preview cells on a grid of one positive pitch
    of at most 9, the centre of the cell in row [r] and column [c] at
    [cx(0) - 14 pitch / 2 + c pitch + pitch / 2] and
    [H/2 - 14 pitch / 2 + r pitch + pitch / 2], each with [val] 0 and with
    the stored width and height [pitch - 1].  The pitch is 1 or
    more exactly when the parent is at least 1400/17 wide and 56/3 high;
    then the rectangle painted for a cell has a width and height from 0 to
    8, lies strictly between 0.115 W and 0.285 W (left of the first column
    of nodes at 0.4 W) and strictly between H/8 and 7H/8, and ends before
    the rectangle of the next column begins.  For a smaller parent the
    stored width and height are negative.  Every node lies strictly
    between the top and the bottom of the canvas, with [act] and [target]
    0 and [idx] its position. *)
Theorem layout_keeps_everything_on_canvas (cw ch : nat) (s : state) :
  let W := or_default cw 260 in
  let H := or_default ch 500 in
  let s' := _layout cw ch s in
  let pitch := cell_size W H in
  (0 < W)%Q /\ (0 < H)%Q /\ (0 < pitch <= 9)%Q /\
  ((1 <= pitch)%Q <-> (1400 <= 17 * W)%Q /\ (56 <= 3 * H)%Q) /\
  length (_pixels s') = 196%nat /\
  (forall r c, (r < 14)%nat -> (c < 14)%nat ->
     exists p, _pixels s' !! (r * 14 + c)%nat = Some p /\
       val p = 0%Q /\
       (px p == cx W 0 - pitch * qn PIX_COLS / 2 + qn c * pitch + pitch / 2)%Q /\
       (py p == H / 2 - pitch * qn PIX_ROWS / 2 + qn r * pitch + pitch / 2)%Q /\
       exists left top w h,
         cell_rect p = (left, top, w, h) /\
         w = (pitch - 1)%Q /\ h = (pitch - 1)%Q /\
         ((pitch < 1)%Q -> (w < 0)%Q /\ (h < 0)%Q) /\
         ((1 <= pitch)%Q ->
          (0 <= w <= 8)%Q /\ (0 <= h <= 8)%Q /\
          (W * (115 # 1000) < left)%Q /\ (left + w < W * (285 # 1000))%Q /\
          (H * (1 # 8) < top)%Q /\ (top + h < H * (7 # 8))%Q /\
          forall q, _pixels s' !! (r * 14 + S c)%nat = Some q ->
                    (S c < 14)%nat ->
                    (left + w < px q - pw q / 2)%Q)) /\
  (forall l i n, get_nodes l s' !! i = Some n ->
     (0 < y n < H)%Q /\ act n = 0%Q /\ target n = 0%Q /\ idx n = i).
Proof.
  intros W H s' pitch.
  assert (HW : (0 < W)%Q) by (apply or_default_pos; lia).
  assert (HH : (0 < H)%Q) by (apply or_default_pos; lia).
  destruct (cell_size_bounds W H HW HH) as (C0 & C9 & CW & CH).
  fold pitch in C0, C9, CW, CH.
  assert (Hone : (1 <= pitch)%Q <-> (1400 <= 17 * W)%Q /\ (56 <= 3 * H)%Q).
  { split; [intros H1; split; lra|]. intros [A B].
    unfold pitch, cell_size. change (qn PIX_COLS) with 14%Q.
    change (qn PIX_ROWS) with 14%Q.
    assert (Ea : (W / 5 * (85 # 100) / 14 == W * (17 # 1400))%Q) by field.
    assert (Eb : (H * (75 # 100) / 14 == H * (75 # 1400))%Q) by field.
    rewrite Ea, Eb. apply Q.min_glb; [apply Q.min_glb|]; lra. }
  assert (Lk : forall r c, (r < 14)%nat -> (c < 14)%nat ->
            _pixels s' !! (r * 14 + c)%nat =
            Some {| px := (cx W 0 - pitch * qn PIX_COLS / 2
                           + qn c * pitch + pitch / 2)%Q;
                    py := (H / 2 - pitch * qn PIX_ROWS / 2
                           + qn r * pitch + pitch / 2)%Q;
                    pw := (pitch - 1)%Q; ph := (pitch - 1)%Q; val := 0 |}).
  { intros r c Hr Hc.
    assert (E : _pixels s' = make_pixels W H) by reflexivity. rewrite E.
    unfold make_pixels.
    rewrite (grid_lookup _ PIX_COLS PIX_ROWS 0 r c Hr Hc).
    rewrite Nat.add_0_l. reflexivity. }
  split; [exact HW|]. split; [exact HH|]. split; [split; assumption|].
  split; [exact Hone|].
  split; [apply make_pixels_length|]. split.
  - intros r c Hr Hc. rewrite (Lk r c Hr Hc).
    eexists. split; [reflexivity|]. cbn [px py pw ph val cell_rect].
    unfold cx. change (qn 0) with 0%Q. change (qn PIX_COLS) with 14%Q.
    change (qn PIX_ROWS) with 14%Q.
    assert (Ec : (0 <= qn c <= 13)%Q).
    { split; [apply qn_nonneg|]. change 13%Q with (qn 13). apply qn_le. lia. }
    assert (Er : (0 <= qn r <= 13)%Q).
    { split; [apply qn_nonneg|]. change 13%Q with (qn 13). apply qn_le. lia. }
    split; [reflexivity|]. split; [reflexivity|]. split; [reflexivity|].
    eexists _, _, _, _. split; [reflexivity|].
    split; [reflexivity|]. split; [reflexivity|].
    cbn [px py pw ph]. fold pitch.
    split; [intros Hlt; split; lra|].
    intros H1.
    assert (Ex' : (W * (0 + 1) / 5 - pitch * 14 / 2 + qn c * pitch + pitch / 2
                   - (pitch - 1) / 2 ==
                   W * (1 # 5) + (qn c - 7) * pitch + (1 # 2))%Q) by field.
    assert (Ey' : (H / 2 - pitch * 14 / 2 + qn r * pitch + pitch / 2
                   - (pitch - 1) / 2 ==
                   H * (1 # 2) + (qn r - 7) * pitch + (1 # 2))%Q) by field.
    rewrite Ex', Ey'.
    assert (Hnb : forall q, _pixels s' !! (r * 14 + S c)%nat = Some q ->
              (S c < 14)%nat ->
              (W * (0 + 1) / 5 - pitch * 14 / 2 + qn c * pitch + pitch / 2
               - (pitch - 1) / 2 + (pitch - 1)
               < px q - pw q / 2)%Q).
    { intros q Hq Hc'. rewrite (Lk r (S c) Hr Hc') in Hq. injection Hq as <-.
      cbn [px pw]. unfold cx. change (qn 0) with 0%Q.
      change (qn PIX_COLS) with 14%Q.
      assert (En : (W * (0 + 1) / 5 - pitch * 14 / 2 + qn (S c) * pitch
                    + pitch / 2 - (pitch - 1) / 2 ==
                    W * (1 # 5) + (qn c - 6) * pitch + (1 # 2))%Q)
        by (rewrite qn_S; field).
      rewrite Ex', En. lra. }
    split; [split; lra|]. split; [split; lra|].
    clear Ex' Ey' Lk Hone.
    revert C0 C9 CW CH H1 Hnb. generalize pitch. intros k C0 C9 CW CH H1 Hnb.
    destruct Ec as [c0 c13]. destruct Er as [r0 r13].
    split; [nra|]. split; [nra|]. split; [nra|]. split; [nra|].
    exact Hnb.
  - intros l i n Hi.
    assert (E : get_nodes l s' =
                _makeNodes (node_count l) (cx W (match l with
                                                 | LH1 => 1 | LH2 => 2 | LOut => 3
                                                 end)) H)
      by (destruct l; reflexivity).
    rewrite E in Hi. pose proof (lookup_lt_Some _ _ _ Hi) as Hlt.
    rewrite makeNodes_length in Hlt. rewrite makeNodes_lookup in Hi by exact Hlt.
    injection Hi as <-. cbn [y act target idx].
    split; [|repeat split].
    pose proof (qn_nonneg i) as Hi0.
    assert (Hin : (qn i + 1 <= qn (node_count l))%Q).
    { rewrite <- qn_S. apply qn_le. lia. }
    revert Hin. generalize (qn (node_count l)). intros N Hin.
    assert (EN : (H / (N + 1) * (qn i + 1) == H * ((qn i + 1) / (N + 1)))%Q)
      by (field; lra).
    rewrite EN.
    assert (F0 : (0 < (qn i + 1) / (N + 1))%Q) by (apply Qlt_shift_div_l; lra).
    assert (F1 : ((qn i + 1) / (N + 1) < 1)%Q) by (apply Qlt_shift_div_r; lra).
    revert F0 F1. generalize ((qn i + 1) / (N + 1))%Q. intros f F0 F1.
    split; nra.
Qed.

End GridFacts.

Lemma layout_keeps_everything_on_canvas_witness :
  (0 < NetworkRenderer.cell_size (NetworkRenderer.or_default 300 260)
         (NetworkRenderer.or_default 0 500) <= 9)%Q /\
  (exists n,
     NetworkRenderer.get_nodes NetworkRenderer.LOut
       (NetworkRenderer._layout 300 0 (NetworkRenderer.init 0 0)) !! 9%nat
     = Some n /\
     (0 < NetworkRenderer.y n < NetworkRenderer.or_default 0 500)%Q).
Proof.
  destruct (layout_keeps_everything_on_canvas 300 0 (NetworkRenderer.init 0 0))
    as (_ & _ & Hc & _ & _ & _ & Hn).
  split; [exact Hc|].
  assert (E : exists n,
            NetworkRenderer.get_nodes NetworkRenderer.LOut
              (NetworkRenderer._layout 300 0 (NetworkRenderer.init 0 0))
              !! 9%nat = Some n)
    by (eexists; reflexivity).
  destruct E as [n E]. exists n. split; [exact E|].
  exact (proj1 (Hn NetworkRenderer.LOut 9%nat n E)).
Defined.

(* ------------------------------------------------------------------ *)
(** ** The module's flags, [predict] and [getActivations] *)
(* ------------------------------------------------------------------ *)

Section ModelFacts.
Import MnistModel.

Lemma drop_run_In (r r' : nat) (ph : phase) (l : list (nat * phase)) :
  In (r', ph) (drop_run r l) -> In (r', ph) l.
Proof. unfold drop_run. intros H. apply List.filter_In in H. exact (proj1 H). Qed.

Lemma resume_cases (r : nat) (ok : bool) (s : mstate) :
  resume r ok s = s \/
  exists ph, In (r, ph) (suspended s) /\
    resume r ok s =
    if negb ok then on_catch r s
    else
      match ph with
      | AwaitData =>
          {| _model := Some r; _trained := _trained s;
             _training := _training s;
             suspended := drop_run r (suspended s) ++ [(r, AwaitFit)];
             next_run := next_run s;
             effects := BuildModel r :: effects s |}
      | AwaitFit =>
          {| _model := _model s; _trained := true; _training := false;
             suspended := drop_run r (suspended s);
             next_run := next_run s;
             effects := OnDone r :: effects s |}
      end.
Proof.
  unfold resume.
  destruct (List.find _ (suspended s)) as [[r0 ph]|] eqn:E; [|left; reflexivity].
  right. exists ph. apply List.find_some in E. destruct E as [Hin Heq].
  simpl in Heq. apply Nat.eqb_eq in Heq. subst r0. split; [exact Hin|reflexivity].
Qed.

Lemma ready_inv_initial : ready_inv initial.
Proof.
  repeat split; simpl; try discriminate.
  - intros [r []].
  - intros r [].
Qed.

Lemma mstep_ready_inv (s : mstate) (e : mevent) :
  ready_inv s -> ready_inv (mstep s e).
Proof.
  intros (Ht & Hf & Hm). destruct e as [|r ok]; simpl.
  - unfold train. destruct (_training s); [repeat split; tauto|].
    split; [|split]; simpl.
    + rewrite Ht. split; intros [r Hr]; exists r; [right; exact Hr|].
      destruct Hr as [Hr|Hr]; [discriminate|exact Hr].
    + intros r Hr. apply in_app_or in Hr. destruct Hr as [Hr|[Hr|[]]].
      * exact (Hf r Hr).
      * discriminate.
    + exact Hm.
  - destruct (resume_cases r ok s) as [->|(ph & Hin & ->)];
      [repeat split; tauto|].
    destruct ok; simpl.
    + destruct ph; (split; [|split]); simpl.
      * rewrite Ht. split; intros [r' Hr]; exists r'; [right; exact Hr|].
        destruct Hr as [Hr|Hr]; [discriminate|exact Hr].
      * intros _ _. exists r. reflexivity.
      * intros _. exists r. reflexivity.
      * split; [intros _; exists r; left; reflexivity|reflexivity].
      * intros r' Hr. apply drop_run_In in Hr. exact (Hf r' Hr).
      * intros _. exact (Hf r Hin).
    + split; [|split]; simpl.
      * rewrite Ht. split; intros [r' Hr]; exists r'; [right; exact Hr|].
        destruct Hr as [Hr|Hr]; [discriminate|exact Hr].
      * intros r' Hr. apply drop_run_In in Hr. exact (Hf r' Hr).
      * exact Hm.
Qed.

Lemma mexec_ready_inv (es : list mevent) (s : mstate) :
  ready_inv s -> ready_inv (mexec s es).
Proof.
  revert s. induction es as [|e es IH]; intros s Hs; simpl; [exact Hs|].
  apply IH, mstep_ready_inv, Hs.
Qed.

Lemma fresh_ids_initial : fresh_ids initial.
Proof. split; simpl; intros; contradiction. Qed.

Lemma mstep_fresh_ids (s : mstate) (e : mevent) :
  fresh_ids s -> fresh_ids (mstep s e).
Proof.
  intros (Hs & He). destruct e as [|r ok]; simpl.
  - unfold train. destruct (_training s); [split; assumption|].
    split; simpl.
    + intros r ph Hr. apply in_app_or in Hr. destruct Hr as [Hr|[Hr|[]]].
      * specialize (Hs r ph Hr). lia.
      * inversion Hr. lia.
    + intros r [Hr|Hr]; [discriminate|]. specialize (He r Hr). lia.
  - destruct (resume_cases r ok s) as [->|(ph & Hin & ->)];
      [split; assumption|].
    pose proof (Hs r ph Hin) as Hr.
    destruct ok; simpl.
    + destruct ph; split; simpl.
      * intros r' ph' H. apply in_app_or in H. destruct H as [H|[H|[]]].
        -- apply drop_run_In in H. exact (Hs r' ph' H).
        -- inversion H. subst. exact Hr.
      * intros r' [H|H]; [discriminate|exact (He r' H)].
      * intros r' ph' H. apply drop_run_In in H. exact (Hs r' ph' H).
      * intros r' [H|H]; [inversion H; subst; exact Hr|exact (He r' H)].
    + split; simpl.
      * intros r' ph' H. apply drop_run_In in H. exact (Hs r' ph' H).
      * intros r' [H|H]; [discriminate|exact (He r' H)].
Qed.

Lemma mexec_fresh_ids (es : list mevent) (s : mstate) :
  fresh_ids s -> fresh_ids (mexec s es).
Proof.
  revert s. induction es as [|e es IH]; intros s Hs; simpl; [exact Hs|].
  apply IH, mstep_fresh_ids, Hs.
Qed.

(** X11.  Whatever calls of [train] and settlements came before,
    [predict] throws its "Model not trained." error exactly when no run
    has completed yet, and it never dereferences a missing model. *)
Theorem predict_fails_only_before_the_first_training
    (es : list mevent) (output : nat -> list Q) :
  let s := mexec initial es in
  (predict s output = inl NotTrained <->
   forall r, ~ In (OnDone r) (effects s)) /\
  predict s output <> inl NoModel.
Proof.
  intros s.
  destruct (mexec_ready_inv es initial ready_inv_initial) as (Ht & _ & Hm).
  fold s in Ht, Hm. unfold predict.
  destruct (_trained s) eqn:E; simpl.
  - destruct (Hm eq_refl) as [m ->].
    split.
    + split.
      * destruct (take 5 _); discriminate.
      * intros Hn. destruct (proj1 Ht eq_refl) as [r Hr]. elim (Hn r Hr).
    + destruct (take 5 _); discriminate.
  - split; [|discriminate].
    split; [|reflexivity].
    intros _ r Hr. assert (false = true) by (apply Ht; exists r; exact Hr).
    discriminate.
Qed.

Lemma predict_of_model (s : mstate) (output : nat -> list Q) (m : nat) :
  _trained s = true -> _model s = Some m -> output m <> [] ->
  exists g top,
    take 5 (sort_by_prob (ranked (output m))) = g :: top /\
    predict s output =
    inr {| res_digit := digit g; res_probs := output m;
           res_top5 := g :: top |}.
Proof.
  intros Ht Hm Hne. unfold predict. rewrite Ht, Hm. simpl.
  destruct (take 5 (sort_by_prob (ranked (output m)))) as [|g top] eqn:E.
  - exfalso. apply (f_equal (@length guess)) in E.
    rewrite length_take in E.
    assert (L : length (sort_by_prob (ranked (output m))) = length (output m)).
    { unfold ranked. generalize (fun (i : nat) (p : Q) =>
        {| digit := i; prob := p; pct := round (p * 100) |}).
      intros f.
      assert (G : forall l : list guess, length (sort_by_prob l) = length l).
      { induction l as [|x l IH]; [reflexivity|]. simpl.
        rewrite <- IH. generalize (sort_by_prob l). intros k.
        induction k as [|y k IHk]; simpl; [reflexivity|].
        destruct (Qle_bool _ _); simpl; [reflexivity|]. now rewrite IHk. }
      rewrite G. apply length_imap. }
    rewrite L in E. simpl in E.
    destruct (output m); [now elim Hne|]. simpl in E. lia.
  - exists g, top. split; reflexivity.
Qed.

Lemma insert_guess_perm (x : guess) (l : list guess) :
  Permutation (insert_guess x l) (x :: l).
Proof.
  induction l as [|y l IH]; simpl; [reflexivity|].
  destruct (Qle_bool (prob y) (prob x)); [reflexivity|].
  rewrite IH. apply perm_swap.
Qed.

Lemma sort_by_prob_perm (l : list guess) : Permutation (sort_by_prob l) l.
Proof.
  induction l as [|x l IH]; simpl; [reflexivity|].
  rewrite insert_guess_perm. now constructor.
Qed.

Lemma before_le (a b : guess) : before a b -> (prob b <= prob a)%Q.
Proof. intros [H|[H _]]; [lra|rewrite H; lra]. Qed.

Lemma insert_guess_sorted (x : guess) (l : list guess) :
  StronglySorted before l ->
  List.Forall (fun y => (digit x < digit y)%nat) l ->
  StronglySorted before (insert_guess x l).
Proof.
  induction 1 as [|y l Hl IH Hy]; intros Hd; simpl.
  - repeat constructor.
  - apply List.Forall_cons_iff in Hd. destruct Hd as [Hdy Hd].
    destruct (Qle_bool (prob y) (prob x)) eqn:E.
    + apply Qle_bool_iff in E.
      constructor; [constructor; assumption|].
      constructor.
      * destruct (Qlt_le_dec (prob y) (prob x)) as [Hlt|Hge];
          [left; exact Hlt|right; split; [lra|exact Hdy]].
      * rewrite List.Forall_forall in Hy, Hd |- *. intros z Hz.
        pose proof (before_le _ _ (Hy z Hz)) as Hzy.
        destruct (Qlt_le_dec (prob z) (prob x)) as [Hlt|Hge];
          [left; exact Hlt|right; split; [lra|exact (Hd z Hz)]].
    + assert (Hlt : (prob x < prob y)%Q).
      { destruct (Qlt_le_dec (prob x) (prob y)) as [H|H]; [exact H|].
        apply Qle_bool_iff in H. congruence. }
      constructor; [exact (IH Hd)|].
      eapply Permutation_Forall; [symmetry; apply insert_guess_perm|].
      constructor; [left; exact Hlt|exact Hy].
Qed.

Lemma sort_by_prob_sorted (l : list guess) :
  StronglySorted (fun a b => (digit a < digit b)%nat) l ->
  StronglySorted before (sort_by_prob l).
Proof.
  induction 1 as [|x l Hl IH Hx]; simpl; [constructor|].
  apply insert_guess_sorted; [exact IH|].
  eapply Permutation_Forall; [symmetry; apply sort_by_prob_perm|].
  exact Hx.
Qed.

Lemma ranked_lookup (arr : list Q) (i : nat) :
  ranked arr !! i =
  (fun p => {| digit := i; prob := p; pct := round (p * 100) |}) <$> arr !! i.
Proof. unfold ranked. apply list_lookup_imap. Qed.

Lemma ranked_In (arr : list Q) (g : guess) :
  In g (ranked arr) ->
  arr !! digit g = Some (prob g) /\ pct g = round (prob g * 100).
Proof.
  intros H. apply list_elem_of_In, list_elem_of_lookup in H.
  destruct H as [i Hi]. rewrite ranked_lookup in Hi.
  destruct (arr !! i) as [p|] eqn:E; [|discriminate].
  simpl in Hi. inversion Hi. subst g. simpl. split; [exact E|reflexivity].
Qed.

Lemma ranked_sorted (arr : list Q) :
  StronglySorted (fun a b => (digit a < digit b)%nat) (ranked arr).
Proof.
  unfold ranked.
  assert (G : forall (l : list Q) (k : nat),
    StronglySorted (fun a b => (digit a < digit b)%nat)
      (imap (fun i p => {| digit := k + i; prob := p;
                           pct := round (p * 100) |}) l) /\
    List.Forall (fun g => (k <= digit g)%nat)
      (imap (fun i p => {| digit := k + i; prob := p;
                           pct := round (p * 100) |}) l)).
  { induction l as [|p l IH]; intros k; simpl; [split; constructor|].
    assert (E : imap ((fun i p0 => {| digit := k + i; prob := p0;
                                      pct := round (p0 * 100) |}) ∘ S) l =
                imap (fun i p0 => {| digit := S k + i; prob := p0;
                                     pct := round (p0 * 100) |}) l).
    { apply imap_ext. intros i q _. simpl. f_equal. lia. }
    rewrite E. destruct (IH (S k)) as [Hs Hk]. split.
    - constructor; [exact Hs|].
      eapply List.Forall_impl; [|exact Hk]. simpl. intros; lia.
    - constructor; [simpl; lia|].
      eapply List.Forall_impl; [|exact Hk]. simpl. intros; lia. }
  exact (proj1 (G arr 0%nat)).
Qed.

Lemma sorted_lookup {A : Type} (R : A -> A -> Prop) (l : list A) :
  StronglySorted R l ->
  forall i j a b, (i < j)%nat -> l !! i = Some a -> l !! j = Some b -> R a b.
Proof.
  induction 1 as [|x l Hl IH Hx]; intros i j a b Hij Ha Hb.
  - destruct i; discriminate.
  - destruct j as [|j]; [lia|]. simpl in Hb.
    destruct i as [|i].
    + simpl in Ha. inversion Ha. subst a.
      rewrite List.Forall_forall in Hx. apply Hx.
      apply list_elem_of_In, list_elem_of_lookup. eauto.
    + simpl in Ha. apply (IH i j); [lia|assumption..].
Qed.

Lemma sorted_take {A : Type} (R : A -> A -> Prop) (l : list A) (n : nat) :
  StronglySorted R l -> StronglySorted R (take n l).
Proof.
  intros H. revert n. induction H as [|x l Hl IH Hx]; intros [|n]; simpl;
    try constructor.
  - apply IH.
  - rewrite List.Forall_forall in Hx |- *. intros y Hy. apply Hx.
    apply list_elem_of_In in Hy. apply list_elem_of_In.
    apply list_elem_of_lookup in Hy. destruct Hy as [i Hi].
    apply lookup_take_Some in Hi. apply list_elem_of_lookup.
    exists i. exact (proj1 Hi).
Qed.

Lemma top_is_first_largest (arr : list Q) (g : guess) (top : list guess) :
  take 5 (sort_by_prob (ranked arr)) = g :: top ->
  arr !! digit g = Some (prob g) /\ pct g = round (prob g * 100) /\
  (forall j q, arr !! j = Some q -> (q <= prob g)%Q) /\
  (forall j q, (j < digit g)%nat -> arr !! j = Some q -> (q < prob g)%Q).
Proof.
  intros E.
  pose proof (sort_by_prob_perm (ranked arr)) as Hperm.
  pose proof (sort_by_prob_sorted _ (ranked_sorted arr)) as Hsort.
  destruct (sort_by_prob (ranked arr)) as [|g0 rest] eqn:ES; [discriminate|].
  assert (g0 = g) by (simpl in E; inversion E; reflexivity). subst g0.
  assert (Hg : In g (ranked arr))
    by (apply (Permutation_in _ Hperm); left; reflexivity).
  destruct (ranked_In _ _ Hg) as [Hgp Hgc].
  split; [exact Hgp|]. split; [exact Hgc|].
  apply StronglySorted_inv in Hsort. destruct Hsort as [_ Hall].
  rewrite List.Forall_forall in Hall.
  assert (Hz : forall j q, arr !! j = Some q ->
            exists z, digit z = j /\ prob z = q /\ (z = g \/ before g z)).
  { intros j q Hq.
    exists {| digit := j; prob := q; pct := round (q * 100) |}.
    split; [reflexivity|]. split; [reflexivity|].
    assert (In {| digit := j; prob := q; pct := round (q * 100) |}
               (g :: rest)) as [H|H].
    { apply (Permutation_in _ (Permutation_sym Hperm)).
      apply list_elem_of_In, list_elem_of_lookup. exists j.
      rewrite ranked_lookup, Hq. reflexivity. }
    - left. symmetry. exact H.
    - right. apply Hall. exact H. }
  split.
  - intros j q Hq. destruct (Hz j q Hq) as (z & _ & <- & [->|Hb]);
      [lra|exact (before_le _ _ Hb)].
  - intros j q Hj Hq. destruct (Hz j q Hq) as (z & <- & <- & [->|Hb]);
      [lia|]. destruct Hb as [Hb|[_ Hb]]; [exact Hb|lia].
Qed.

(** X12.  With a trained model that returns at least one probability,
    [predict] returns the probabilities as they are, the digit with the
    largest probability (the smallest such digit when several tie), and as
    [top5] the five most probable digits (all of them when there are fewer),
    each with its own probability and its rounded percentage, ordered by
    decreasing probability and, among equals, by increasing digit.  A
    digit that is not in [top5] is less probable than every entry of
    [top5], or as probable as it and larger than its digit. *)
Theorem predict_ranks_by_probability
    (s : mstate) (output : nat -> list Q) (m : nat) :
  _trained s = true -> _model s = Some m -> output m <> [] ->
  exists r, predict s output = inr r /\
    res_probs r = output m /\
    length (res_top5 r) = Nat.min 5 (length (output m)) /\
    (exists g, res_top5 r !! 0%nat = Some g /\ digit g = res_digit r) /\
    (exists p, output m !! res_digit r = Some p /\
       (forall j q, output m !! j = Some q -> (q <= p)%Q) /\
       (forall j q, (j < res_digit r)%nat -> output m !! j = Some q ->
                    (q < p)%Q)) /\
    (forall i g, res_top5 r !! i = Some g ->
       output m !! digit g = Some (prob g) /\
       pct g = round (prob g * 100)) /\
    (forall i j a b, (i < j)%nat ->
       res_top5 r !! i = Some a -> res_top5 r !! j = Some b -> before a b) /\
    (forall j q, output m !! j = Some q ->
       (exists i g, res_top5 r !! i = Some g /\ digit g = j) \/
       (forall i g, res_top5 r !! i = Some g ->
          (q < prob g)%Q \/ ((q == prob g)%Q /\ (digit g < j)%nat))).
Proof.
  intros Ht Hm Hne.
  destruct (predict_of_model s output m Ht Hm Hne) as (g & top & E & ->).
  eexists. split; [reflexivity|]. cbn [res_probs res_top5 res_digit].
  destruct (top_is_first_largest _ g top E) as (Hg & _ & Hmax & Hfirst).
  pose proof (sort_by_prob_perm (ranked (output m))) as Hperm.
  pose proof (sort_by_prob_sorted _ (ranked_sorted (output m))) as Hsort.
  split; [reflexivity|]. split.
  { rewrite <- E, length_take.
    rewrite (Permutation_length Hperm). unfold ranked.
    rewrite length_imap. reflexivity. }
  split; [exists g; split; reflexivity|].
  split; [exists (prob g); repeat split; assumption|].
  split; [|split].
  - intros i z Hz. rewrite <- E in Hz. apply lookup_take_Some in Hz.
    apply ranked_In. apply (Permutation_in _ Hperm).
    apply list_elem_of_In, list_elem_of_lookup. exists i. exact (proj1 Hz).
  - intros i j a b Hij Ha Hb. rewrite <- E in Ha, Hb.
    exact (sorted_lookup before _ (sorted_take before _ 5 Hsort)
             i j a b Hij Ha Hb).
  - intros j q Hj.
    assert (Hx : In {| digit := j; prob := q; pct := round (q * 100) |}
                   (sort_by_prob (ranked (output m)))).
    { apply (Permutation_in _ (Permutation_sym Hperm)).
      apply list_elem_of_In, list_elem_of_lookup. exists j.
      rewrite ranked_lookup, Hj. reflexivity. }
    apply list_elem_of_In, list_elem_of_lookup in Hx. destruct Hx as [k Hk].
    rewrite <- E. destruct (lt_dec k 5) as [Hk5|Hk5].
    + left. exists k, {| digit := j; prob := q; pct := round (q * 100) |}.
      split; [|reflexivity].
      apply lookup_take_Some. split; [exact Hk|exact Hk5].
    + right. intros i g' Hg'. apply lookup_take_Some in Hg'.
      destruct Hg' as [Hg' Hi5].
      assert (Hik : (i < k)%nat) by lia.
      exact (sorted_lookup before _ Hsort i k g' _ Hik Hg' Hk).
Qed.

(** X13.  Training again after a first training has finished: as soon as
    the data of the new run is loaded, the module answers with the model
    that run has just built, while that run is still fitting it; and when
    the fit then fails, the module stays ready and [predict] goes on using
    the model of the failed run, which never completed. *)
Theorem failed_retraining_leaves_its_model
    (es : list mevent) (output : nat -> list Q) :
  let s := mexec initial es in
  _trained s = true -> _training s = false ->
  let r := next_run s in
  let s1 := mexec s [CallTrain; Settle r true] in
  let s2 := mstep s1 (Settle r false) in
  (isReady s1 = true /\ _model s1 = Some r /\
   suspended s1 = [(r, AwaitFit)]) /\
  (isReady s2 = true /\ _model s2 = Some r /\ _training s2 = false /\
   ~ In (OnDone r) (effects s2)) /\
  (output r <> [] ->
   exists p, predict s2 output = inr p /\ res_probs p = output r).
Proof.
  intros s Ht Hn r s1 s2.
  pose proof (mexec_single_flight es initial single_flight_initial) as Hsf.
  pose proof (mexec_fresh_ids es initial fresh_ids_initial) as [_ Hfresh].
  fold s in Hsf, Hfresh. clearbody s.
  destruct Hsf as [Hl _|? ? _ Hb]; [|congruence].
  assert (E1 : s1 =
    {| _model := Some r; _trained := true; _training := true;
       suspended := [(r, AwaitFit)]; next_run := S r;
       effects := BuildModel r :: LoadData r :: effects s |}).
  { unfold s1, mexec. simpl. unfold train. rewrite Hn. unfold resume. simpl.
    rewrite Hl. simpl. fold r. rewrite !Nat.eqb_refl. simpl.
    rewrite Ht. reflexivity. }
  assert (E2 : s2 =
    {| _model := Some r; _trained := true; _training := false;
       suspended := []; next_run := S r;
       effects := OnError r :: BuildModel r :: LoadData r :: effects s |}).
  { unfold s2. rewrite E1. unfold mstep, resume. simpl.
    rewrite Nat.eqb_refl. simpl. unfold on_catch, drop_run. simpl.
    rewrite Nat.eqb_refl. reflexivity. }
  split; [rewrite E1; repeat split|]. split.
  - rewrite E2. repeat split. simpl.
    intros [H|[H|[H|H]]]; try discriminate.
    specialize (Hfresh r H). unfold r in Hfresh. lia.
  - intros Hne.
    destruct (predict_of_model s2 output r) as (g & top & _ & ->);
      [rewrite E2; reflexivity..|exact Hne|].
    eexists. split; reflexivity.
Qed.

(** X14.  Whenever a training is in progress it is the run of exactly one
    call, and when that run fails the module is free again: the flag is
    down, the error is reported once, what was trained before is kept, and
    the next call of [train] starts a new run that loads the data again. *)
Theorem failed_training_can_be_retried (es : list mevent) :
  let s := mexec initial es in
  _training s = true ->
  exists r ph, suspended s = [(r, ph)] /\ (r < next_run s)%nat /\
    let s1 := mstep s (Settle r false) in
    let s2 := train s1 in
    _training s1 = false /\ suspended s1 = [] /\
    _trained s1 = _trained s /\ effects s1 = OnError r :: effects s /\
    _training s2 = true /\ suspended s2 = [(next_run s, AwaitData)] /\
    _trained s2 = _trained s /\
    effects s2 = LoadData (next_run s) :: OnError r :: effects s.
Proof.
  intros s Ht.
  pose proof (mexec_single_flight es initial single_flight_initial) as Hsf.
  pose proof (mexec_fresh_ids es initial fresh_ids_initial) as [Hfresh _].
  fold s in Hsf, Hfresh. clearbody s.
  destruct Hsf as [_ Hb|r ph Hl _]; [congruence|].
  exists r, ph. split; [exact Hl|].
  split; [apply (Hfresh r ph); rewrite Hl; left; reflexivity|].
  assert (E1 : mstep s (Settle r false) = on_catch r s).
  { simpl. unfold resume. rewrite Hl. simpl. rewrite Nat.eqb_refl.
    reflexivity. }
  cbv zeta. rewrite E1. unfold train, on_catch. simpl.
  rewrite Hl, drop_run_same. repeat split.
Qed.

End ModelFacts.

Lemma predict_ranks_by_probability_witness :
  exists r,
    MnistModel.predict
      (MnistModel.mexec MnistModel.initial
         [MnistModel.CallTrain; MnistModel.Settle 0 true;
          MnistModel.Settle 0 true])
      (fun _ => [5 # 100; 30 # 100; 10 # 100; 20 # 100; 15 # 100; 12 # 100;
                 8 # 100]%Q) = inr r /\
    MnistModel.res_digit r = 1%nat /\
    map MnistModel.digit (MnistModel.res_top5 r) = [1; 3; 4; 5; 2]%nat /\
    length (MnistModel.res_top5 r) = 5%nat /\
    ((exists i g, MnistModel.res_top5 r !! i = Some g /\
                  MnistModel.digit g = 6%nat) \/
     (forall i g, MnistModel.res_top5 r !! i = Some g ->
        (8 # 100 < MnistModel.prob g)%Q \/
        ((8 # 100 == MnistModel.prob g)%Q /\ (MnistModel.digit g < 6)%nat))).
Proof.
  destruct (predict_ranks_by_probability
              (MnistModel.mexec MnistModel.initial
                 [MnistModel.CallTrain; MnistModel.Settle 0 true;
                  MnistModel.Settle 0 true])
              (fun _ => [5 # 100; 30 # 100; 10 # 100; 20 # 100; 15 # 100;
                         12 # 100; 8 # 100]%Q) 0%nat
              eq_refl eq_refl ltac:(discriminate))
    as (r & E & _ & Hl & _ & _ & _ & _ & Hout).
  exists r. split; [exact E|].
  assert (Er : inr r = MnistModel.predict
      (MnistModel.mexec MnistModel.initial
         [MnistModel.CallTrain; MnistModel.Settle 0 true;
          MnistModel.Settle 0 true])
      (fun _ => [5 # 100; 30 # 100; 10 # 100; 20 # 100; 15 # 100; 12 # 100;
                 8 # 100]%Q) :> MnistModel.failure + MnistModel.prediction)
    by (symmetry; exact E).
  vm_compute in Er. injection Er as ->.
  split; [reflexivity|]. split; [reflexivity|]. split; [exact Hl|].
  exact (Hout 6%nat (8 # 100)%Q eq_refl).
Defined.

Lemma failed_retraining_leaves_its_model_witness :
  MnistModel._trained
    (MnistModel.mexec MnistModel.initial
       [MnistModel.CallTrain; MnistModel.Settle 0 true;
        MnistModel.Settle 0 true]) = true /\
  MnistModel._model
    (MnistModel.mstep
       (MnistModel.mexec
          (MnistModel.mexec MnistModel.initial
             [MnistModel.CallTrain; MnistModel.Settle 0 true;
              MnistModel.Settle 0 true])
          [MnistModel.CallTrain; MnistModel.Settle 1 true])
       (MnistModel.Settle 1 false)) = Some 1%nat.
Proof.
  split; [reflexivity|].
  destruct (failed_retraining_leaves_its_model
              [MnistModel.CallTrain; MnistModel.Settle 0 true;
               MnistModel.Settle 0 true]
              (fun _ => []) eq_refl eq_refl) as (_ & (_ & E & _) & _).
  exact E.
Defined.

Lemma failed_training_can_be_retried_witness :
  exists r ph,
    MnistModel.suspended
      (MnistModel.mexec MnistModel.initial
         [MnistModel.CallTrain; MnistModel.Settle 0 true]) = [(r, ph)] /\
    MnistModel._training
      (MnistModel.mstep
         (MnistModel.mexec MnistModel.initial
            [MnistModel.CallTrain; MnistModel.Settle 0 true])
         (MnistModel.Settle r false)) = false.
Proof.
  destruct (failed_training_can_be_retried
              [MnistModel.CallTrain; MnistModel.Settle 0 true] eq_refl)
    as (r & ph & E & _ & H & _).
  exists r, ph. split; [exact E|exact H].
Defined.

(* ------------------------------------------------------------------ *)
(** ** The range of the activation summaries *)
(* ------------------------------------------------------------------ *)

Section ActivationFacts.
Import MnistModel.

Lemma finite_list (l : list num) :
  List.Forall finite l -> exists qs, l = map Fin qs.
Proof.
  induction 1 as [|v l [q ->] _ [qs ->]].
  - exists []. reflexivity.
  - exists (q :: qs). reflexivity.
Qed.

Lemma nonneg_list (qs : list Q) :
  List.Forall nonneg (map Fin qs) -> List.Forall (fun q => 0 <= q)%Q qs.
Proof.
  induction qs as [|q qs IH]; intros H; [constructor|].
  apply List.Forall_cons_iff in H. destruct H as [(q' & E & Hq) H].
  injection E as ->. constructor; [exact Hq|exact (IH H)].
Qed.

Lemma channel_sum_finite (data : list num) (H W F f : nat) :
  List.Forall finite data ->
  (H * W * F <= length data)%nat -> (f < F)%nat ->
  exists q, channel_sum data H W F f = Fin q /\
            (List.Forall nonneg data -> (0 <= q)%Q).
Proof.
  intros Hfin Hlen Hf. unfold channel_sum.
  apply (fold_left_invariant _
           (fun acc => exists q, acc = Fin q /\
              (List.Forall nonneg data -> (0 <= q)%Q)));
    [exists 0%Q; split; [reflexivity|intros _; lra]|].
  intros acc h Hh Hacc.
  apply (fold_left_invariant _
           (fun acc => exists q, acc = Fin q /\
              (List.Forall nonneg data -> (0 <= q)%Q)));
    [exact Hacc|].
  intros acc' w Hw (q & -> & Hq). apply in_seq in Hh, Hw.
  pose proof (channel_index_inside H W F f h w) as Hin.
  unfold read.
  destruct (data !! (h * W * F + w * F + f)%nat) as [v|] eqn:E;
    [|apply lookup_ge_None in E; lia].
  assert (Hv : v ∈ data) by (apply list_elem_of_lookup; eauto).
  apply list_elem_of_In in Hv.
  rewrite List.Forall_forall in Hfin. destruct (Hfin v Hv) as [p ->].
  exists (q + p)%Q. split; [reflexivity|]. intros Hnn.
  specialize (Hq Hnn). rewrite List.Forall_forall in Hnn.
  destruct (Hnn (Fin p) Hv) as (p' & Ep & Hp). injection Ep as ->. lra.
Qed.

Lemma summary_finite (t : tensor) :
  wf_tensor t -> List.Forall finite (tdata t) ->
  exists qs, summary t = map Fin qs /\ (length qs <= 16)%nat /\
    (List.Forall nonneg (tdata t) -> List.Forall (fun q => 0 <= q)%Q qs).
Proof.
  intros Hwf Hfin.
  destruct (shape t) as [|B [|H [|W [|F [|? ?]]]]] eqn:E;
    try (rewrite summary_flat by (rewrite E; simpl; lia);
         destruct (finite_list _ Hfin) as [qs Eqs];
         exists (take 16 qs); rewrite Eqs;
         split; [symmetry; apply (fmap_take Fin)|];
         split; [rewrite length_take; lia|];
         intros Hnn; apply nonneg_list in Hnn;
         rewrite List.Forall_forall in Hnn |- *;
         intros q Hq; apply Hnn;
         apply list_elem_of_In, list_elem_of_lookup in Hq;
         destruct Hq as [i Hi]; apply lookup_take_Some in Hi;
         apply list_elem_of_In, list_elem_of_lookup; exists i;
         exact (proj1 Hi)).
  rewrite (summary_4d t B H W F E).
  destruct (wf_feature_map t B H W F Hwf E) as [Hdata Hd].
  assert (G : forall fs, List.Forall (fun f => (f < F)%nat) fs ->
    exists qs, map (channel_mean (tdata t) H W F) fs = map Fin qs /\
      length qs = length fs /\
      (List.Forall nonneg (tdata t) -> List.Forall (fun q => 0 <= q)%Q qs)).
  { induction 1 as [|f fs Hf _ (qs & Eq & Hl & Hq)].
    - exists []. repeat split; constructor.
    - destruct (channel_sum_finite (tdata t) H W F f Hfin Hdata Hf)
        as (q & Es & Hs).
      exists ((q / (qn H * qn W))%Q :: qs). split; [|split].
      + simpl. rewrite Eq. f_equal. unfold channel_mean.
        rewrite Es. apply ndiv_pos. exact Hd.
      + simpl. now rewrite Hl.
      + intros Hnn. constructor; [|exact (Hq Hnn)].
        apply Qle_shift_div_l; [exact Hd|]. specialize (Hs Hnn). lra. }
  destruct (G (seq 0 (Nat.min F 16))) as (qs & Eq & Hl & Hq).
  { rewrite List.Forall_forall. intros f Hf. apply in_seq in Hf. lia. }
  exists qs. split; [exact Eq|]. split; [|exact Hq].
  rewrite Hl, length_seq. lia.
Qed.

Lemma compact_range (t : tensor) :
  wf_tensor t -> List.Forall finite (tdata t) ->
  exists rs, _compactActivation t = map Fin rs /\ (length rs <= 16)%nat /\
    List.Forall (fun r => r <= 1)%Q rs /\
    (List.Forall nonneg (tdata t) -> List.Forall (fun r => 0 <= r)%Q rs).
Proof.
  intros Hwf Hfin.
  destruct (summary_finite t Hwf Hfin) as (qs & E & Hl & Hnn).
  unfold _compactActivation. rewrite E, summary_max_fin.
  pose proof (qfloor_max_floor qs) as HM.
  exists (map (fun q => q / qfloor_max qs)%Q qs).
  split; [|split; [|split]].
  - rewrite !List.map_map. apply List.map_ext. intros q.
    apply ndiv_pos. lra.
  - rewrite length_map. exact Hl.
  - rewrite List.Forall_map, List.Forall_forall. intros q Hq.
    apply list_elem_of_In, list_elem_of_lookup in Hq. destruct Hq as [i Hi].
    pose proof (qfloor_max_ge qs i q Hi).
    apply Qle_shift_div_r; lra.
  - intros H0. specialize (Hnn H0).
    rewrite List.Forall_map. eapply List.Forall_impl; [|exact Hnn].
    intros q Hq. simpl in Hq. apply Qle_shift_div_l; lra.
Qed.

(** X15.  [getActivations] returns nothing before a model is built.
    Afterwards, when every layer output holds as many values as its shape
    announces, all of them finite, and no feature map is empty, it returns
    one vector for each layer output: every vector has at most 16 entries,
    every entry is a finite number not above 1, and the entries of a layer
    whose outputs are all non-negative are not below 0. *)
Theorem getActivations_gives_bounded_vectors
    (s : mstate) (outputs : nat -> list tensor) :
  (forall m t, In t (outputs m) ->
     wf_tensor t /\ List.Forall finite (tdata t)) ->
  (_model s = None -> getActivations s outputs = []) /\
  (forall m, _model s = Some m ->
     length (getActivations s outputs) = length (outputs m) /\
     forall k t, outputs m !! k = Some t ->
       exists rs, getActivations s outputs !! k = Some (map Fin rs) /\
         (length rs <= 16)%nat /\
         List.Forall (fun r => r <= 1)%Q rs /\
         (List.Forall nonneg (tdata t) ->
          List.Forall (fun r => 0 <= r)%Q rs)).
Proof.
  intros Hwf. unfold getActivations. split; [intros ->; reflexivity|].
  intros m ->. split; [apply length_map|].
  intros k t Hk.
  destruct (Hwf m t) as [Ht Hfin].
  { apply list_elem_of_In, list_elem_of_lookup. eauto. }
  destruct (compact_range t Ht Hfin) as (rs & E & H).
  exists rs. split; [|exact H].
  change (map ?f ?l) with (f <$> l) at 1.
  rewrite list_lookup_fmap, Hk. simpl. now rewrite E.
Qed.

End ActivationFacts.

Lemma getActivations_gives_bounded_vectors_witness :
  exists rs,
    MnistModel.getActivations
      (MnistModel.mexec MnistModel.initial
         [MnistModel.CallTrain; MnistModel.Settle 0 true])
      (fun _ => [MnistModel.peak_tensor]) !! 0%nat = Some (map Fin rs) /\
    List.Forall (fun r => r <= 1)%Q rs.
Proof.
  destruct (getActivations_gives_bounded_vectors
              (MnistModel.mexec MnistModel.initial
                 [MnistModel.CallTrain; MnistModel.Settle 0 true])
              (fun _ => [MnistModel.peak_tensor])) as [_ H].
  - intros _ t [<-|[]]. split.
    + split; [reflexivity|]. intros _. vm_compute. lia.
    + simpl. repeat constructor; eexists; reflexivity.
  - destruct (H 0%nat eq_refl) as [_ H2].
    destruct (H2 0%nat MnistModel.peak_tensor eq_refl) as (rs & E & _ & Hle & _).
    exists rs. split; [exact E|exact Hle].
Defined.

(* ------------------------------------------------------------------ *)
(** ** From the prediction to the picture *)
(* ------------------------------------------------------------------ *)

Section RenderDataFacts.
Import MnistModel NetworkRenderer.

(** Inside image data the four reads of a block succeed, and [avg] is the
    sum of the four bytes over [4 * 255]. *)
Lemma block_mean_bytes (imgD : list Z) (r c : nat) :
  App.image_data imgD -> (r < 14)%nat -> (c < 14)%nat ->
  exists a b c' d' : Z,
    imgD !! ((2 * r * 28 + 2 * c) * 4)%nat = Some a /\
    imgD !! ((2 * r * 28 + (2 * c + 1)) * 4)%nat = Some b /\
    imgD !! (((2 * r + 1) * 28 + 2 * c) * 4)%nat = Some c' /\
    imgD !! (((2 * r + 1) * 28 + (2 * c + 1)) * 4)%nat = Some d' /\
    App.block_mean imgD r c =
      Fin ((inject_Z a + inject_Z b + inject_Z c' + inject_Z d') / (4 * 255)) /\
    (0 <= (inject_Z a + inject_Z b + inject_Z c' + inject_Z d') / (4 * 255)
       <= 1)%Q.
Proof.
  intros [Hlen Hb] Hr Hc.
  assert (L : forall i, (i < 28 * 28 * 4)%nat ->
            exists v, imgD !! i = Some v /\ (0 <= inject_Z v <= 255)%Q).
  { intros i Hi. rewrite <- Hlen in Hi.
    destruct (lookup_lt_is_Some_2 imgD i Hi) as [v Hv]. exists v.
    split; [exact Hv|].
    rewrite List.Forall_forall in Hb.
    assert (Hin : In v imgD)
      by (apply list_elem_of_In, list_elem_of_lookup; eauto).
    destruct (Hb v Hin) as [H0 H1]. rewrite Zle_Qle in H0, H1.
    split; assumption. }
  destruct (L ((2 * r * 28 + 2 * c) * 4)%nat) as (a & Ea & Ha); [lia|].
  destruct (L ((2 * r * 28 + (2 * c + 1)) * 4)%nat) as (b & Eb & Hb'); [lia|].
  destruct (L (((2 * r + 1) * 28 + 2 * c) * 4)%nat) as (c' & Ec & Hc'); [lia|].
  destruct (L (((2 * r + 1) * 28 + (2 * c + 1)) * 4)%nat)
    as (d' & Ed & Hd'); [lia|].
  exists a, b, c', d'. repeat (split; [assumption|]).
  split.
  - unfold App.block_mean, App.byte. cbv zeta.
    replace ((r * 2 * 28 + c * 2) * 4)%nat
      with ((2 * r * 28 + 2 * c) * 4)%nat by lia.
    replace ((r * 2 * 28 + c * 2 + 1) * 4)%nat
      with ((2 * r * 28 + (2 * c + 1)) * 4)%nat by lia.
    replace (((r * 2 + 1) * 28 + c * 2) * 4)%nat
      with (((2 * r + 1) * 28 + 2 * c) * 4)%nat by lia.
    replace (((r * 2 + 1) * 28 + c * 2 + 1) * 4)%nat
      with (((2 * r + 1) * 28 + (2 * c + 1)) * 4)%nat by lia.
    rewrite Ea, Eb, Ec, Ed. reflexivity.
  - assert (E : ((inject_Z a + inject_Z b + inject_Z c' + inject_Z d')
                 / (4 * 255)
               == (inject_Z a + inject_Z b + inject_Z c' + inject_Z d')
                  * (1 # 1020))%Q) by field.
    rewrite E. change (inject_Z 0) with 0%Q in *.
    change (inject_Z 255) with 255%Q in *. lra.
Qed.

Lemma px14_lookup (imgD : list Z) (r c : nat) :
  (r < 14)%nat -> (c < 14)%nat ->
  App.px14 imgD !! (r * 14 + c)%nat = Some (App.block_mean imgD r c).
Proof.
  intros Hr Hc. unfold App.px14.
  exact (grid_lookup (App.block_mean imgD) 14 14 0 r c Hr Hc).
Qed.

Lemma px14_length (imgD : list Z) : length (App.px14 imgD) = 196%nat.
Proof. reflexivity. Qed.

Lemma px14_finite (imgD : list Z) :
  App.image_data imgD -> exists qs, App.px14 imgD = map Fin qs.
Proof.
  intros Hd. apply all_finite. intros i v Hv.
  pose proof (lookup_lt_Some _ _ _ Hv) as Hi. rewrite px14_length in Hi.
  assert (Ei : i = ((i / 14) * 14 + i mod 14)%nat)
    by (rewrite Nat.mul_comm; apply Nat.div_mod_eq).
  assert (Hr : (i / 14 < 14)%nat) by (apply Nat.Div0.div_lt_upper_bound; lia).
  assert (Hc : (i mod 14 < 14)%nat) by (apply Nat.mod_upper_bound; lia).
  rewrite Ei, px14_lookup in Hv by assumption. injection Hv as <-.
  destruct (block_mean_bytes imgD _ _ Hd Hr Hc)
    as (a & b & c' & d' & _ & _ & _ & _ & E & _).
  eexists. exact E.
Qed.

(** X16.  The preview shows the drawing the right way round and in range.
    The [inputPixels] that [_buildRenderData] computes from the image data
    of the 28×28 canvas are 196 finite numbers, and when [animate] receives
    them the preview has as many cells; the cell in row [r] and column [c]
    of the grid made by [_layout] keeps the centre [_layout] gave it and
    holds [(a + b + c' + d') / (4 * 255)], between 0 and 1, where [a],
    [b], [c'] and [d'] are the red bytes, at the indices
    [(row * 28 + column) * 4] of
    the image data, of the pixels in rows [2r] and [2r + 1] and columns
    [2c] and [2c + 1]. *)
Theorem preview_shows_the_block_means
    (cw ch : nat) (s0 : state) (imgD : list Z)
    (acts : list (list num)) (probs : list Q) :
  App.image_data imgD ->
  exists qs,
    App.inputPixels (App._buildRenderData imgD acts probs) = map Fin qs /\
    length qs = 196%nat /\
    forall (d : anim_data) (now : Q) (cb : bool),
      NetworkRenderer.inputPixels d = Some (map Some qs) ->
      let W := or_default cw 260 in
      let H := or_default ch 500 in
      let s := animate now d cb (_layout cw ch s0) in
      length (_pixels s) = 196%nat /\
      forall r c, (r < 14)%nat -> (c < 14)%nat ->
        exists (p : pixel) (a b c' d' : Z),
          _pixels s !! (r * 14 + c)%nat = Some p /\
          imgD !! ((2 * r * 28 + 2 * c) * 4)%nat = Some a /\
          imgD !! ((2 * r * 28 + (2 * c + 1)) * 4)%nat = Some b /\
          imgD !! (((2 * r + 1) * 28 + 2 * c) * 4)%nat = Some c' /\
          imgD !! (((2 * r + 1) * 28 + (2 * c + 1)) * 4)%nat = Some d' /\
          val p =
            ((inject_Z a + inject_Z b + inject_Z c' + inject_Z d')
             / (4 * 255))%Q /\
          (0 <= val p <= 1)%Q /\
          px p = (cx W 0 - cell_size W H * qn PIX_COLS / 2
                  + qn c * cell_size W H + cell_size W H / 2)%Q /\
          py p = (H / 2 - cell_size W H * qn PIX_ROWS / 2
                  + qn r * cell_size W H + cell_size W H / 2)%Q.
Proof.
  intros Hd. destruct (px14_finite imgD Hd) as [qs Eqs].
  exists qs. cbn [App._buildRenderData App.inputPixels].
  split; [exact Eqs|].
  assert (Hlen : length qs = 196%nat).
  { rewrite <- (length_map Fin qs), <- Eqs. apply px14_length. }
  split; [exact Hlen|].
  intros d now cb Hin. cbv zeta. rewrite animate_pixels, Hin.
  cbn [_layout _pixels].
  set (W := or_default cw 260). set (H := or_default ch 500).
  unfold assign_pixels.
  split; [rewrite length_imap; apply make_pixels_length|].
  intros r c Hr Hc.
  pose proof (make_pixels_cell W H r c Hr Hc) as E.
  destruct (block_mean_bytes imgD r c Hd Hr Hc)
    as (a & b & c' & d' & Ea & Eb & Ec & Ed & Em & Hrange).
  assert (Eq : qs !! (r * 14 + c)%nat =
               Some ((inject_Z a + inject_Z b + inject_Z c' + inject_Z d')
                     / (4 * 255))%Q).
  { pose proof (px14_lookup imgD r c Hr Hc) as L.
    rewrite Eqs in L. change (map Fin qs) with (Fin <$> qs) in L.
    rewrite list_lookup_fmap in L.
    destruct (qs !! (r * 14 + c)%nat) as [q|]; [|discriminate].
    cbn [fmap option_fmap option_map] in L. rewrite Em in L.
    injection L as ->. reflexivity. }
  rewrite list_lookup_imap, E. cbn [fmap option_fmap option_map].
  eexists _, a, b, c', d'. split; [reflexivity|].
  repeat (split; [assumption|]).
  cbn [set_val val px py]. unfold entry.
  change (map Some qs) with (Some <$> qs).
  rewrite list_lookup_fmap, Eq. cbn [fmap option_fmap option_map].
  split; [reflexivity|]. split; [exact Hrange|]. split; reflexivity.
Qed.

Lemma pad16_finite (qs : list Q) :
  App.pad16 (map Fin qs) =
  map Fin (map (fun i => match qs !! i with Some q => q | None => 0%Q end)
               (seq 0 16)).
Proof.
  unfold App.pad16. rewrite List.map_map. apply List.map_ext. intros i.
  change (map ?f ?l) with (f <$> l). rewrite list_lookup_fmap.
  destruct (qs !! i); reflexivity.
Qed.

(** X17.  The hidden layers of the picture need no clamping.  When every
    layer output holds as many values as its shape announces, all of them
    finite, and no feature map is empty, [_buildRenderData] hands over,
    for each of the two hidden layers, exactly 16 finite numbers not above
    1 (zeros where the model gave fewer than 16 values or no such layer,
    and all zeros when there is no model), so the target
    [min(targets[i] ?? 0, 1)] that [animate] assigns is the number
    itself. *)
Theorem hidden_layers_need_no_clamping
    (s : mstate) (outputs : nat -> list tensor)
    (imgD : list Z) (probs : list Q) (k : nat) :
  (forall m t, In t (outputs m) ->
     wf_tensor t /\ List.Forall finite (tdata t)) ->
  let d := App._buildRenderData imgD (getActivations s outputs) probs in
  let hidden := if (k =? 0)%nat then App.h1Acts d else App.h2Acts d in
  (k < 2)%nat ->
  exists qs, hidden = map Fin qs /\ length qs = 16%nat /\
    List.Forall (fun q => q <= 1)%Q qs /\
    (forall i q, qs !! i = Some q ->
       (Qmin (entry (map Some qs) i) 1 == q)%Q) /\
    (_model s = None -> List.Forall (fun q => q == 0)%Q qs).
Proof.
  intros Hwf d hidden Hk.
  assert (Hh : hidden = App.pad16 (App.layer_or_empty (getActivations s outputs) k)).
  { unfold hidden, d. destruct k as [|[|k]]; [reflexivity|reflexivity|lia]. }
  assert (Hl : exists rs,
            App.layer_or_empty (getActivations s outputs) k = map Fin rs /\
            List.Forall (fun r => r <= 1)%Q rs /\
            (_model s = None -> rs = [])).
  { unfold App.layer_or_empty, getActivations.
    destruct (_model s) as [m|] eqn:Em.
    - change (map ?f ?l) with (f <$> l). rewrite list_lookup_fmap.
      destruct (outputs m !! k) as [t|] eqn:Et; simpl.
      + destruct (Hwf m t) as [Ht Hfin].
        { apply list_elem_of_In, list_elem_of_lookup. eauto. }
        destruct (compact_range t Ht Hfin) as (rs & -> & _ & Hle & _).
        exists rs. split; [reflexivity|]. split; [exact Hle|discriminate].
      + exists []. split; [reflexivity|]. split; [constructor|discriminate].
    - rewrite lookup_nil.
      exists []. split; [reflexivity|]. split; [constructor|reflexivity]. }
  destruct Hl as (rs & El & Hle & Hn).
  rewrite Hh, El, pad16_finite. eexists. split; [reflexivity|].
  split; [rewrite length_map, length_seq; reflexivity|].
  assert (Hall : List.Forall (fun q => q <= 1)%Q
                   (map (fun i => match rs !! i with Some q => q | None => 0%Q end)
                        (seq 0 16))).
  { rewrite List.Forall_map, List.Forall_forall. intros i _.
    destruct (rs !! i) as [q|] eqn:E; [|lra].
    rewrite List.Forall_forall in Hle. apply Hle.
    apply list_elem_of_In, list_elem_of_lookup. eauto. }
  split; [exact Hall|]. split.
  - intros i q Hq. unfold entry.
    change (map Some ?l) with (Some <$> l).
    rewrite list_lookup_fmap, Hq. simpl.
    rewrite List.Forall_forall in Hall.
    apply Q.min_l. apply Hall.
    apply list_elem_of_In, list_elem_of_lookup. eauto.
  - intros Em. rewrite (Hn Em). rewrite List.Forall_map, List.Forall_forall.
    intros i _. rewrite lookup_nil. reflexivity.
Qed.

End RenderDataFacts.

Lemma preview_shows_the_block_means_witness :
  exists qs,
    App.inputPixels (App._buildRenderData App.spot_image [] []) = map Fin qs /\
    (exists p,
       NetworkRenderer._pixels
         (NetworkRenderer.animate 0
            (NetworkRenderer.AnimData (Some (map Some qs)) None None None)
            false (NetworkRenderer._layout 0 0 (NetworkRenderer.init 0 0)))
         !! (0 * 14 + 1)%nat = Some p /\
       (NetworkRenderer.val p == 1 # 4)%Q) /\
    (exists p,
       NetworkRenderer._pixels
         (NetworkRenderer.animate 0
            (NetworkRenderer.AnimData (Some (map Some qs)) None None None)
            false (NetworkRenderer._layout 0 0 (NetworkRenderer.init 0 0)))
         !! (1 * 14 + 0)%nat = Some p /\
       (NetworkRenderer.val p == 0)%Q).
Proof.
  destruct (preview_shows_the_block_means 0 0 (NetworkRenderer.init 0 0)
              App.spot_image [] []) as (qs & E & _ & H).
  - split; [reflexivity|]. apply List.Forall_forall. intros v Hv.
    unfold App.spot_image in Hv. apply in_flat_map in Hv.
    destruct Hv as (k & _ & Hv). destruct (k =? 2)%nat;
      destruct Hv as [<-|[<-|[<-|[<-|[]]]]]; lia.
  - exists qs. split; [exact E|].
    destruct (H (NetworkRenderer.AnimData (Some (map Some qs)) None None None)
                0%Q false eq_refl) as [_ Hcell].
    split.
    + destruct (Hcell 0%nat 1%nat ltac:(lia) ltac:(lia))
        as (p & a & b & c' & d' & Ep & Ea & Eb & Ec & Ed & Ev & _).
      exists p. split; [exact Ep|]. rewrite Ev.
      vm_compute in Ea, Eb, Ec, Ed.
      injection Ea as <-. injection Eb as <-.
      injection Ec as <-. injection Ed as <-. reflexivity.
    + destruct (Hcell 1%nat 0%nat ltac:(lia) ltac:(lia))
        as (p & a & b & c' & d' & Ep & Ea & Eb & Ec & Ed & Ev & _).
      exists p. split; [exact Ep|]. rewrite Ev.
      vm_compute in Ea, Eb, Ec, Ed.
      injection Ea as <-. injection Eb as <-.
      injection Ec as <-. injection Ed as <-. reflexivity.
Defined.

Lemma hidden_layers_need_no_clamping_witness :
  exists qs,
    App.h1Acts
      (App._buildRenderData App.spot_image
         (MnistModel.getActivations
            (MnistModel.mexec MnistModel.initial
               [MnistModel.CallTrain; MnistModel.Settle 0 true])
            (fun _ => [MnistModel.peak_tensor]))
         []) = map Fin qs /\
    length qs = 16%nat.
Proof.
  destruct (hidden_layers_need_no_clamping
              (MnistModel.mexec MnistModel.initial
                 [MnistModel.CallTrain; MnistModel.Settle 0 true])
              (fun _ => [MnistModel.peak_tensor])
              App.spot_image [] 0%nat) as (qs & E & Hl & _).
  - intros _ t [<-|[]]. split.
    + split; [reflexivity|]. intros _. vm_compute. lia.
    + simpl. repeat constructor; eexists; reflexivity.
  - lia.
  - exists qs. split; [exact E|exact Hl].
Defined.

(* ------------------------------------------------------------------ *)
(** ** The result card *)
(* ------------------------------------------------------------------ *)

Section ResultFacts.
Import MnistModel ResultsUI.

Lemma round_mono (p q : Q) : (p <= q)%Q -> (round p <= round q)%Z.
Proof. intros H. unfold round. apply Qfloor_resp_le. lra. Qed.

Lemma round_at_least (p : Q) (n : Z) :
  (n <= round p)%Z <-> (inject_Z n - (1 # 2) <= p)%Q.
Proof.
  unfold round. split; intros H.
  - rewrite Zle_Qle in H. pose proof (Qfloor_le (p + (1 # 2))). lra.
  - destruct (Z_le_gt_dec n (Qfloor (p + (1 # 2)))) as [L|G]; [exact L|].
    exfalso. assert (G' : (Qfloor (p + (1 # 2)) + 1 <= n)%Z) by lia.
    rewrite Zle_Qle, inject_Z_plus in G'.
    pose proof (Qlt_floor (p + (1 # 2))) as F.
    rewrite inject_Z_plus in F. change (inject_Z 1) with 1%Q in *. lra.
Qed.

(** X18.  The result card agrees with itself: for the result of [predict],
    [showResults] writes the predicted digit, one row for each probability,
    marks as winner exactly the row of that digit, shows there the
    percentage of the headline, and shows no larger percentage in any other
    row; the headline is green exactly when the winning probability is at
    least 0.895 and amber exactly when it is below 0.595. *)
Theorem result_card_agrees_with_itself
    (s : mstate) (output : nat -> list Q) (m : nat) :
  _trained s = true -> _model s = Some m -> output m <> [] ->
  exists r D p, predict s output = inr r /\ showResults r = Some D /\
    resultDigit D = res_digit r /\
    output m !! res_digit r = Some p /\
    resultConf D = round (p * 100) /\
    length (bars D) = length (output m) /\
    (forall d b, bars D !! d = Some b ->
       (is_winner b = true <-> d = resultDigit D) /\
       (bar_pct b <= resultConf D)%Z /\
       bar_delay b = (50 + d * 40)%nat) /\
    (exists b, bars D !! resultDigit D = Some b /\
               bar_pct b = resultConf D) /\
    (confColour D = Green <-> (895 # 1000 <= p)%Q) /\
    (confColour D = Amber <-> (p < 595 # 1000)%Q).
Proof.
  intros Ht Hm Hne.
  destruct (predict_of_model s output m Ht Hm Hne) as (g & top & Et & E).
  destruct (top_is_first_largest _ g top Et) as (Hpd & Hpc & Hmax & _).
  exists {| res_digit := digit g; res_probs := output m;
            res_top5 := g :: top |}.
  unfold showResults. cbn [res_top5 res_probs res_digit].
  eexists. exists (prob g).
  split; [exact E|]. split; [reflexivity|].
  cbn [resultDigit resultConf confColour bars res_digit].
  split; [reflexivity|]. split; [exact Hpd|].
  split; [exact Hpc|].
  split; [apply length_imap|].
  set (p := prob g) in *.
  split; [|split; [|split]].
  - intros d b Hb. rewrite list_lookup_imap in Hb.
    destruct (output m !! d) as [q|] eqn:Eq; [|discriminate].
    simpl in Hb. inversion Hb. subst b. cbn [is_winner bar_pct bar_delay].
    split; [apply Nat.eqb_eq|]. split; [|reflexivity].
    rewrite Hpc. apply round_mono.
    pose proof (Hmax d q Eq). nra.
  - rewrite list_lookup_imap, Hpd. simpl. eexists.
    split; [reflexivity|]. cbn [bar_pct]. symmetry. exact Hpc.
  - unfold conf_colour. rewrite Hpc.
    pose proof (round_at_least (p * 100) 90) as R.
    change (inject_Z 90) with 90%Q in R.
    destruct (Z.leb_spec 90 (round (p * 100))) as [L|L].
    + split; [intros _; apply R in L; lra|reflexivity].
    + split; [destruct (60 <=? round (p * 100))%Z; discriminate|].
      intros Hq. assert (90 <= round (p * 100))%Z by (apply R; lra). lia.
  - unfold conf_colour. rewrite Hpc.
    pose proof (round_at_least (p * 100) 90) as R9.
    pose proof (round_at_least (p * 100) 60) as R6.
    change (inject_Z 90) with 90%Q in R9. change (inject_Z 60) with 60%Q in R6.
    destruct (Z.leb_spec 90 (round (p * 100))) as [L|L].
    + split; [discriminate|]. intros Hq. apply R9 in L. lra.
    + destruct (Z.leb_spec 60 (round (p * 100))) as [L6|L6].
      * split; [discriminate|]. intros Hq. apply R6 in L6. lra.
      * split; [|reflexivity]. intros _.
        destruct (Qlt_le_dec p (595 # 1000)) as [Hl|Hge]; [exact Hl|].
        assert (60 <= round (p * 100))%Z by (apply R6; lra). lia.
Qed.

End ResultFacts.

Lemma result_card_agrees_with_itself_witness :
  exists r D,
    MnistModel.predict
      (MnistModel.mexec MnistModel.initial
         [MnistModel.CallTrain; MnistModel.Settle 0 true;
          MnistModel.Settle 0 true])
      (fun _ => [1 # 10; 7 # 10; 2 # 10]%Q) = inr r /\
    ResultsUI.showResults r = Some D /\
    ResultsUI.resultDigit D = MnistModel.res_digit r.
Proof.
  destruct (result_card_agrees_with_itself
              (MnistModel.mexec MnistModel.initial
                 [MnistModel.CallTrain; MnistModel.Settle 0 true;
                  MnistModel.Settle 0 true])
              (fun _ => [1 # 10; 7 # 10; 2 # 10]%Q) 0%nat
              eq_refl eq_refl ltac:(discriminate))
    as (r & D & p & E & ES & Hd & _).
  exists r, D. split; [exact E|]. split; [exact ES|exact Hd].
Defined.

(* ------------------------------------------------------------------ *)
(** ** The training and test sets *)
(* ------------------------------------------------------------------ *)

Section DataFacts.
Import MnistModel.

Lemma slice_lookup {A : Type} (a b i : nat) (arr : list A) :
  (a + i < b)%nat -> slice a b arr !! i = arr !! (a + i)%nat.
Proof.
  intros H. unfold slice.
  rewrite lookup_take_lt by lia. apply lookup_drop.
Qed.

Lemma slice_length {A : Type} (a b : nat) (arr : list A) :
  (length (slice a b arr) <= b - a)%nat.
Proof. unfold slice. rewrite length_take. lia. Qed.

Lemma row_index (n m i k : nat) :
  (i < n)%nat -> (k < m)%nat -> (i * m + k < n * m)%nat.
Proof. intros Hi Hk. nia. Qed.

(** X19.  [_loadData] cuts the images and the labels at the same image:
    pixel [k] of training image [i] and entry [k] of its label row are
    those of image [i] of the sprite, pixel [k] of test image [j] and
    entry [k] of its label row are those of image [NUM_TRAIN + j], and the
    four arrays hold nothing beyond [NUM_TRAIN] and [NUM_TEST] images. *)
Theorem split_keeps_images_with_their_labels
    (imgData : list num) (labels : list Z) :
  let d := split_data imgData labels in
  (forall i k, (i < NUM_TRAIN)%nat ->
     ((k < IMG_SIZE)%nat ->
      trainX d !! (i * IMG_SIZE + k)%nat = imgData !! (i * IMG_SIZE + k)%nat) /\
     ((k < NUM_CLASSES)%nat ->
      trainY d !! (i * NUM_CLASSES + k)%nat =
      labels !! (i * NUM_CLASSES + k)%nat)) /\
  (forall j k, (j < NUM_TEST)%nat ->
     ((k < IMG_SIZE)%nat ->
      testX d !! (j * IMG_SIZE + k)%nat =
      imgData !! ((NUM_TRAIN + j) * IMG_SIZE + k)%nat) /\
     ((k < NUM_CLASSES)%nat ->
      testY d !! (j * NUM_CLASSES + k)%nat =
      labels !! ((NUM_TRAIN + j) * NUM_CLASSES + k)%nat)) /\
  (length (trainX d) <= NUM_TRAIN * IMG_SIZE)%nat /\
  (length (trainY d) <= NUM_TRAIN * NUM_CLASSES)%nat /\
  (length (testX d) <= NUM_TEST * IMG_SIZE)%nat /\
  (length (testY d) <= NUM_TEST * NUM_CLASSES)%nat.
Proof.
  intros d. unfold d, split_data. cbn [trainX trainY testX testY].
  generalize NUM_TRAIN NUM_TEST IMG_SIZE NUM_CLASSES. intros nt ne sz nc.
  split; [|split].
  - intros i k Hi. split; intros Hk.
    + apply (slice_lookup 0). simpl. apply row_index; assumption.
    + apply (slice_lookup 0). simpl. apply row_index; assumption.
  - intros j k Hj. split; intros Hk.
    + rewrite slice_lookup by (pose proof (row_index ne sz j k Hj Hk); nia).
      f_equal. lia.
    + rewrite slice_lookup by (pose proof (row_index ne nc j k Hj Hk); nia).
      f_equal. lia.
  - pose proof (slice_length 0 (nt * sz) imgData).
    pose proof (slice_length 0 (nt * nc) labels).
    pose proof (slice_length (nt * sz) ((nt + ne) * sz) imgData).
    pose proof (slice_length (nt * nc) ((nt + ne) * nc) labels).
    repeat split; nia.
Qed.

End DataFacts.

Lemma split_keeps_images_with_their_labels_witness :
  MnistModel.trainX (MnistModel.split_data [Fin 1; Fin 2] [7%Z])
    !! (0 * MnistModel.IMG_SIZE + 1)%nat =
  [Fin 1; Fin 2] !! (0 * MnistModel.IMG_SIZE + 1)%nat.
Proof.
  destruct (split_keeps_images_with_their_labels [Fin 1; Fin 2] [7%Z])
    as [H _].
  assert (Hi : (0 < MnistModel.NUM_TRAIN)%nat)
    by (apply Nat.ltb_lt; vm_compute; reflexivity).
  assert (Hk : (1 < MnistModel.IMG_SIZE)%nat)
    by (unfold MnistModel.IMG_SIZE; lia).
  exact (proj1 (H 0%nat 1%nat Hi) Hk).
Defined.

(* ------------------------------------------------------------------ *)
(** ** The theme *)
(* ------------------------------------------------------------------ *)

Section ThemeFacts.
Import ThemeManager.

Lemma other_cases (t : string) :
  other t = "dark"%string \/ other t = "light"%string.
Proof. unfold other. destruct (String.eqb t "dark"); [right|left]; reflexivity. Qed.

Lemma toggle_chosen (p : page) : chosen (toggle p).
Proof.
  exists (other (or_else (data_theme p) "dark")).
  split; [apply other_cases|]. unfold toggle, _apply. simpl.
  split; [reflexivity|]. split; [reflexivity|].
  intros ->. reflexivity.
Qed.

Lemma os_change_chosen (m : bool) (p : page) : chosen p -> os_change m p = p.
Proof.
  intros (t & Ht & _ & Hs & _). unfold os_change. rewrite Hs.
  destruct Ht as [-> | ->]; reflexivity.
Qed.

Lemma toggle_twice (p : page) : chosen p -> toggle (toggle p) = p.
Proof.
  intros (t & Ht & Ha & Hs & Hl). destruct p as [a s b l]. simpl in *.
  subst a s. unfold toggle, _apply. simpl.
  destruct b.
  - rewrite (Hl eq_refl). destruct Ht as [-> | ->]; reflexivity.
  - destruct Ht as [-> | ->]; reflexivity.
Qed.

Lemma run_chosen (acts : list action) (p : page) :
  chosen p -> chosen (run p acts).
Proof.
  revert p. induction acts as [|a acts IH]; intros p Hp; [exact Hp|].
  simpl. apply IH. destruct a as [|m]; simpl.
  - apply toggle_chosen.
  - rewrite os_change_chosen by exact Hp. exact Hp.
Qed.

(** X20.  Once the user has toggled the theme, the choice holds: after any
    further toggles and changes of the OS preference the page shows the
    stored theme, which is dark or light, and the button announces the
    other one; a change of the OS preference does nothing, two toggles
    bring the page back as it was, and [init] on a page with the same
    storage sets the same theme whatever the OS prefers. *)
Theorem chosen_theme_is_kept (p : page) (acts : list action) :
  let p1 := run (toggle p) acts in
  chosen p1 /\
  (forall m, os_change m p1 = p1) /\
  toggle (toggle p1) = p1 /\
  (forall os q, stored q = stored p1 ->
                data_theme (init os q) = data_theme p1).
Proof.
  intros p1.
  assert (C : chosen p1) by (apply run_chosen, toggle_chosen).
  split; [exact C|].
  split; [intros m; apply os_change_chosen; exact C|].
  split; [apply toggle_twice; exact C|].
  intros os q Hq. destruct C as (t & Ht & Ha & Hs & _).
  unfold init, _apply. simpl. rewrite Hq, Hs, Ha.
  destruct Ht as [-> | ->]; reflexivity.
Qed.

End ThemeFacts.
